(** * Via stitcher: a shallow embedding of [stitcher.py] and its properties

    The development follows the structure of the Python class [ViaStitcher]:
    the scanline polygon rasterizer, the per-layer coverage accumulator, the
    obstacle compositor, the clearance eroder, the grid sampler and the
    orchestrating [stitch] method, plus [get_candidate_nets] and
    [get_other_zones]; then [get_socket_path] of [ipc_entry.py] and the
    handlers [update_zone_list] and [on_stitch] of the dialog in [ui.py].

    Conventions of the embedding.
    - Board coordinates are Python integers (nanometres); they are [Z] here.
    - [int(a / b)] on two Python integers is a true division followed by a
      truncation toward zero.  For the magnitudes a board can hold (32-bit
      nanometre coordinates) the double-precision quotient truncates to the
      same integer as the exact rational, so it is modelled by [Z.quot];
      division by zero raises [ZeroDivisionError].
    - numpy arrays are dense grids with a dtype and a shape; in-place
      arithmetic wraps around in the dtype, as numpy does silently.
    - Python exceptions are values of [exn]; a computation that can raise
      lives in the monad [res], and [while] loops take fuel and answer
      [Diverge] when it runs out.
    - Calls to the board collaborator that mutate the document, the progress
      callback and [print] are recorded in an event log.  Each mutating call
      may raise; the enumerations of pads, vias, tracks, zones and nets and
      the progress callback are taken to return normally. *)

From Stdlib Require Import String DecimalString QArith.
From Stdlib Require Import ZArith List Lia Bool Permutation Sorted.
Import ListNotations.
Local Open Scope Z_scope.

(** ** Exceptions and the result monad *)

Inductive exn : Type :=
| ZeroDivisionError
| IndexError
| ValueError
| Exception (msg : string).

Inductive res (A : Type) : Type :=
| Ok (a : A)
| Raise (e : exn)
| Diverge.

Arguments Ok {A} a.
Arguments Raise {A} e.
Arguments Diverge {A}.

Definition ret {A} (a : A) : res A := Ok a.

Definition bind {A B} (m : res A) (k : A -> res B) : res B :=
  match m with
  | Ok a => k a
  | Raise e => Raise e
  | Diverge => Diverge
  end.

Declare Scope res_scope.
Delimit Scope res_scope with res.
Notation "x <- m ;; k" := (bind m (fun x => k))
  (at level 61, m at next level, right associativity) : res_scope.
Notation "' pat <- m ;; k" := (bind m (fun x => match x with pat => k end))
  (at level 61, pat pattern, m at next level, right associativity) : res_scope.
Local Open Scope res_scope.

(** [for v in xs: acc = body(acc, v)] with a body that may raise. *)
Fixpoint for_each {A B} (body : A -> B -> res A) (xs : list B) (acc : A) : res A :=
  match xs with
  | [] => ret acc
  | v :: rest => acc' <- body acc v ;; for_each body rest acc'
  end.

Fixpoint map_res {A B} (f : A -> res B) (xs : list A) : res (list B) :=
  match xs with
  | [] => ret []
  | v :: rest => b <- f v ;; bs <- map_res f rest ;; ret (b :: bs)
  end.

(** [int(a / b)] for Python integers [a] and [b]. *)
Definition int_truediv (a b : Z) : res Z :=
  if b =? 0 then Raise ZeroDivisionError else Ok (Z.quot a b).

(** [int(a / b / 2)] for Python integers [a] and [b]: halving a double is
    exact, so the value is the exact quotient [a / (2 b)] truncated. *)
Definition int_truediv_half (a b : Z) : res Z :=
  if b =? 0 then Raise ZeroDivisionError else Ok (Z.quot a (b * 2)).

(** [range(n)] *)
Definition range (n : Z) : list Z := map Z.of_nat (seq 0 (Z.to_nat n)).

(** ** Geometry of the board collaborator (kipy) *)

Record Vector2 : Type := { vx : Z; vy : Z }.
Record Box2 : Type := { pos : Vector2; size : Vector2 }.
Record PolyLineNode : Type := { point : Vector2 }.

(** ** numpy arrays *)

Inductive dtype : Type := uint8 | int32.

Definition wrap (d : dtype) (z : Z) : Z :=
  match d with
  | uint8 => z mod 256
  | int32 => (z + 2147483648) mod 4294967296 - 2147483648
  end.

Record ndarray : Type :=
  { dt : dtype; height : Z; width : Z; cells : list (list Z) }.

Definition in_bounds (a : ndarray) (y x : Z) : bool :=
  (0 <=? y) && (y <? height a) && (0 <=? x) && (x <? width a).

(** [a[y, x]] for an index inside the shape; 0 elsewhere (the code reads only
    after a bounds check). *)
Definition get (a : ndarray) (y x : Z) : Z :=
  if in_bounds a y x
  then nth (Z.to_nat x) (nth (Z.to_nat y) (cells a) []) 0
  else 0.

(** The array of shape [(h, w)] whose cell [(y, x)] is [f y x]. *)
Definition tabulate (d : dtype) (h w : Z) (f : Z -> Z -> Z) : ndarray :=
  {| dt := d; height := h; width := w;
     cells := map (fun y => map (fun x => f y x) (range w)) (range h) |}.

(** [np.zeros((h, w), dtype=d)]: a negative dimension is a [ValueError]. *)
Definition np_zeros (d : dtype) (h w : Z) : res ndarray :=
  if (h <? 0) || (w <? 0) then Raise ValueError
  else Ok (tabulate d h w (fun _ _ => 0)).

(** numpy index normalisation along an axis of length [n]: a negative index
    counts from the end, an index outside [-n, n) is an [IndexError]. *)
Definition norm_index (n i : Z) : res Z :=
  if (0 <=? i) && (i <? n) then Ok i
  else if (- n <=? i) && (i <? 0) then Ok (i + n)
  else Raise IndexError.

(** A slice bound along an axis of length [n]: negative bounds count from the
    end, and the result is clipped to [0, n]. *)
Definition slice_bound (n i : Z) : Z :=
  if i <? 0 then Z.max 0 (i + n) else Z.min i n.

(** [a[y, start:stop] += value], in place, for a [value] that the dtype can
    hold (the code only ever adds 1). *)
Definition iadd_row_slice (a : ndarray) (y start stop value : Z) : res ndarray :=
  r <- norm_index (height a) y ;;
  let s := slice_bound (width a) start in
  let e := slice_bound (width a) stop in
  ret (tabulate (dt a) (height a) (width a)
         (fun yy xx =>
            if (yy =? r) && (s <=? xx) && (xx <? e)
            then wrap (dt a) (get a yy xx + value)
            else get a yy xx)).

(** ** Geometry rasterizer: [ViaStitcher.rasterize_polygon] *)

Definition node_to_pixel (bbox : Box2) (resolution : Z) (node : PolyLineNode)
  : res (Z * Z) :=
  px <- int_truediv (vx (point node) - vx (pos bbox)) resolution ;;
  py <- int_truediv (vy (point node) - vy (pos bbox)) resolution ;;
  ret (px, py).

(** [int(p1[0] + (y - p1[1]) * (p2[0] - p1[0]) / (p2[1] - p1[1]))]: the
    exact rational value of the interpolation, truncated toward zero. *)
Definition x_intersection (p1 p2 : Z * Z) (y : Z) : res Z :=
  let d := snd p2 - snd p1 in
  if d =? 0 then Raise ZeroDivisionError
  else Ok (Z.quot (fst p1 * d + (y - snd p1) * (fst p2 - fst p1)) d).

(** The edge number [i]: [points[i]] and [points[(i + 1) % len(points)]]. *)
Definition edge_at (points : list (Z * Z)) (i : nat) : (Z * Z) * (Z * Z) :=
  (nth i points (0, 0), nth ((i + 1) mod length points) points (0, 0)).

(** The inner [for i in range(len(points))] loop for the row [y]. *)
Fixpoint scan_edges (points : list (Z * Z)) (y : Z) (idx : list nat)
  : res (list Z) :=
  match idx with
  | [] => ret []
  | i :: rest =>
      let '(p1, p2) := edge_at points i in
      if snd p1 =? snd p2 then scan_edges points y rest
      else if (y <? Z.min (snd p1) (snd p2)) || (Z.max (snd p1) (snd p2) <=? y)
      then scan_edges points y rest
      else
        x <- x_intersection p1 p2 y ;;
        xs <- scan_edges points y rest ;;
        ret (x :: xs)
  end.

(** [list.sort()] on integers. *)
Fixpoint insert_sorted (v : Z) (xs : list Z) : list Z :=
  match xs with
  | [] => [v]
  | h :: t => if v <=? h then v :: h :: t else h :: insert_sorted v t
  end.

Fixpoint sort (xs : list Z) : list Z :=
  match xs with
  | [] => []
  | h :: t => insert_sorted h (sort t)
  end.

(** [for i in range(0, len(intersections) - 1, 2)]: fill the pairs. *)
Fixpoint fill_spans (bitmap : ndarray) (y : Z) (intersections : list Z)
  (value : Z) : res ndarray :=
  match intersections with
  | a :: b :: rest =>
      let x1 := Z.max 0 a in
      let x2 := Z.min (width bitmap - 1) b in
      bitmap' <- (if x1 <=? x2
                  then iadd_row_slice bitmap y x1 (x2 + 1) value
                  else ret bitmap) ;;
      fill_spans bitmap' y rest value
  | _ => ret bitmap
  end.

Definition scan_row (points : list (Z * Z)) (value : Z) (bitmap : ndarray)
  (y : Z) : res ndarray :=
  intersections <- scan_edges points y (seq 0 (length points)) ;;
  fill_spans bitmap y (sort intersections) value.

Definition rasterize_polygon (bitmap : ndarray) (nodes : list PolyLineNode)
  (bbox : Box2) (resolution : Z) (value : Z) : res ndarray :=
  if (length nodes <? 3)%nat then ret bitmap
  else
    points <- map_res (node_to_pixel bbox resolution) nodes ;;
    for_each (scan_row points value) (range (height bitmap)) bitmap.

(** ** Board items of the collaborator (kipy) *)

Record Net : Type := { name : string }.

(** [item.net and item.net.name == net_name] *)
Definition on_net (n : option Net) (net_name : string) : bool :=
  match n with
  | Some n => String.eqb (name n) net_name
  | None => false
  end.

Module Pad.
(** [padstack_copper_layers] is [None] when the pad has no [padstack] or the
    padstack no [copper_layers]; a layer without [size] is [None]. *)
Record t : Type :=
  { net : option Net;
    position : Vector2;
    padstack_copper_layers : option (list (option Vector2)) }.
End Pad.

Module Via.
Record t : Type :=
  { position : Vector2;
    net : option Net;
    diameter : Z;
    drill_diameter : Z }.
End Via.

Module Track.
Record t : Type :=
  { net : option Net;
    start : Vector2;
    end_ : Vector2;
    width : Z }.
End Track.

(** A polygon of a zone fill: [outline] is [None] when the polygon has no
    [outline] or the outline no [nodes]; [holes] is [None] without the
    attribute, and a hole without [nodes] is [None]. *)
Record PolygonWithHoles : Type :=
  { outline : option (list PolyLineNode);
    holes : option (list (option (list PolyLineNode))) }.

(** A zone identifier: an object with a [value] attribute, or anything else,
    of which the code takes [str]. *)
Inductive KIID : Type :=
| WithValue (value : string)
| Other (str : string).

Module Zone.
(** [filled_polygons] is [None] when the attribute is missing or is not a
    dictionary; otherwise the items of the dictionary, in order. *)
Record t : Type :=
  { net : option Net;
    filled : bool;
    id : KIID;
    layers : list Z;
    filled_polygons : option (list (Z * list PolygonWithHoles));
    bounding_box : Box2 }.
End Zone.

(** ** Layer coverage accumulator: [ViaStitcher.rasterize_zones_by_layer] *)

(** The dictionary [layer_maps], keyed by layer id, in insertion order. *)
Fixpoint dict_get {V} (d : list (Z * V)) (k : Z) : option V :=
  match d with
  | [] => None
  | (k', v) :: rest => if k' =? k then Some v else dict_get rest k
  end.

Fixpoint dict_set {V} (d : list (Z * V)) (k : Z) (v : V) : list (Z * V) :=
  match d with
  | [] => [(k, v)]
  | (k', v') :: rest =>
      if k' =? k then (k, v) :: rest else (k', v') :: dict_set rest k v
  end.

(** [np.where(temp > 0, 0, layer_map)] *)
Definition punch_hole (temp layer_map : ndarray) : ndarray :=
  tabulate (dt layer_map) (height layer_map) (width layer_map)
    (fun y x => if get temp y x >? 0 then 0 else get layer_map y x).

(** [bitmap += (layer_bitmap > 0).astype(np.int32)] *)
Definition count_layer (bitmap layer_bitmap : ndarray) : ndarray :=
  tabulate (dt bitmap) (height bitmap) (width bitmap)
    (fun y x =>
       wrap (dt bitmap)
         (get bitmap y x + (if get layer_bitmap y x >? 0 then 1 else 0))).

Section Coverage.
Variables (bbox : Box2) (resolution : Z) (height width : Z).

Definition subtract_hole (layer_map : ndarray)
  (hole : option (list PolyLineNode)) : res ndarray :=
  match hole with
  | None => ret layer_map
  | Some hole_nodes =>
      temp <- np_zeros uint8 height width ;;
      temp <- rasterize_polygon temp hole_nodes bbox resolution 1 ;;
      ret (punch_hole temp layer_map)
  end.

Definition rasterize_zone_poly (layer_map : ndarray) (poly : PolygonWithHoles)
  : res ndarray :=
  match outline poly with
  | None => ret layer_map
  | Some nodes =>
      layer_map <- rasterize_polygon layer_map nodes bbox resolution 1 ;;
      match holes poly with
      | None => ret layer_map
      | Some hs => for_each subtract_hole hs layer_map
      end
  end.

Definition rasterize_zone_layer (layer_maps : list (Z * ndarray))
  (item : Z * list PolygonWithHoles) : res (list (Z * ndarray)) :=
  let '(layer_id, poly_list) := item in
  match poly_list with
  | [] => ret layer_maps
  | _ =>
      layer_map <- match dict_get layer_maps layer_id with
                   | Some m => ret m
                   | None => np_zeros uint8 height width
                   end ;;
      layer_map <- for_each rasterize_zone_poly poly_list layer_map ;;
      ret (dict_set layer_maps layer_id layer_map)
  end.

Definition rasterize_zone (layer_maps : list (Z * ndarray)) (zone : Zone.t)
  : res (list (Z * ndarray)) :=
  match Zone.filled_polygons zone with
  | None => ret layer_maps
  | Some polys_dict => for_each rasterize_zone_layer polys_dict layer_maps
  end.
End Coverage.

Definition rasterize_zones_by_layer (zones : list Zone.t) (bbox : Box2)
  (resolution : Z) : res ndarray :=
  w <- int_truediv (vx (size bbox)) resolution ;;
  h <- int_truediv (vy (size bbox)) resolution ;;
  let width := w + 1 in
  let height := h + 1 in
  bitmap <- np_zeros int32 height width ;;
  layer_maps <- for_each (rasterize_zone bbox resolution height width) zones [] ;;
  ret (fold_left count_layer (map snd layer_maps) bitmap).

(** ** Obstacle compositor: [ViaStitcher.rasterize_obstacles] *)

Definition to_pixel (bbox : Box2) (resolution : Z) (p : Vector2) : res (Z * Z) :=
  px <- int_truediv (vx p - vx (pos bbox)) resolution ;;
  py <- int_truediv (vy p - vy (pos bbox)) resolution ;;
  ret (px, py).

(** [mask = (x - cx)**2 + (y - cy)**2 <= radius_px**2; bitmap[mask] = 1] over
    the open grid of the bitmap's own rows and columns (the squares stay far
    below the 64-bit range of the grid for any pixel coordinate of a board). *)
Definition draw_circle (bitmap : ndarray) (cx cy radius_px : Z) : ndarray :=
  tabulate (dt bitmap) (height bitmap) (width bitmap)
    (fun y x =>
       if (x - cx) ^ 2 + (y - cy) ^ 2 <=? radius_px ^ 2
       then 1 else get bitmap y x).

(** The [while True] walk of [draw_line], one iteration per unit of fuel. *)
Fixpoint line_walk (fuel : nat) (x1 y1 x2 y2 dx dy sx sy err : Z)
  (points : list (Z * Z)) : res (list (Z * Z)) :=
  match fuel with
  | O => Diverge
  | S fuel =>
      let points := points ++ [(x1, y1)] in
      if (x1 =? x2) && (y1 =? y2) then ret points
      else
        let e2 := 2 * err in
        let '(err, x1) := if e2 >? - dy then (err - dy, x1 + sx) else (err, x1) in
        let '(err, y1) := if e2 <? dx then (err + dx, y1 + sy) else (err, y1) in
        line_walk fuel x1 y1 x2 y2 dx dy sx sy err points
  end.

Definition draw_line (fuel : nat) (bitmap : ndarray) (x1 y1 x2 y2 width_px : Z)
  : res ndarray :=
  let dx := Z.abs (x2 - x1) in
  let dy := Z.abs (y2 - y1) in
  let sx := if x1 <? x2 then 1 else -1 in
  let sy := if y1 <? y2 then 1 else -1 in
  let err := dx - dy in
  points <- line_walk fuel x1 y1 x2 y2 dx dy sx sy err [] ;;
  ret (fold_left (fun b p => draw_circle b (fst p) (snd p) (width_px / 2))
         points bitmap).

(** The size loop of a pad: [radius_nm] starts at the default and is raised
    by every copper layer whose larger side exceeds it. *)
Definition pad_radius_nm (p : Pad.t) : Z :=
  match Pad.padstack_copper_layers p with
  | None => 1000000
  | Some copper_layers =>
      fold_left
        (fun radius_nm layer =>
           match layer with
           | None => radius_nm
           | Some sz =>
               let curr_max := Z.max (vx sz) (vy sz) in
               if curr_max >? radius_nm then curr_max else radius_nm
           end)
        copper_layers 1000000
  end.

Definition zone_id_key (z : Zone.t) : string :=
  match Zone.id z with
  | WithValue value => value
  | Other str => str
  end.

Definition mem_string (s : string) (set : list string) : bool :=
  existsb (String.eqb s) set.

Section Obstacles.
Variables (fuel : nat) (net_name : string) (bbox : Box2) (resolution : Z).
Variable ignored_zone_ids : list string.

Definition stamp_pad (bitmap : ndarray) (p : Pad.t) : res ndarray :=
  if on_net (Pad.net p) net_name then ret bitmap
  else
    '(px, py) <- to_pixel bbox resolution (Pad.position p) ;;
    radius_px <- int_truediv_half (pad_radius_nm p) resolution ;;
    ret (draw_circle bitmap px py radius_px).

Definition stamp_via (bitmap : ndarray) (v : Via.t) : res ndarray :=
  if on_net (Via.net v) net_name then ret bitmap
  else
    '(px, py) <- to_pixel bbox resolution (Via.position v) ;;
    radius_px <- int_truediv_half (Via.diameter v) resolution ;;
    ret (draw_circle bitmap px py radius_px).

Definition stamp_track (bitmap : ndarray) (t : Track.t) : res ndarray :=
  if on_net (Track.net t) net_name then ret bitmap
  else
    '(x1, y1) <- to_pixel bbox resolution (Track.start t) ;;
    '(x2, y2) <- to_pixel bbox resolution (Track.end_ t) ;;
    width_px <- int_truediv (Track.width t) resolution ;;
    draw_line fuel bitmap x1 y1 x2 y2 width_px.

Definition fill_outline (bitmap : ndarray) (poly : PolygonWithHoles)
  : res ndarray :=
  match outline poly with
  | None => ret bitmap
  | Some nodes => rasterize_polygon bitmap nodes bbox resolution 1
  end.

Definition fill_poly_list (bitmap : ndarray)
  (item : Z * list PolygonWithHoles) : res ndarray :=
  for_each fill_outline (snd item) bitmap.

Definition stamp_zone (bitmap : ndarray) (zone : Zone.t) : res ndarray :=
  if on_net (Zone.net zone) net_name then ret bitmap
  else if negb (Zone.filled zone) then ret bitmap
  else if mem_string (zone_id_key zone) ignored_zone_ids then ret bitmap
  else
    match Zone.filled_polygons zone with
    | None => ret bitmap
    | Some polys_dict => for_each fill_poly_list polys_dict bitmap
    end.
End Obstacles.

(** The board as the stitcher reads it. *)
Record Items : Type :=
  { get_pads : list Pad.t;
    get_vias : list Via.t;
    get_tracks : list Track.t;
    get_zones : list Zone.t;
    get_nets : list Net }.

Definition rasterize_obstacles (fuel : nat) (board : Items) (net_name : string)
  (bbox : Box2) (resolution : Z) (ignored_zone_ids : option (list string))
  : res ndarray :=
  let ignored_zone_ids := match ignored_zone_ids with
                          | None => []
                          | Some ids => ids
                          end in
  w <- int_truediv (vx (size bbox)) resolution ;;
  h <- int_truediv (vy (size bbox)) resolution ;;
  let width := w + 1 in
  let height := h + 1 in
  bitmap <- np_zeros uint8 height width ;;
  bitmap <- for_each (stamp_pad net_name bbox resolution) (get_pads board) bitmap ;;
  bitmap <- for_each (stamp_via net_name bbox resolution) (get_vias board) bitmap ;;
  bitmap <- for_each (stamp_track fuel net_name bbox resolution)
              (get_tracks board) bitmap ;;
  for_each (stamp_zone net_name bbox resolution ignored_zone_ids)
    (get_zones board) bitmap.

(** ** Clearance eroder: [ViaStitcher.apply_clearance] *)

(** The offsets [-k .. k] of the structuring element
    [np.ones((2*k+1, 2*k+1))] about its centre. *)
Definition window (k : Z) : list Z := map (fun i => i - k) (range (2 * k + 1)).

(** [ndimage.binary_erosion(bitmap, structure=np.ones((2*k+1, 2*k+1)))] with
    scipy's defaults (one iteration, centred origin, border value 0), cast
    to uint8: a cell is kept when every cell of the window around it lies
    inside the array and is nonzero. *)
Definition binary_erosion (bitmap : ndarray) (k : Z) : ndarray :=
  tabulate uint8 (height bitmap) (width bitmap)
    (fun y x =>
       if forallb
            (fun dy =>
               forallb
                 (fun dx =>
                    in_bounds bitmap (y + dy) (x + dx)
                    && negb (get bitmap (y + dy) (x + dx) =? 0))
                 (window k))
            (window k)
       then 1 else 0).

Definition apply_clearance (bitmap : ndarray) (clearance_nm resolution : Z)
  : res ndarray :=
  clearance_px <- int_truediv clearance_nm resolution ;;
  if clearance_px <? 1 then ret bitmap
  else ret (binary_erosion bitmap clearance_px).

(** ** Candidate nets: [ViaStitcher.get_candidate_nets] *)

(** [layers.add(layer_id)] on a set of layer ids. *)
Definition set_add (layer_id : Z) (layers : list Z) : list Z :=
  if existsb (Z.eqb layer_id) layers then layers else layers ++ [layer_id].

(** The dictionary [nets_with_zones], keyed by net name, in insertion
    order. *)
Fixpoint nets_get (d : list (string * list Z)) (k : string) : option (list Z) :=
  match d with
  | [] => None
  | (k', v) :: rest => if String.eqb k' k then Some v else nets_get rest k
  end.

Fixpoint nets_set (d : list (string * list Z)) (k : string) (v : list Z)
  : list (string * list Z) :=
  match d with
  | [] => [(k, v)]
  | (k', v') :: rest =>
      if String.eqb k' k then (k, v) :: rest else (k', v') :: nets_set rest k v
  end.

(** One iteration of the loop over [self.board.get_zones()]. *)
Definition collect_zone (nets_with_zones : list (string * list Z))
  (zone : Zone.t) : list (string * list Z) :=
  if negb (Zone.filled zone) then nets_with_zones
  else
    match Zone.net zone with
    | None => nets_with_zones
    | Some net =>
        if String.eqb (name net) "" then nets_with_zones
        else
          let current := match nets_get nets_with_zones (name net) with
                         | Some layers => layers
                         | None => []
                         end in
          nets_set nets_with_zones (name net)
            (fold_left (fun layers layer_id => set_add layer_id layers)
               (Zone.layers zone) current)
    end.

(** [sorted] on strings (code point order). *)
Fixpoint insert_string (s : string) (xs : list string) : list string :=
  match xs with
  | [] => [s]
  | h :: t => if String.leb s h then s :: h :: t else h :: insert_string s t
  end.

Fixpoint sorted (xs : list string) : list string :=
  match xs with
  | [] => []
  | h :: t => insert_string h (sorted t)
  end.

Definition get_candidate_nets (board : Items) : list string :=
  let nets_with_zones := fold_left collect_zone (get_zones board) [] in
  let candidates :=
    map fst (filter (fun item => (1 <? length (snd item))%nat) nets_with_zones) in
  sorted candidates.

(** ** The board collaborator's effects *)

Inductive call : Type :=
| begin_commit
| create_items (items : list Via.t)
| push_commit
| clear_selection
| add_to_selection (item : Via.t)
| refill_zones.

Inductive event : Type :=
| Call (c : call)
| Progress (percent : Q) (status : string)
| Print (text : string).

(** The board: what the stitcher reads of it, and for each mutating call
    whether it raises ([Some msg] for [Exception(msg)]) given everything that
    happened before. *)
Record Board : Type :=
  { items : Items;
    raises : list event -> call -> option string }.

(** Computations that log events and may raise or diverge. *)
Definition M (A : Type) : Type := list event -> list event * res A.

Definition retM {A} (a : A) : M A := fun log => (log, Ok a).

Definition bindM {A B} (m : M A) (k : A -> M B) : M B :=
  fun log =>
    match m log with
    | (log', Ok a) => k a log'
    | (log', Raise e) => (log', Raise e)
    | (log', Diverge) => (log', Diverge)
    end.

Definition lift {A} (r : res A) : M A := fun log => (log, r).

Notation "x <~ m ;; k" := (bindM m (fun x => k))
  (at level 61, m at next level, right associativity).
Notation "' pat <~ m ;; k" := (bindM m (fun x => match x with pat => k end))
  (at level 61, pat pattern, m at next level, right associativity).
Notation "m ;;; k" := (bindM m (fun _ => k))
  (at level 61, right associativity).

(** [try: body  except Exception as e: handler(e)] *)
Definition try_except {A} (body : M A) (handler : exn -> M A) : M A :=
  fun log =>
    match body log with
    | (log', Raise e) => handler e log'
    | r => r
    end.

Definition board_call (board : Board) (c : call) : M unit :=
  fun log =>
    match raises board log c with
    | Some msg => (log ++ [Call c], Raise (Exception msg))
    | None => (log ++ [Call c], Ok tt)
    end.

(** [if progress_callback: progress_callback(percent, status)] *)
Definition progress (progress_callback : bool) (percent : Q) (status : string)
  : M unit :=
  fun log =>
    if progress_callback then (log ++ [Progress percent status], Ok tt)
    else (log, Ok tt).

Definition print (text : string) : M unit :=
  fun log => (log ++ [Print text], Ok tt).

Fixpoint for_eachM {B} (body : B -> M unit) (xs : list B) : M unit :=
  match xs with
  | [] => retM tt
  | v :: rest => body v ;;; for_eachM body rest
  end.

(** [str(n)] for an integer and [str(e)] for an exception. *)
Definition str_of_int (n : Z) : string := NilZero.string_of_int (Z.to_int n).

Definition str_of_exn (e : exn) : string :=
  match e with
  | ZeroDivisionError => "division by zero"
  | IndexError => "index out of bounds"
  | ValueError => "negative dimensions are not allowed"
  | Exception msg => msg
  end.

(** ** Grid sampler and orchestrator: [ViaStitcher.stitch] *)

Definition RESOLUTION : Z := 100000.
Definition CLEARANCE : Z := 250000.
Definition SCALE : Z := 1000000.

(** Modelled from the spec: the collaborator's bounding-box merge (kipy's
    [Box2.merge], not part of this repository), the union of two boxes. *)
Definition merge (a b : Box2) : Box2 :=
  let left := Z.min (vx (pos a)) (vx (pos b)) in
  let top := Z.min (vy (pos a)) (vy (pos b)) in
  let right := Z.max (vx (pos a) + vx (size a)) (vx (pos b) + vx (size b)) in
  let bottom := Z.max (vy (pos a) + vy (size a)) (vy (pos b) + vy (size b)) in
  {| pos := {| vx := left; vy := top |};
     size := {| vx := right - left; vy := bottom - top |} |}.

(** The validity test of one grid point. *)
Definition valid_at (valid_bitmap : ndarray) (px py : Z) : bool :=
  (0 <=? px) && (px <? width valid_bitmap)
  && (0 <=? py) && (py <? height valid_bitmap)
  && (get valid_bitmap py px >? 0).

(** [(zone_bitmap >= 2) & (obstacle_bitmap == 0)], cast to uint8. *)
Definition valid_area (zone_bitmap obstacle_bitmap : ndarray) : ndarray :=
  tabulate uint8 (height zone_bitmap) (width zone_bitmap)
    (fun y x =>
       if (get zone_bitmap y x >=? 2) && (get obstacle_bitmap y x =? 0)
       then 1 else 0).

(** [if g <= 0: g = int(1 * SCALE)] *)
Definition clamp_spacing (g : Z) : Z := if g <=? 0 then 1 * SCALE else g.

Section Stitch.
(** The user-facing numbers (millimetres) are Python floats or integers;
    [int_times v k] stands for [int(v * k)]. *)
Variable number : Type.
Variable int_times : number -> Z -> Z.

Section Sampler.
Variables (valid_bitmap : ndarray) (overall_bbox : Box2).
Variables (target_net : Net) (via_diameter via_drill : number).
Variables (end_x end_y gx gy : Z) (stagger progress_callback : bool).
Variable total_points : Z.

Definition new_via (x y : Z) : Via.t :=
  {| Via.position := {| vx := x; vy := y |};
     Via.net := Some target_net;
     Via.diameter := int_times via_diameter SCALE;
     Via.drill_diameter := int_times via_drill SCALE |}.

(** The inner [while y <= end_y] loop. *)
Fixpoint sample_column (fuel : nat) (x y : Z) (vias_to_add : list Via.t)
  (points_checked : Z) : res (list Via.t * Z) :=
  match fuel with
  | O => Diverge
  | S fuel =>
      if y <=? end_y then
        px <- int_truediv (x - vx (pos overall_bbox)) RESOLUTION ;;
        py <- int_truediv (y - vy (pos overall_bbox)) RESOLUTION ;;
        let vias_to_add :=
          if valid_at valid_bitmap px py
          then vias_to_add ++ [new_via x y]
          else vias_to_add in
        sample_column fuel x (y + gy) vias_to_add (points_checked + 1)
      else ret (vias_to_add, points_checked)
  end.

Definition grid_progress (points_checked : Z) : Q :=
  (65 + (25 * inject_Z points_checked) / inject_Z total_points)%Q.

Definition grid_status (points_checked : Z) : string :=
  ("Checking grid points (" ++ str_of_int points_checked ++ "/"
     ++ str_of_int total_points ++ ")...")%string.

(** The outer [while x <= end_x] loop; every inner loop may run for as
    many iterations as the outer one was given. *)
Fixpoint sample_grid (budget fuel : nat) (x row : Z)
  (vias_to_add : list Via.t) (points_checked : Z) : M (list Via.t) :=
  match fuel with
  | O => lift Diverge
  | S fuel =>
      if x <=? end_x then
        let y := vy (pos overall_bbox) in
        let offset_y :=
          if stagger && (row mod 2 =? 1) then gy / 2 else 0 in
        let y := y + offset_y in
        '(vias_to_add, points_checked) <~
           lift (sample_column budget x y vias_to_add points_checked) ;;
        (if total_points >? 0
         then progress progress_callback (grid_progress points_checked)
                (grid_status points_checked)
         else retM tt) ;;;
        sample_grid budget fuel (x + gx) (row + 1) vias_to_add points_checked
      else retM vias_to_add
  end.
End Sampler.

(** Step 5 of [stitch]: commit, select, refill, return the count. *)
Definition commit_and_select (board : Board) (progress_callback : bool)
  (vias_to_add : list Via.t) : M unit :=
  board_call board begin_commit ;;;
  board_call board (create_items vias_to_add) ;;;
  board_call board push_commit ;;;
  progress progress_callback 95 "Selecting created vias..." ;;;
  board_call board clear_selection ;;;
  for_eachM (fun v => board_call board (add_to_selection v)) vias_to_add.

Definition commit (board : Board) (refill_after progress_callback : bool)
  (vias_to_add : list Via.t) : M Z :=
  progress progress_callback 90
    ("Committing " ++ str_of_int (Z.of_nat (length vias_to_add)) ++ " vias...")
    ;;;
  (match vias_to_add with
   | [] => retM tt
   | _ =>
       try_except (commit_and_select board progress_callback vias_to_add)
         (fun e => print ("Error adding vias: " ++ str_of_exn e))
   end) ;;;
  (if refill_after
   then progress progress_callback 99 "Refilling zones..." ;;;
        board_call board refill_zones
   else retM tt) ;;;
  retM (Z.of_nat (length vias_to_add)).

(** The union of the zones' bounding boxes, [None] without zones. *)
Definition overall_bounding_box (zones : list Zone.t) : option Box2 :=
  fold_left
    (fun overall_bbox z =>
       let bb := Zone.bounding_box z in
       match overall_bbox with
       | None => Some bb
       | Some b => Some (merge b bb)
       end)
    zones None.

(** Steps 1 to 4 of [stitch] for a net that was found and has zones: the
    bitmaps and the grid walk, giving [vias_to_add]. *)
Definition candidates (fuel : nat) (board : Board) (net_name : string)
  (target_net : Net) (zones : list Zone.t) (overall_bbox : Box2)
  (via_diameter via_drill grid_x grid_y : number) (stagger : bool)
  (ignored_zone_ids : list string) (progress_callback : bool)
  : M (list Via.t) :=
  progress progress_callback 15 "Rasterizing target zones..." ;;;
  zone_bitmap <~ lift (rasterize_zones_by_layer zones overall_bbox RESOLUTION) ;;
  progress progress_callback 35 "Rasterizing obstacles..." ;;;
  obstacle_bitmap <~
    lift (rasterize_obstacles fuel (items board) net_name overall_bbox
            RESOLUTION (Some ignored_zone_ids)) ;;
  progress progress_callback 55 "Applying boolean operations..." ;;;
  let valid_bitmap := valid_area zone_bitmap obstacle_bitmap in
  progress progress_callback 60 "Applying clearance..." ;;;
  valid_bitmap <~ lift (apply_clearance valid_bitmap CLEARANCE RESOLUTION) ;;
  progress progress_callback 65 "Generating via grid..." ;;;
  let start_x := vx (pos overall_bbox) in
  let start_y := vy (pos overall_bbox) in
  let end_x := start_x + vx (size overall_bbox) in
  let end_y := start_y + vy (size overall_bbox) in
  let gx := int_times grid_x SCALE in
  let gy := int_times grid_y SCALE in
  let gx := clamp_spacing gx in
  let gy := clamp_spacing gy in
  cols <~ lift (int_truediv (end_x - start_x) gx) ;;
  rows <~ lift (int_truediv (end_y - start_y) gy) ;;
  let total_cols := cols + 1 in
  let total_rows := rows + 1 in
  let total_points := total_cols * total_rows in
  sample_grid valid_bitmap overall_bbox target_net via_diameter via_drill
    end_x end_y gx gy stagger progress_callback total_points
    fuel fuel start_x 0 [] 0.

Definition stitch (fuel : nat) (board : Board) (net_name : string)
  (via_diameter via_drill grid_x grid_y : number) (stagger : bool)
  (ignored_zone_ids : option (list string)) (refill_after : bool)
  (progress_callback : bool) : M Z :=
  let ignored_zone_ids := match ignored_zone_ids with
                          | None => []
                          | Some ids => ids
                          end in
  match find (fun net => String.eqb (name net) net_name)
          (get_nets (items board)) with
  | None => retM 0
  | Some target_net =>
      let zones :=
        filter (fun z => on_net (Zone.net z) net_name && Zone.filled z)
          (get_zones (items board)) in
      progress progress_callback 10 "Found zones for net" ;;;
      match zones with
      | [] => retM 0
      | _ =>
          match overall_bounding_box zones with
          | None => retM 0
          | Some overall_bbox =>
              vias_to_add <~
                candidates fuel board net_name target_net zones overall_bbox
                  via_diameter via_drill grid_x grid_y stagger
                  ignored_zone_ids progress_callback ;;
              commit board refill_after progress_callback vias_to_add
          end
      end
  end.
End Stitch.

(** ** Vocabulary of the properties *)

(** Chebyshev distance between the cells [(y1, x1)] and [(y2, x2)]. *)
Definition chebyshev (y1 x1 y2 x2 : Z) : Z :=
  Z.max (Z.abs (y1 - y2)) (Z.abs (x1 - x2)).

(** The values that a dtype holds. *)
Definition representable (d : dtype) (v : Z) : Prop :=
  match d with
  | uint8 => 0 <= v < 256
  | int32 => -2147483648 <= v < 2147483648
  end.

(** Two arrays of one dtype and one shape. *)
Definition same_shape (a b : ndarray) : Prop :=
  dt b = dt a /\ height b = height a /\ width b = width a.

(** A zone that [get_candidate_nets] can count: it has a net with a name. *)
Definition has_named_net (zone : Zone.t) : bool :=
  match Zone.net zone with
  | Some net => negb (String.eqb (name net) "")
  | None => false
  end.

Definition with_zones (board : Items) (zones : list Zone.t) : Items :=
  {| get_pads := get_pads board;
     get_vias := get_vias board;
     get_tracks := get_tracks board;
     get_zones := zones;
     get_nets := get_nets board |}.

(** A name with an entry in [nets_with_zones] is the non-empty name of the
    net of a filled zone seen so far. *)
Definition named_by (zones : list Zone.t) (n : string) : Prop :=
  exists zone net,
    In zone zones /\ Zone.filled zone = true
    /\ Zone.net zone = Some net /\ name net = n /\ n <> ""%string.

(** The selection step was attempted: the log holds a call to
    [clear_selection] or to [add_to_selection]. *)
Definition is_selection (c : call) : bool :=
  match c with
  | clear_selection | add_to_selection _ => true
  | _ => false
  end.

Definition selection_attempted (trace : list event) : Prop :=
  exists c, In (Call c) trace /\ is_selection c = true.

(** A computation that issues no call to the board collaborator. *)
Definition no_new_calls {A} (m : M A) : Prop :=
  forall log log' r, m log = (log', r) ->
    forall c, In (Call c) log' -> In (Call c) log.

(** The commit proper: the three calls of the transaction. *)
Definition commit_step (board : Board) (vias_to_add : list Via.t) : M unit :=
  board_call board begin_commit ;;;
  board_call board (create_items vias_to_add) ;;;
  board_call board push_commit.

(** The zones of the net [net_name] that [stitch] works on. *)
Definition target_zones (board : Board) (net_name : string) : list Zone.t :=
  filter (fun z => on_net (Zone.net z) net_name && Zone.filled z)
    (get_zones (items board)).

Definition target_net_of (board : Board) (net_name : string) : option Net :=
  find (fun net => String.eqb (name net) net_name) (get_nets (items board)).

(** *** The scanline fill in the words of the specification *)

(** The edges of the implicitly closed ring: each vertex with its
    successor, the last with the first. *)
Definition spec_edges (points : list (Z * Z)) : list ((Z * Z) * (Z * Z)) :=
  combine points (tl points ++ firstn 1 points).

(** An edge from [(x1, y1)] to [(x2, y2)] crosses the row [y] iff
    [y >= min(y1, y2)] and [y < max(y1, y2)]. *)
Definition spec_crosses (y : Z) (e : (Z * Z) * (Z * Z)) : bool :=
  let '((_, y1), (_, y2)) := e in
  (Z.min y1 y2 <=? y) && (y <? Z.max y1 y2).

(** The x-intersection by linear interpolation,
    [x1 + (y - y1) * (x2 - x1) / (y2 - y1)], as an integer pixel column. *)
Definition spec_interpolate (y : Z) (e : (Z * Z) * (Z * Z)) : Z :=
  let '((x1, y1), (x2, y2)) := e in
  Z.quot (x1 * (y2 - y1) + (y - y1) * (x2 - x1)) (y2 - y1).

Definition spec_intersections (points : list (Z * Z)) (y : Z) : list Z :=
  map (spec_interpolate y) (filter (spec_crosses y) (spec_edges points)).

(** The number of pairs (even index, next odd index) of [xs] whose inclusive
    span holds the column [x]. *)
Definition spec_span_count (xs : list Z) (x : Z) : Z :=
  Z.of_nat
    (length
       (filter
          (fun k => (nth (2 * k) xs 0 <=? x) && (x <=? nth (2 * k + 1) xs 0))
          (seq 0 (length xs / 2)))).

(** The same count along the recursion of [fill_spans]. *)
Fixpoint span_count (xs : list Z) (x : Z) : Z :=
  match xs with
  | a :: b :: rest =>
      (if (a <=? x) && (x <=? b) then 1 else 0) + span_count rest x
  | _ => 0
  end.

(** How often the fill of the polygon with pixel vertices [points] adds its
    value to the cell [(y, x)]. *)
Definition fill_count (points : list (Z * Z)) (y x : Z) : Z :=
  span_count (sort (spec_intersections points y)) x.

(** A cell after [count] additions of [value]. *)
Definition added (d : dtype) (old value count : Z) : Z :=
  if count =? 0 then old else wrap d (old + value * count).

(** *** The zone fills of the obstacle bitmap *)

(** The outlines that the obstacle compositor fills, in the order of its
    loops over zones, layers and polygons. *)
Definition poly_outlines (poly_list : list PolygonWithHoles)
  : list (list PolyLineNode) :=
  flat_map (fun poly => match outline poly with
                        | Some nodes => [nodes]
                        | None => []
                        end) poly_list.

Definition zone_outlines (net_name : string) (ignored_zone_ids : list string)
  (zone : Zone.t) : list (list PolyLineNode) :=
  if on_net (Zone.net zone) net_name then []
  else if negb (Zone.filled zone) then []
  else if mem_string (zone_id_key zone) ignored_zone_ids then []
  else match Zone.filled_polygons zone with
       | None => []
       | Some polys_dict => flat_map (fun item => poly_outlines (snd item)) polys_dict
       end.

Definition obstacle_outlines (net_name : string)
  (ignored_zone_ids : list string) (zones : list Zone.t)
  : list (list PolyLineNode) :=
  flat_map (zone_outlines net_name ignored_zone_ids) zones.

Definition pixel_of (bbox : Box2) (resolution : Z) (node : PolyLineNode)
  : Z * Z :=
  (Z.quot (vx (point node) - vx (pos bbox)) resolution,
   Z.quot (vy (point node) - vy (pos bbox)) resolution).

(** How often the fills of the outlines add 1 to the cell [(y, x)]. *)
Definition outline_count (bbox : Box2) (resolution : Z)
  (nodes : list PolyLineNode) (y x : Z) : Z :=
  if (length nodes <? 3)%nat then 0
  else fill_count (map (pixel_of bbox resolution) nodes) y x.

Definition outlines_count (bbox : Box2) (resolution : Z)
  (outlines : list (list PolyLineNode)) (y x : Z) : Z :=
  fold_right (fun nodes acc => outline_count bbox resolution nodes y x + acc)
    0 outlines.

(** No cell of the obstacle bitmap receives 255 zone fills or more, so that
    the uint8 cell (which may already hold a 1) does not wrap around. *)
Definition obstacle_counts_fit (board : Items) (net_name : string)
  (ignored_zone_ids : list string) (bbox : Box2) : bool :=
  let w := Z.quot (vx (size bbox)) RESOLUTION + 1 in
  let h := Z.quot (vy (size bbox)) RESOLUTION + 1 in
  forallb
    (fun y =>
       forallb
         (fun x =>
            outlines_count bbox RESOLUTION
              (obstacle_outlines net_name ignored_zone_ids (get_zones board))
              y x <? 255)
         (range w))
    (range h).

Definition no_obstacle_overflow (board : Board) (net_name : string)
  (ignored_zone_ids : list string) : bool :=
  match overall_bounding_box (target_zones board net_name) with
  | Some bbox => obstacle_counts_fit (items board) net_name ignored_zone_ids bbox
  | None => true
  end.

(** The board without the zones of identifier [zone_id]. *)
Definition without_zone (zone_id : string) (board : Items) : Items :=
  with_zones board
    (filter (fun z => negb (String.eqb (zone_id_key z) zone_id))
       (get_zones board)).

(** The obstacle bitmap before the zones are added: pads, vias, tracks. *)
Definition obstacle_base (fuel : nat) (board : Items) (net_name : string)
  (bbox : Box2) (resolution : Z) : res ndarray :=
  w <- int_truediv (vx (size bbox)) resolution ;;
  h <- int_truediv (vy (size bbox)) resolution ;;
  let width := w + 1 in
  let height := h + 1 in
  bitmap <- np_zeros uint8 height width ;;
  bitmap <- for_each (stamp_pad net_name bbox resolution) (get_pads board) bitmap ;;
  bitmap <- for_each (stamp_via net_name bbox resolution) (get_vias board) bitmap ;;
  for_each (stamp_track fuel net_name bbox resolution) (get_tracks board) bitmap.

(** A bitmap whose cells are 0 or 1. *)
Definition binary (a : ndarray) : Prop :=
  forall y x, get a y x = 0 \/ get a y x = 1.

(** Two validity bitmaps of one shape, [b] valid wherever [a] is. *)
Definition covers (a b : ndarray) : Prop :=
  same_shape a b /\ binary a /\ binary b
  /\ forall y x, get a y x = 1 -> get b y x = 1.

(** The log after a progress report. *)
Definition after_progress (progress_callback : bool) (percent : Q)
  (status : string) (log : list event) : list event :=
  fst (progress progress_callback percent status log).

(** ** Concrete inputs of the examples *)

Definition ones5 : ndarray := tabulate uint8 5 5 (fun _ _ => 1).

(** A 7 x 7 bitmap, valid everywhere but at its centre. *)
Definition ring7 : ndarray :=
  tabulate uint8 7 7 (fun y x => if (y =? 3) && (x =? 3) then 0 else 1).

Definition zeros21 : ndarray := tabulate uint8 21 21 (fun _ _ => 0).

Definition box (a : Z) : Box2 :=
  {| pos := {| vx := 0; vy := 0 |}; size := {| vx := a; vy := a |} |}.

Definition node (x y : Z) : PolyLineNode := {| point := {| vx := x; vy := y |} |}.

Definition square (a : Z) : list PolyLineNode :=
  [node 0 0; node a 0; node a a; node 0 a].

Definition square_poly (a : Z) : PolygonWithHoles :=
  {| outline := Some (square a); holes := None |}.

Definition GND : Net := {| name := "GND" |}.
Definition VCC : Net := {| name := "VCC" |}.

(** A 2 mm square of GND copper on the layers 0 and 2. *)
Definition gnd_zone : Zone.t :=
  {| Zone.net := Some GND; Zone.filled := true; Zone.id := WithValue "g";
     Zone.layers := [0; 2];
     Zone.filled_polygons :=
       Some [(0, [square_poly 2000000]); (2, [square_poly 2000000])];
     Zone.bounding_box := box 2000000 |}.

Definition gnd_items : Items :=
  {| get_pads := []; get_vias := []; get_tracks := [];
     get_zones := [gnd_zone]; get_nets := [GND; VCC] |}.

(** A board that accepts every call, and one that rejects [create_items]. *)
Definition gnd_board : Board :=
  {| items := gnd_items; raises := fun _ _ => None |}.

Definition rejecting_board : Board :=
  {| items := gnd_items;
     raises := fun _ c => match c with
                          | create_items _ => Some "rejected"%string
                          | _ => None
                          end |}.

(** Whole millimetres as user-facing numbers: [int(v * k)] is [v * k]. *)
Definition int_times_Z (v k : Z) : Z := v * k.

(** A 0.6 mm x 0.4 mm pad on another net, in the middle of the 2 mm box. *)
Definition small_pad : Pad.t :=
  {| Pad.net := Some VCC;
     Pad.position := {| vx := 1000000; vy := 1000000 |};
     Pad.padstack_copper_layers := Some [Some {| vx := 600000; vy := 400000 |}] |}.

(** A 1.3 mm square of GND copper on the layers 0 and 2, and zones of VCC
    copper made of copies of one 0.5 mm patch around the grid point
    (1 mm, 1 mm). *)
Definition small_gnd_zone : Zone.t :=
  {| Zone.net := Some GND; Zone.filled := true; Zone.id := WithValue "g";
     Zone.layers := [0; 2];
     Zone.filled_polygons :=
       Some [(0, [square_poly 1300000]); (2, [square_poly 1300000])];
     Zone.bounding_box := box 1300000 |}.

Definition patch : PolygonWithHoles :=
  {| outline := Some [node 800000 800000; node 1300000 800000;
                      node 1300000 1300000; node 800000 1300000];
     holes := None |}.

Definition vcc_zone (zone_id : string) (copies : nat) : Zone.t :=
  {| Zone.net := Some VCC; Zone.filled := true; Zone.id := WithValue zone_id;
     Zone.layers := [0];
     Zone.filled_polygons := Some [(0, repeat patch copies)];
     Zone.bounding_box := box 1300000 |}.

Definition board_of (zones : list Zone.t) : Board :=
  {| items := {| get_pads := []; get_vias := []; get_tracks := [];
                 get_zones := zones; get_nets := [GND; VCC] |};
     raises := fun _ _ => None |}.

(** One VCC zone over the grid point; and the same zone on top of a zone
    that stacks 255 fills of the patch. *)
Definition blocked_board : Board := board_of [small_gnd_zone; vcc_zone "b" 1].

Definition stacked_board : Board :=
  board_of [small_gnd_zone; vcc_zone "a" 255; vcc_zone "b" 1].

(** ** Zones of other nets: [ViaStitcher.get_other_zones] *)

(** An entry [{'id': ..., 'net': ..., 'layers': ...}] of the result. *)
Record OtherZone : Type :=
  { oz_id : string; oz_net : string; oz_layers : list Z }.

(** [zone.net.name if zone.net else "No Net"] *)
Definition zone_net_name (zone : Zone.t) : string :=
  match Zone.net zone with
  | Some net => name net
  | None => "No Net"
  end.

(** One iteration of the loop over [self.board.get_zones()]. *)
Definition list_other_zone (target_net_name : string)
  (other_zones : list OtherZone) (zone : Zone.t) : list OtherZone :=
  let net_name := zone_net_name zone in
  if String.eqb net_name target_net_name then other_zones
  else if negb (Zone.filled zone) then other_zones
  else other_zones ++ [ {| oz_id := zone_id_key zone;
                           oz_net := net_name;
                           oz_layers := Zone.layers zone |} ].

Definition get_other_zones (board : Items) (target_net_name : string)
  : list OtherZone :=
  fold_left (list_other_zone target_net_name) (get_zones board) [].

(** ** The socket path: [get_socket_path] of [ipc_entry.py] *)

Definition startswith (s prefix : string) : bool := String.prefix prefix s.

(** The part of [get_socket_path] after the fallback: the protocol prefix. *)
Definition with_protocol (platform socket_path : string) : string :=
  if startswith socket_path "ipc://" then socket_path
  else if String.eqb platform "win32" && startswith socket_path "\\.\pipe\"
  then socket_path
  else ("ipc://" ++ socket_path)%string.

(** [environ] is [os.environ.get("KICAD_API_SOCKET")] and [fallback] is
    [os.path.join(tempfile.gettempdir(), 'kicad', 'api.sock')]. *)
Definition get_socket_path (environ : option string) (fallback platform : string)
  : string :=
  let socket_path := match environ with
                     | None => fallback
                     | Some s => if String.eqb s "" then fallback else s
                     end in
  with_protocol platform socket_path.

(** ** Vocabulary of the further properties *)

(** The calls to the board collaborator in a log, in order. *)
Definition calls_of (log : list event) : list call :=
  flat_map (fun e => match e with Call c => [c] | _ => [] end) log.

(** The layer ids that the filled zones of the net named [n] lie on. *)
Definition net_layers (zones : list Zone.t) (n : string) : list Z :=
  flat_map Zone.layers
    (filter (fun z => Zone.filled z
                      && match Zone.net z with
                         | Some net => String.eqb (name net) n
                         | None => false
                         end) zones).

(** The layer ids under which the zones hold fill polygons. *)
Definition fill_layer_ids (zones : list Zone.t) : list Z :=
  flat_map
    (fun zone =>
       match Zone.filled_polygons zone with
       | None => []
       | Some polys_dict =>
           map fst (filter (fun item => match snd item with
                                        | [] => false
                                        | _ => true
                                        end) polys_dict)
       end) zones.

(** The board items that are not on the net [net_name]. *)
Definition foreign_items (board : Items) (net_name : string) : Items :=
  {| get_pads := filter (fun p => negb (on_net (Pad.net p) net_name)) (get_pads board);
     get_vias := filter (fun v => negb (on_net (Via.net v) net_name)) (get_vias board);
     get_tracks :=
       filter (fun t => negb (on_net (Track.net t) net_name)) (get_tracks board);
     get_zones :=
       filter (fun z => negb (on_net (Zone.net z) net_name)) (get_zones board);
     get_nets := get_nets board |}.

(** The pixel of a board position in the bitmaps of [stitch]. *)
Definition pixel_x (bbox : Box2) (p : Vector2) : Z :=
  Z.quot (vx p - vx (pos bbox)) RESOLUTION.

Definition pixel_y (bbox : Box2) (p : Vector2) : Z :=
  Z.quot (vy p - vy (pos bbox)) RESOLUTION.

(** [b] holds a 1 wherever [a] does. *)
Definition keeps_ones (a b : ndarray) : Prop :=
  forall y x, get a y x = 1 -> get b y x = 1.

(** A VCC via and a VCC track on the 2 mm board of the examples. *)
Definition vcc_via : Via.t :=
  {| Via.position := {| vx := 500000; vy := 700000 |};
     Via.net := Some VCC; Via.diameter := 600000; Via.drill_diameter := 300000 |}.

Definition vcc_track : Track.t :=
  {| Track.net := Some VCC;
     Track.start := {| vx := 200000; vy := 300000 |};
     Track.end_ := {| vx := 1500000; vy := 900000 |};
     Track.width := 250000 |}.

Definition busy_items : Items :=
  {| get_pads := [small_pad]; get_vias := [vcc_via]; get_tracks := [vcc_track];
     get_zones := [gnd_zone; vcc_zone "b" 1]; get_nets := [GND; VCC] |}.

(** A GND zone with copper on one layer only. *)
Definition one_layer_zone : Zone.t :=
  {| Zone.net := Some GND; Zone.filled := true; Zone.id := WithValue "s";
     Zone.layers := [0];
     Zone.filled_polygons := Some [(0, [square_poly 2000000])];
     Zone.bounding_box := box 2000000 |}.

(** A filled zone of the net named [k]. *)
Definition zone_of_net (k : string) (z : Zone.t) : bool :=
  Zone.filled z
  && match Zone.net z with
     | Some net => String.eqb (name net) k
     | None => false
     end.

(** What [nets_with_zones] holds after the zones [seen]: an entry for each
    non-empty net name of a filled zone, with the set of its layer ids. *)
Definition nets_invariant (seen : list Zone.t) (d : list (string * list Z))
  : Prop :=
  NoDup (map fst d)
  /\ forall k,
       match nets_get d k with
       | Some v =>
           k <> ""%string /\ existsb (zone_of_net k) seen = true /\ NoDup v
           /\ (forall l, In l v <-> In l (net_layers seen k))
       | None => k = ""%string \/ existsb (zone_of_net k) seen = false
       end.

(** The cell [(y, x)] holds a 1 when it lies inside the bitmap. *)
Definition lit (a : ndarray) (y x : Z) : Prop :=
  in_bounds a y x = true -> get a y x = 1.

(** The obstacle bitmap is nonzero at the pixel of the board position [p]
    when that pixel lies inside it. *)
Definition blocked_at (ob : ndarray) (bbox : Box2) (p : Vector2) : Prop :=
  in_bounds ob (pixel_y bbox p) (pixel_x bbox p) = true ->
  get ob (pixel_y bbox p) (pixel_x bbox p) <> 0.

(** The temporary bitmap of a hole: its fill alone, on a zero bitmap of the
    shape given. *)
Definition hole_mask (bbox : Box2) (resolution height width : Z)
  (hole_nodes : list PolyLineNode) : res ndarray :=
  temp <- np_zeros uint8 height width ;;
  rasterize_polygon temp hole_nodes bbox resolution 1.

(** A polygon with a 0.6 mm square hole in its 2 mm square outline. *)
Definition holed_poly : PolygonWithHoles :=
  {| outline := Some (square 2000000);
     holes := Some [Some [node 700000 700000; node 1300000 700000;
                          node 1300000 1300000; node 700000 1300000]] |}.

(** ** The dialog: [ViaStitcherDialog] of [ui.py] *)

(** What the dialog does to its widgets and to the screen; the events of the
    stitcher pass through. *)
Inductive ui_event : Type :=
| MessageBox (message caption : string)
| OkEnabled (enabled : bool)
| ProgressValue (value : Z)
| StatusLabel (label : string)
| SafeYield
| EndModal
| Traceback
| Stitcher (e : event).

Module Dialog.
(** The state of the widgets that the handlers read: the selected net, the
    text fields, the check boxes, the rows of the check list (label and check
    mark) and the zone ids kept beside them. *)
Record t : Type :=
  { net_choice : string;
    via_dia : string;
    via_drill : string;
    grid_x : string;
    grid_y : string;
    offset_x : string;
    offset_y : string;
    chk_stagger : bool;
    chk_refill_after : bool;
    zone_list : list (string * bool);
    zone_ids : list string }.
End Dialog.

(** [f"Net: {z['net']} (Layers: {layers_str})"] *)
Definition zone_label (z : OtherZone) : string :=
  let layers_str := String.concat ", " (map str_of_int (oz_layers z)) in
  ("Net: " ++ oz_net z ++ " (Layers: " ++ layers_str ++ ")")%string.

(** [update_zone_list]: the list is cleared and gets one unchecked row per
    zone of another net, the ids are kept in the same order. *)
Definition update_zone_list (board : Items) (d : Dialog.t) : Dialog.t :=
  let target_net := Dialog.net_choice d in
  let other_zones := get_other_zones board target_net in
  {| Dialog.net_choice := Dialog.net_choice d;
     Dialog.via_dia := Dialog.via_dia d;
     Dialog.via_drill := Dialog.via_drill d;
     Dialog.grid_x := Dialog.grid_x d;
     Dialog.grid_y := Dialog.grid_y d;
     Dialog.offset_x := Dialog.offset_x d;
     Dialog.offset_y := Dialog.offset_y d;
     Dialog.chk_stagger := Dialog.chk_stagger d;
     Dialog.chk_refill_after := Dialog.chk_refill_after d;
     Dialog.zone_list := map (fun z => (zone_label z, false)) other_zones;
     Dialog.zone_ids := map oz_id other_zones |}.

(** [int(percent)] *)
Definition int_of_Q (q : Q) : Z := Z.quot (Qnum q) (Zpos (Qden q)).

Definition update_progress (percent : Q) (status : string) : list ui_event :=
  [ProgressValue (int_of_Q percent); StatusLabel status; SafeYield].

(** The stitcher's events as the dialog shows them: the progress callback is
    [update_progress]. *)
Definition shown (e : event) : list ui_event :=
  match e with
  | Progress percent status => update_progress percent status
  | _ => [Stitcher e]
  end.

(** [for i in range(self.zone_list.GetCount()): if self.zone_list.IsChecked(i):
    ignored_ids.append(self.zone_ids[i])], from the row [i] on. *)
Fixpoint collect_ignored (i : nat) (rows : list (string * bool))
  (zone_ids ignored_ids : list string) : res (list string) :=
  match rows with
  | [] => ret ignored_ids
  | (_, checked) :: rest =>
      if checked then
        match nth_error zone_ids i with
        | Some zone_id =>
            collect_ignored (S i) rest zone_ids (ignored_ids ++ [zone_id])
        | None => Raise IndexError
        end
      else collect_ignored (S i) rest zone_ids ignored_ids
  end.

(** *** Binding the arguments of a call *)

(** The [TypeError]s of Python's argument binding. *)
Inductive binding_error : Type :=
| UnexpectedKeyword (k : string)
| MultipleValues (k : string)
| TooManyPositional
| MissingArguments (names : list string).

(** The keyword arguments are bound in the order of the call: a keyword that
    names no parameter is an error, and so is one whose parameter is bound. *)
Fixpoint bind_keywords (parameters bound keywords : list string)
  : binding_error + list string :=
  match keywords with
  | [] => inr bound
  | k :: rest =>
      if negb (mem_string k parameters) then inl (UnexpectedKeyword k)
      else if mem_string k bound then inl (MultipleValues k)
      else bind_keywords parameters (k :: bound) rest
  end.

(** Python's binding of a call with [positional] positional arguments and
    the keyword arguments [keywords] to a signature without [*args] and
    [**kwargs]; a parameter is paired with whether it has a default. *)
Definition bind_arguments (parameters : list (string * bool))
  (positional : nat) (keywords : list string) : option binding_error :=
  let names := map fst parameters in
  match bind_keywords names (firstn positional names) keywords with
  | inl err => Some err
  | inr bound =>
      if (length names <? positional)%nat then Some TooManyPositional
      else
        match filter (fun p => negb (snd p) && negb (mem_string (fst p) bound))
                parameters with
        | [] => None
        | missing => Some (MissingArguments (map fst missing))
        end
  end.

(** The parameters of [ViaStitcher.stitch] after [self]. *)
Definition stitch_parameters : list (string * bool) :=
  [("net_name", false); ("via_diameter", false); ("via_drill", false);
   ("grid_x", false); ("grid_y", false); ("stagger", false);
   ("ignored_zone_ids", true); ("refill_after", true);
   ("progress_callback", true)]%string.

(** The keyword arguments of the call in [on_stitch], which passes
    [net_name] by position. *)
Definition on_stitch_keywords : list string :=
  ["via_diameter"; "via_drill"; "grid_x"; "grid_y"; "offset_x"; "offset_y";
   "stagger"; "ignored_zone_ids"; "refill_after"; "progress_callback"]%string.

Section OnStitch.
Variables (number : Type) (int_times : number -> Z -> Z).
(** [float(text)], [None] for a [ValueError]; [v <= 0]; and the message of
    a [TypeError] of the argument binding, which the interpreter words. *)
Variable float : string -> option number.
Variable leq0 : number -> bool.
Variable describe : binding_error -> string.

(** [self.stitcher.stitch(net_name, via_diameter=dia, ..., offset_x=off_x,
    offset_y=off_y, ..., progress_callback=self.update_progress)] *)
Definition call_stitch (fuel : nat) (board : Board) (net_name : string)
  (dia drill gx gy : number) (stagger : bool) (ignored_ids : list string)
  (refill_after : bool) : list event * res Z :=
  match bind_arguments stitch_parameters 1 on_stitch_keywords with
  | Some err => ([], Raise (Exception (describe err)))
  | None =>
      stitch number int_times fuel board net_name dia drill gx gy stagger
        (Some ignored_ids) refill_after true []
  end.

(** The handler of the button: the events it causes, and how it ends. *)
Definition on_stitch (fuel : nat) (board : Board) (d : Dialog.t)
  : list ui_event * res unit :=
  let net_name := Dialog.net_choice d in
  match float (Dialog.via_dia d), float (Dialog.via_drill d),
        float (Dialog.grid_x d), float (Dialog.grid_y d),
        float (Dialog.offset_x d), float (Dialog.offset_y d) with
  | Some dia, Some drill, Some gx, Some gy, Some off_x, Some off_y =>
      let stagger := Dialog.chk_stagger d in
      let refill_after := Dialog.chk_refill_after d in
      if leq0 gx || leq0 gy
      then ([MessageBox "Grid spacing must be positive." "Error"], Ok tt)
      else
        let started :=
          [OkEnabled false; ProgressValue 0; StatusLabel "Starting..."] in
        match collect_ignored 0 (Dialog.zone_list d) (Dialog.zone_ids d) [] with
        | Ok ignored_ids =>
            let '(log, r) := call_stitch fuel board net_name dia drill gx gy
                               stagger ignored_ids refill_after in
            let during := started ++ flat_map shown log in
            match r with
            | Ok count =>
                (during
                 ++ [ProgressValue 100;
                     StatusLabel ("Complete - " ++ str_of_int count
                                  ++ " vias placed");
                     MessageBox ("Successfully placed " ++ str_of_int count
                                 ++ " stitching vias.") "Result";
                     EndModal;
                     OkEnabled true],
                 Ok tt)
            | Raise e =>
                (during
                 ++ [ProgressValue 0;
                     StatusLabel "Error occurred";
                     MessageBox ("Error during stitching: " ++ str_of_exn e)
                       "Error";
                     Traceback;
                     OkEnabled true],
                 Ok tt)
            | Diverge => (during, Diverge)
            end
        | Raise e => (started, Raise e)
        | Diverge => (started, Diverge)
        end
  | _, _, _, _, _, _ =>
      ([MessageBox "Invalid input values. Please check numbers." "Error"],
       Ok tt)
  end.
End OnStitch.

(** A dialog with the default texts of its fields, on the net GND. *)
Definition default_dialog : Dialog.t :=
  {| Dialog.net_choice := "GND";
     Dialog.via_dia := "0.6"; Dialog.via_drill := "0.3";
     Dialog.grid_x := "2.5"; Dialog.grid_y := "2.5";
     Dialog.offset_x := "0.0"; Dialog.offset_y := "0.0";
     Dialog.chk_stagger := false; Dialog.chk_refill_after := true;
     Dialog.zone_list := []; Dialog.zone_ids := [] |}.

(** The order of the grid walk: [p] lies in a column to the left of [q], or
    above it in the same column. *)
Definition column_major (p q : Vector2) : Prop :=
  vx p < vx q \/ (vx p = vx q /\ vy p < vy q).

(** A computation that ended without a division by zero: it returned, or
    raised another exception. *)
Definition settled {A} (r : res A) : Prop :=
  match r with
  | Ok _ => True
  | Raise ZeroDivisionError => False
  | Raise _ => True
  | Diverge => False
  end.

(** The steps of the line walk of a track: the pixel distances between its
    ends, along x plus along y. *)
Definition track_steps (bbox : Box2) (t : Track.t) : nat :=
  Z.to_nat
    (Z.abs (pixel_x bbox (Track.end_ t) - pixel_x bbox (Track.start t))
     + Z.abs (pixel_y bbox (Track.end_ t) - pixel_y bbox (Track.start t))).

(** * Properties *)

(** ** Arrays *)

Lemma In_range (n i : Z) : In i (range n) <-> 0 <= i < n.
Proof.
  unfold range. rewrite in_map_iff. split.
  - intros (k & <- & Hk). apply in_seq in Hk. lia.
  - intros H. exists (Z.to_nat i). split; [lia|]. apply in_seq. lia.
Qed.

Lemma nth_map_range {A} (f : Z -> A) (n i : Z) (d : A) :
  0 <= i < n -> nth (Z.to_nat i) (map f (range n)) d = f i.
Proof.
  intros H. unfold range. rewrite map_map.
  rewrite nth_indep with (d' := f (Z.of_nat 0)).
  - rewrite (map_nth (fun k => f (Z.of_nat k))), seq_nth by lia.
    f_equal. lia.
  - rewrite length_map, length_seq. lia.
Qed.

Lemma in_bounds_true (a : ndarray) (y x : Z) :
  in_bounds a y x = true <-> 0 <= y < height a /\ 0 <= x < width a.
Proof. unfold in_bounds. rewrite !andb_true_iff. lia. Qed.

Lemma in_bounds_false (a : ndarray) (y x : Z) :
  in_bounds a y x = false <-> ~ (0 <= y < height a /\ 0 <= x < width a).
Proof. rewrite <- in_bounds_true. destruct (in_bounds a y x); intuition congruence. Qed.

Lemma get_outside (a : ndarray) (y x : Z) :
  in_bounds a y x = false -> get a y x = 0.
Proof. unfold get. now intros ->. Qed.

Lemma get_tabulate (d : dtype) (h w : Z) (f : Z -> Z -> Z) (y x : Z) :
  0 <= y < h -> 0 <= x < w -> get (tabulate d h w f) y x = f y x.
Proof.
  intros Hy Hx. unfold get.
  assert (Hb : in_bounds (tabulate d h w f) y x = true)
    by (apply in_bounds_true; simpl; lia).
  rewrite Hb. simpl.
  rewrite (nth_map_range (fun y => map (fun x => f y x) (range w))) by lia.
  now rewrite (nth_map_range (fun x => f y x)) by lia.
Qed.

Lemma get_tabulate_cases (d : dtype) (h w : Z) (f : Z -> Z -> Z) (y x : Z) :
  get (tabulate d h w f) y x
  = if (0 <=? y) && (y <? h) && (0 <=? x) && (x <? w) then f y x else 0.
Proof.
  destruct ((0 <=? y) && (y <? h) && (0 <=? x) && (x <? w)) eqn:E.
  - rewrite !andb_true_iff in E. apply get_tabulate; lia.
  - apply get_outside. exact E.
Qed.

Lemma same_shape_refl (a : ndarray) : same_shape a a.
Proof. repeat split. Qed.

Lemma same_shape_trans (a b c : ndarray) :
  same_shape a b -> same_shape b c -> same_shape a c.
Proof. unfold same_shape. intuition congruence. Qed.

Lemma same_shape_in_bounds (a b : ndarray) (y x : Z) :
  same_shape a b -> in_bounds b y x = in_bounds a y x.
Proof. intros (_ & Hh & Hw). unfold in_bounds. now rewrite Hh, Hw. Qed.

Lemma In_window (k d : Z) : In d (window k) <-> - k <= d <= k.
Proof.
  unfold window. rewrite in_map_iff. split.
  - intros (i & <- & Hi). apply In_range in Hi. lia.
  - intros H. exists (d + k). split; [lia|]. apply In_range. lia.
Qed.

Lemma chebyshev_le (y x y' x' k : Z) :
  chebyshev y x y' x' <= k <-> (- k <= y' - y <= k /\ - k <= x' - x <= k).
Proof. unfold chebyshev. lia. Qed.

(** ** Pixel coordinates *)

Lemma int_truediv_ok (a b : Z) : b <> 0 -> int_truediv a b = Ok (Z.quot a b).
Proof. intros H. unfold int_truediv. now rewrite (proj2 (Z.eqb_neq b 0) H). Qed.

Lemma quot_floor (a b : Z) : 0 <= a -> 0 < b -> Z.quot a b = a / b.
Proof. intros. apply Z.quot_div_nonneg; lia. Qed.

Lemma node_to_pixel_ok (bbox : Box2) (resolution : Z) (node : PolyLineNode) :
  resolution <> 0 ->
  node_to_pixel bbox resolution node
  = Ok (Z.quot (vx (point node) - vx (pos bbox)) resolution,
        Z.quot (vy (point node) - vy (pos bbox)) resolution).
Proof.
  intros H. unfold node_to_pixel. now rewrite !int_truediv_ok by assumption.
Qed.

Lemma map_res_ok {A B} (f : A -> res B) (g : A -> B) (xs : list A) :
  (forall a, In a xs -> f a = Ok (g a)) -> map_res f xs = Ok (map g xs).
Proof.
  induction xs as [|a xs IH]; intros H; simpl; [reflexivity|].
  rewrite (H a) by now left. simpl.
  rewrite IH by (intros; apply H; now right). reflexivity.
Qed.

(** C7, amended: every vertex handed to the rasterizer, and every position
    handed to the obstacle compositor, is mapped to the pixel whose
    coordinates are the quotients [(v - bbox.origin) / resolution] truncated
    toward zero; on an axis where the vertex is not left of (above) the
    origin this is the floor of the quotient. *)
Theorem pixel_coordinate_truncates :
  forall (bbox : Box2) (resolution : Z) (nodes : list PolyLineNode),
    0 < resolution ->
    let px v := Z.quot (vx v - vx (pos bbox)) resolution in
    let py v := Z.quot (vy v - vy (pos bbox)) resolution in
    map_res (node_to_pixel bbox resolution) nodes
    = Ok (map (fun node => (px (point node), py (point node))) nodes)
    /\ (forall v, to_pixel bbox resolution v = Ok (px v, py v))
    /\ (forall v, vx (pos bbox) <= vx v ->
                  px v = (vx v - vx (pos bbox)) / resolution)
    /\ (forall v, vy (pos bbox) <= vy v ->
                  py v = (vy v - vy (pos bbox)) / resolution).
Proof.
  intros bbox resolution nodes Hres px py. repeat split.
  - apply map_res_ok. intros node _. apply node_to_pixel_ok. lia.
  - intros v. unfold to_pixel. now rewrite !int_truediv_ok by lia.
  - intros v Hv. apply quot_floor; lia.
  - intros v Hv. apply quot_floor; lia.
Qed.

Lemma pixel_coordinate_truncates_witness :
  map_res
    (node_to_pixel {| pos := {| vx := 0; vy := 0 |};
                      size := {| vx := 1000000; vy := 1000000 |} |} 100000)
    [ {| point := {| vx := 250000; vy := -50000 |} |} ]
  = Ok [(2, 0)].
Proof.
  exact (proj1 (pixel_coordinate_truncates
                  {| pos := {| vx := 0; vy := 0 |};
                     size := {| vx := 1000000; vy := 1000000 |} |}
                  100000
                  [ {| point := {| vx := 250000; vy := -50000 |} |} ]
                  ltac:(lia))).
Defined.

(** C7 as stated fails: a vertex half a pixel left of and above the origin
    is mapped to pixel (0, 0), while the floor of its quotient is -1. *)
Lemma pixel_coordinate_not_floor :
  node_to_pixel {| pos := {| vx := 0; vy := 0 |};
                   size := {| vx := 1000000; vy := 1000000 |} |} 100000
    {| point := {| vx := -50000; vy := -50000 |} |}
  = Ok (0, 0)
  /\ (-50000 - 0) / 100000 = -1.
Proof. split; reflexivity. Qed.

(** ** Candidate nets *)

Lemma collect_zone_skips (d : list (string * list Z)) (zone : Zone.t) :
  has_named_net zone = false -> collect_zone d zone = d.
Proof.
  unfold has_named_net, collect_zone. intros H.
  destruct (Zone.filled zone); simpl; [|reflexivity].
  destruct (Zone.net zone) as [net|]; [|reflexivity].
  destruct (String.eqb (name net) ""); [reflexivity|discriminate].
Qed.

Lemma collect_zone_filter (zones : list Zone.t) (d : list (string * list Z)) :
  fold_left collect_zone (filter has_named_net zones) d
  = fold_left collect_zone zones d.
Proof.
  revert d. induction zones as [|z zones IH]; intros d; simpl; [reflexivity|].
  destruct (has_named_net z) eqn:E; simpl.
  - apply IH.
  - now rewrite collect_zone_skips by assumption.
Qed.

Lemma nets_set_keys (d : list (string * list Z)) (k0 : string) (v0 : list Z)
  (k : string) :
  In k (map fst (nets_set d k0 v0)) -> k = k0 \/ In k (map fst d).
Proof.
  induction d as [|[k' v'] d IH]; simpl.
  - intros [H|[]]. now left.
  - destruct (String.eqb k' k0) eqn:E; simpl.
    + apply String.eqb_eq in E. subst k'. intros [H|H]; auto.
    + intros [H|H]; auto. destruct (IH H); auto.
Qed.

Lemma collect_zone_keys (zones : list Zone.t) (d : list (string * list Z))
  (n : string) :
  In n (map fst (fold_left collect_zone zones d)) ->
  In n (map fst d) \/ named_by zones n.
Proof.
  revert d. induction zones as [|z zones IH]; intros d; simpl; [now left|].
  intros H. apply IH in H. destruct H as [H|H].
  - unfold collect_zone in H.
    destruct (Zone.filled z) eqn:Ef; simpl in H; [|now left].
    destruct (Zone.net z) as [net|] eqn:En; [|now left].
    destruct (String.eqb (name net) "") eqn:Ee; [now left|].
    apply nets_set_keys in H. destruct H as [->|H]; [|now left].
    right. exists z, net. split; [now left|]. repeat split; auto.
    now apply String.eqb_neq.
  - right. destruct H as (zone & net & Hin & Hrest).
    exists zone, net. split; [now right|exact Hrest].
Qed.

Lemma In_insert_string (s a : string) (xs : list string) :
  In s (insert_string a xs) <-> s = a \/ In s xs.
Proof.
  induction xs as [|h t IH]; simpl.
  - intuition.
  - destruct (String.leb a h); simpl; rewrite ?IH; intuition.
Qed.

Lemma In_sorted (s : string) (xs : list string) : In s (sorted xs) <-> In s xs.
Proof.
  induction xs as [|h t IH]; simpl; [tauto|].
  rewrite In_insert_string, IH. intuition.
Qed.

Lemma candidate_named (board : Items) (n : string) :
  In n (get_candidate_nets board) -> named_by (get_zones board) n.
Proof.
  unfold get_candidate_nets. rewrite In_sorted, in_map_iff.
  intros ([k v] & Hk & Hin). simpl in Hk. subst k.
  apply filter_In in Hin. destruct Hin as [Hin _].
  assert (H : In n (map fst (fold_left collect_zone (get_zones board) [])))
    by (apply in_map_iff; now exists (n, v)).
  apply collect_zone_keys in H. destruct H as [[]|H]. exact H.
Qed.

(** C10: a filled zone without a net, or whose net has the empty name, does
    not contribute to [get_candidate_nets]: the result is that of the board
    with those zones taken away, it never holds the empty name, and every
    name it holds is the name of the net of some filled zone. *)
Theorem netless_zones_never_counted :
  forall board : Items,
    get_candidate_nets board
    = get_candidate_nets
        (with_zones board (filter has_named_net (get_zones board)))
    /\ ~ In ""%string (get_candidate_nets board)
    /\ (forall n, In n (get_candidate_nets board) ->
          exists zone net,
            In zone (get_zones board) /\ Zone.filled zone = true
            /\ Zone.net zone = Some net /\ name net = n).
Proof.
  intros board. repeat split.
  - unfold get_candidate_nets, with_zones. simpl.
    now rewrite collect_zone_filter.
  - intros H. apply candidate_named in H.
    destruct H as (_ & _ & _ & _ & _ & _ & Hne). now apply Hne.
  - intros n H. apply candidate_named in H.
    destruct H as (zone & net & H1 & H2 & H3 & H4 & _).
    exists zone, net. auto.
Qed.

(** ** Clearance erosion *)

Lemma binary_erosion_kept (bitmap : ndarray) (k y x : Z) :
  get (binary_erosion bitmap k) y x <> 0 ->
  get (binary_erosion bitmap k) y x = 1
  /\ in_bounds bitmap y x = true
  /\ (forall y' x', chebyshev y x y' x' <= k ->
        in_bounds bitmap y' x' = true /\ get bitmap y' x' <> 0).
Proof.
  unfold binary_erosion. rewrite get_tabulate_cases.
  destruct ((0 <=? y) && (y <? height bitmap) && (0 <=? x) && (x <? width bitmap))
    eqn:Eb; [|congruence].
  match goal with |- context [if ?c then 1 else 0] => destruct c eqn:Ew end;
    [|congruence].
  intros _. split; [reflexivity|]. split; [exact Eb|].
  intros y' x' Hd. apply chebyshev_le in Hd.
  rewrite forallb_forall in Ew.
  specialize (Ew (y' - y)). rewrite In_window in Ew.
  specialize (Ew ltac:(lia)). rewrite forallb_forall in Ew.
  specialize (Ew (x' - x)). rewrite In_window in Ew.
  specialize (Ew ltac:(lia)).
  replace (y + (y' - y)) with y' in Ew by lia.
  replace (x + (x' - x)) with x' in Ew by lia.
  apply andb_true_iff in Ew. destruct Ew as [E1 E2].
  split; [exact E1|]. apply negb_true_iff, Z.eqb_neq in E2. exact E2.
Qed.

Lemma binary_erosion_keeps (bitmap : ndarray) (k y x : Z) :
  in_bounds bitmap y x = true ->
  (forall y' x', chebyshev y x y' x' <= k ->
     in_bounds bitmap y' x' = true /\ get bitmap y' x' <> 0) ->
  get (binary_erosion bitmap k) y x = 1.
Proof.
  intros Hb H. unfold binary_erosion. rewrite get_tabulate_cases.
  unfold in_bounds in Hb. rewrite Hb.
  match goal with |- (if ?c then 1 else 0) = 1 => assert (E : c = true) end.
  { apply forallb_forall. intros dy Hdy. apply forallb_forall. intros dx Hdx.
    apply In_window in Hdy, Hdx.
    destruct (H (y + dy) (x + dx)) as [H1 H2].
    - apply chebyshev_le. lia.
    - rewrite H1. simpl. now apply negb_true_iff, Z.eqb_neq. }
  now rewrite E.
Qed.

(** C4, amended: erosion with [clearance_px < 1] returns its input; with
    [clearance_px = k >= 1] the output has the input's shape, is a subset of
    the input, and a pixel is retained exactly when every pixel within
    Chebyshev distance [k] of it lies inside the bitmap and is valid in the
    input -- so no retained pixel lies within distance [k] of a pixel that is
    invalid in the input or of the outside of the bitmap. *)
Theorem erosion_properties :
  forall (bitmap : ndarray) (clearance_nm resolution : Z),
    resolution <> 0 ->
    let k := Z.quot clearance_nm resolution in
    (k < 1 -> apply_clearance bitmap clearance_nm resolution = Ok bitmap)
    /\ (1 <= k ->
        exists eroded,
          apply_clearance bitmap clearance_nm resolution = Ok eroded
          /\ height eroded = height bitmap /\ width eroded = width bitmap
          /\ (forall y x, get eroded y x <> 0 -> get bitmap y x <> 0)
          /\ (forall y x, in_bounds bitmap y x = true ->
                (get eroded y x <> 0 <->
                 forall y' x', chebyshev y x y' x' <= k ->
                   in_bounds bitmap y' x' = true /\ get bitmap y' x' <> 0))).
Proof.
  intros bitmap clearance_nm resolution Hres k. unfold apply_clearance.
  rewrite int_truediv_ok by assumption. fold k. simpl. split.
  - intros Hk. now rewrite (proj2 (Z.ltb_lt k 1) Hk).
  - intros Hk. rewrite (proj2 (Z.ltb_ge k 1) Hk).
    exists (binary_erosion bitmap k).
    split; [reflexivity|]. split; [reflexivity|]. split; [reflexivity|]. split.
    + intros y x H. apply binary_erosion_kept in H.
      destruct H as (_ & _ & H). apply (H y x). apply chebyshev_le. lia.
    + intros y x Hb. split.
      * intros Hk0. apply binary_erosion_kept in Hk0.
        destruct Hk0 as (_ & _ & Hk0). exact Hk0.
      * intros Hall. rewrite (binary_erosion_keeps bitmap k y x); auto. lia.
Qed.

Lemma erosion_properties_witness :
  apply_clearance ones5 50000 100000 = Ok ones5
  /\ exists eroded,
       apply_clearance ones5 250000 100000 = Ok eroded
       /\ height eroded = height ones5 /\ width eroded = width ones5
       /\ (forall y x, get eroded y x <> 0 -> get ones5 y x <> 0)
       /\ (forall y x, in_bounds ones5 y x = true ->
             (get eroded y x <> 0 <->
              forall y' x', chebyshev y x y' x' <= 2 ->
                in_bounds ones5 y' x' = true /\ get ones5 y' x' <> 0)).
Proof.
  split.
  - apply (proj1 (erosion_properties ones5 50000 100000 ltac:(lia))).
    vm_compute. reflexivity.
  - apply (proj2 (erosion_properties ones5 250000 100000 ltac:(lia))).
    vm_compute. discriminate.
Defined.

(** C4 as stated fails: eroding the 7 x 7 bitmap with a hole at its centre
    by one pixel retains (1, 1) and removes (2, 2), which was valid in the
    input; the two are at Chebyshev distance 1. *)
Lemma erosion_retained_next_to_removed :
  apply_clearance ring7 100000 100000 = Ok (binary_erosion ring7 1)
  /\ get (binary_erosion ring7 1) 1 1 = 1
  /\ get ring7 2 2 = 1
  /\ get (binary_erosion ring7 1) 2 2 = 0
  /\ chebyshev 1 1 2 2 <= 1.
Proof. repeat split; vm_compute; congruence. Qed.

(** ** Pad obstacles *)

Lemma pad_radius_at_least_default (p : Pad.t) : 1000000 <= pad_radius_nm p.
Proof.
  unfold pad_radius_nm. destruct (Pad.padstack_copper_layers p) as [ls|]; [|lia].
  assert (H : forall r, 1000000 <= r ->
    1000000 <= fold_left
      (fun radius_nm layer =>
         match layer with
         | None => radius_nm
         | Some sz =>
             let curr_max := Z.max (vx sz) (vy sz) in
             if curr_max >? radius_nm then curr_max else radius_nm
         end) ls r).
  { induction ls as [|l ls IH]; intros r Hr; simpl; [exact Hr|].
    apply IH. destruct l as [sz|]; [|exact Hr].
    destruct (Z.max (vx sz) (vy sz) >? r) eqn:E; lia. }
  apply H. lia.
Qed.

(** C2 at a pad smaller than the default: the 0.6 mm x 0.4 mm pad has size
    data, half of its largest dimension is 0.3 mm (3 pixels), yet the circle
    stamped has the default radius of 0.5 mm (5 pixels); the cell 5 pixels
    right of the centre is an obstacle. *)
Theorem small_pad_gets_default_radius :
  pad_radius_nm small_pad = 1000000
  /\ int_truediv_half (Z.max 600000 400000) 100000 = Ok 3
  /\ (exists zeros,
        np_zeros uint8 21 21 = Ok zeros
        /\ stamp_pad "GND" (box 2000000) 100000 zeros small_pad
           = Ok (draw_circle zeros 10 10 5)
        /\ get (draw_circle zeros 10 10 5) 10 15 = 1
        /\ get (draw_circle zeros 10 10 3) 10 15 = 0).
Proof.
  split; [reflexivity|]. split; [reflexivity|].
  eexists. split; [reflexivity|]. repeat split; vm_compute; reflexivity.
Qed.

(** ** The orchestrator's effects *)

Lemma no_new_calls_retM {A} (a : A) : no_new_calls (retM a).
Proof. intros log log' r H. injection H as <- _. auto. Qed.

Lemma no_new_calls_lift {A} (m : res A) : no_new_calls (lift m).
Proof. intros log log' r H. injection H as <- _. auto. Qed.

Lemma no_new_calls_progress (cb : bool) (percent : Q) (status : string) :
  no_new_calls (progress cb percent status).
Proof.
  intros log log' r H. unfold progress in H. destruct cb.
  - injection H as <- _. intros c Hc. apply in_app_or in Hc.
    destruct Hc as [Hc|[Hc|[]]]; [exact Hc|discriminate].
  - injection H as <- _. auto.
Qed.

Lemma no_new_calls_bindM {A B} (m : M A) (k : A -> M B) :
  no_new_calls m -> (forall a, no_new_calls (k a)) -> no_new_calls (bindM m k).
Proof.
  intros Hm Hk log log' r H. unfold bindM in H.
  destruct (m log) as [log1 [a| |]] eqn:E.
  - intros c Hc. apply (Hm _ _ _ E). apply (Hk a _ _ _ H). exact Hc.
  - injection H as <- _. apply (Hm _ _ _ E).
  - injection H as <- _. apply (Hm _ _ _ E).
Qed.

Create HintDb effects.
#[local] Hint Resolve no_new_calls_retM no_new_calls_lift no_new_calls_progress
  : effects.

Lemma no_new_calls_sample_grid (number : Type) (int_times : number -> Z -> Z)
  (valid_bitmap : ndarray) (overall_bbox : Box2) (target_net : Net)
  (via_diameter via_drill : number) (end_x end_y gx gy : Z)
  (stagger cb : bool) (total_points : Z) (budget fuel : nat) :
  forall x row vias points_checked,
    no_new_calls
      (sample_grid number int_times valid_bitmap overall_bbox target_net
         via_diameter via_drill end_x end_y gx gy stagger cb total_points
         budget fuel x row vias points_checked).
Proof.
  induction fuel as [|fuel IH]; intros x row vias pc; simpl.
  - auto with effects.
  - destruct (x <=? end_x); [|auto with effects].
    apply no_new_calls_bindM; [auto with effects|].
    intros [vias' pc']. apply no_new_calls_bindM.
    + destruct (total_points >? 0); auto with effects.
    + intros _. apply IH.
Qed.

Lemma no_new_calls_candidates (number : Type) (int_times : number -> Z -> Z)
  (fuel : nat) (board : Board) (net_name : string) (target_net : Net)
  (zones : list Zone.t) (overall_bbox : Box2)
  (via_diameter via_drill grid_x grid_y : number) (stagger : bool)
  (ignored_zone_ids : list string) (cb : bool) :
  no_new_calls
    (candidates number int_times fuel board net_name target_net zones
       overall_bbox via_diameter via_drill grid_x grid_y stagger
       ignored_zone_ids cb).
Proof.
  unfold candidates.
  repeat (apply no_new_calls_bindM; [auto with effects|intros ?]).
  apply no_new_calls_sample_grid.
Qed.

Lemma stitch_returns_zero (number : Type) (int_times : number -> Z -> Z)
  (fuel : nat) (board : Board) (net_name : string)
  (via_diameter via_drill grid_x grid_y : number) (stagger : bool)
  (ignored_zone_ids : option (list string)) (refill_after cb : bool) :
  target_net_of board net_name = None \/ target_zones board net_name = [] ->
  exists trace,
    stitch number int_times fuel board net_name via_diameter via_drill grid_x
      grid_y stagger ignored_zone_ids refill_after cb []
    = (trace, Ok 0)
    /\ forall c, ~ In (Call c) trace.
Proof.
  intros H. unfold stitch, target_net_of, target_zones in *.
  destruct (find _ (get_nets (items board))) as [target|].
  - destruct H as [H|H]; [discriminate|]. rewrite H.
    destruct cb; simpl; eexists; (split; [reflexivity|]).
    + intros c [Hc|[]]. discriminate.
    + intros c [].
  - eexists. split; [reflexivity|]. intros c [].
Qed.

(** C8: for a net that does not exist, or that has no filled zone, [stitch]
    returns 0 and issues no call to the board collaborator: no commit, no
    creation, no selection, no zone refill. *)
Theorem stitch_lookup_failure :
  forall (number : Type) (int_times : number -> Z -> Z) (fuel : nat)
    (board : Board) (net_name : string)
    (via_diameter via_drill grid_x grid_y : number) (stagger : bool)
    (ignored_zone_ids : option (list string))
    (refill_after progress_callback : bool),
    target_net_of board net_name = None \/ target_zones board net_name = [] ->
    let run := stitch number int_times fuel board net_name via_diameter
                 via_drill grid_x grid_y stagger ignored_zone_ids refill_after
                 progress_callback [] in
    snd run = Ok 0 /\ forall c, ~ In (Call c) (fst run).
Proof.
  intros number int_times fuel board net_name vd vdr gx gy stagger ign rf cb H.
  destruct (stitch_returns_zero number int_times fuel board net_name vd vdr gx
              gy stagger ign rf cb H) as (trace & E & Hcalls).
  simpl. rewrite E. split; [reflexivity|exact Hcalls].
Qed.

Lemma stitch_lookup_failure_witness :
  snd (stitch Z int_times_Z 0 gnd_board "+3V3" 1 1 1 1 false None true true [])
  = Ok 0
  /\ forall c,
       ~ In (Call c)
           (fst (stitch Z int_times_Z 0 gnd_board "+3V3" 1 1 1 1 false None
                   true true [])).
Proof.
  apply (stitch_lookup_failure Z int_times_Z 0 gnd_board "+3V3" 1 1 1 1 false
           None true true).
  left. reflexivity.
Defined.

Lemma board_call_log (board : Board) (c : call) (log log' : list event)
  (r : res unit) :
  board_call board c log = (log', r) -> log' = log ++ [Call c].
Proof.
  unfold board_call. destruct (raises board log c); now intros [= <- _].
Qed.

Lemma commit_step_calls (board : Board) (vias : list Via.t)
  (log log' : list event) (r : res unit) :
  commit_step board vias log = (log', r) ->
  forall c, In (Call c) log' -> In (Call c) log \/ is_selection c = false.
Proof.
  unfold commit_step, bindM. intros H c Hc.
  destruct (board_call board begin_commit log) as [l1 r1] eqn:E1.
  apply board_call_log in E1. subst l1.
  assert (H1 : forall l, In (Call c) (l ++ [Call begin_commit]) ->
                 In (Call c) l \/ is_selection c = false).
  { intros l Hl. apply in_app_or in Hl.
    destruct Hl as [Hl|[[= <-]|[]]]; auto. }
  destruct r1; try (injection H as <- _; now apply H1).
  destruct (board_call board (create_items vias) (log ++ [Call begin_commit]))
    as [l2 r2] eqn:E2.
  apply board_call_log in E2. subst l2.
  assert (H2 : In (Call c) ((log ++ [Call begin_commit]) ++ [Call (create_items vias)]) ->
                 In (Call c) log \/ is_selection c = false).
  { intros Hl. apply in_app_or in Hl.
    destruct Hl as [Hl|[[= <-]|[]]]; auto. }
  destruct r2; try (injection H as <- _; now apply H2).
  apply board_call_log in H. subst log'.
  apply in_app_or in Hc. destruct Hc as [Hc|[[= <-]|[]]]; auto.
Qed.

Lemma commit_and_select_raises (board : Board) (cb : bool)
  (vias : list Via.t) (log log' : list event) (e : exn) :
  commit_step board vias log = (log', Raise e) ->
  commit_and_select board cb vias log = (log', Raise e).
Proof.
  unfold commit_step, commit_and_select, bindM.
  destruct (board_call board begin_commit log) as [l1 [[]| |]]; auto.
  destruct (board_call board (create_items vias) l1) as [l2 [[]| |]]; auto.
  destruct (board_call board push_commit l2) as [l3 [[]| |]]; auto.
  discriminate.
Qed.

Lemma progress_calls (cb : bool) (percent : Q) (status : string)
  (log : list event) (c : call) :
  In (Call c) (fst (progress cb percent status log)) -> In (Call c) log.
Proof.
  apply (no_new_calls_progress cb percent status log _
           (snd (progress cb percent status log))).
  now destruct (progress cb percent status log).
Qed.

Lemma progress_ok (cb : bool) (percent : Q) (status : string)
  (log : list event) :
  progress cb percent status log = (fst (progress cb percent status log), Ok tt).
Proof. unfold progress. now destruct cb. Qed.

Lemma stitch_found (number : Type) (int_times : number -> Z -> Z)
  (fuel : nat) (board : Board) (net_name : string)
  (via_diameter via_drill grid_x grid_y : number) (stagger : bool)
  (ignored_zone_ids : option (list string)) (refill_after cb : bool)
  (target_net : Net) (overall_bbox : Box2) :
  target_net_of board net_name = Some target_net ->
  overall_bounding_box (target_zones board net_name) = Some overall_bbox ->
  stitch number int_times fuel board net_name via_diameter via_drill grid_x
    grid_y stagger ignored_zone_ids refill_after cb
  = (progress cb 10 "Found zones for net" ;;;
     vias_to_add <~
       candidates number int_times fuel board net_name target_net
         (target_zones board net_name) overall_bbox via_diameter via_drill
         grid_x grid_y stagger
         (match ignored_zone_ids with None => [] | Some ids => ids end) cb ;;
     commit board refill_after cb vias_to_add).
Proof.
  unfold stitch, target_net_of, target_zones. intros -> Hbox.
  destruct (filter _ (get_zones (items board))) as [|z zs]; [discriminate|].
  now rewrite Hbox.
Qed.

(** C1, amended: when candidates were produced and the commit step raises,
    the failure is caught and printed, the selection step is skipped, the
    zone refill still runs when [refill_after] is set, and [stitch] returns
    the candidate count computed before the commit attempt (unless the
    refill itself raises). *)
Theorem commit_failure_is_caught :
  forall (number : Type) (int_times : number -> Z -> Z) (fuel : nat)
    (board : Board) (net_name : string)
    (via_diameter via_drill grid_x grid_y : number) (stagger : bool)
    (ignored_zone_ids : option (list string))
    (refill_after progress_callback : bool)
    (target_net : Net) (overall_bbox : Box2)
    (log1 log2 : list event) (vias_to_add : list Via.t) (e : exn),
    target_net_of board net_name = Some target_net ->
    overall_bounding_box (target_zones board net_name) = Some overall_bbox ->
    candidates number int_times fuel board net_name target_net
      (target_zones board net_name) overall_bbox via_diameter via_drill
      grid_x grid_y stagger
      (match ignored_zone_ids with None => [] | Some ids => ids end)
      progress_callback
      (fst (progress progress_callback 10 "Found zones for net" []))
    = (log1, Ok vias_to_add) ->
    vias_to_add <> [] ->
    commit_step board vias_to_add
      (fst (progress progress_callback 90
              ("Committing " ++ str_of_int (Z.of_nat (length vias_to_add))
                 ++ " vias...") log1))
    = (log2, Raise e) ->
    let run := stitch number int_times fuel board net_name via_diameter
                 via_drill grid_x grid_y stagger ignored_zone_ids refill_after
                 progress_callback [] in
    let log3 := log2 ++ [Print ("Error adding vias: " ++ str_of_exn e)] in
    let count := Z.of_nat (length vias_to_add) in
    ~ selection_attempted (fst run)
    /\ In (Print ("Error adding vias: " ++ str_of_exn e)) (fst run)
    /\ (refill_after = false -> run = (log3, Ok count))
    /\ (refill_after = true ->
        In (Call refill_zones) (fst run)
        /\ snd run
           = match raises board
                     (fst (progress progress_callback 99 "Refilling zones..." log3))
                     refill_zones with
             | Some msg => Raise (Exception msg)
             | None => Ok count
             end).
Proof.
  intros number int_times fuel board net_name vd vdr gx gy stagger ign rf cb
    target bbox log1 log2 vias e Hnet Hbox Hcand Hne Hcommit run log3 count.
  assert (Hlog2 : forall c, In (Call c) log2 -> is_selection c = false).
  { intros c Hc.
    destruct (commit_step_calls _ _ _ _ _ Hcommit c Hc) as [H|H]; [|exact H].
    exfalso. apply progress_calls in H.
    apply (no_new_calls_candidates _ _ _ _ _ _ _ _ _ _ _ _ _ _ _ _ _ _ Hcand) in H.
    apply progress_calls in H. destruct H. }
  assert (Hrun : run
    = if rf
      then (let r := board_call board refill_zones
                       (fst (progress cb 99 "Refilling zones..." log3)) in
            (fst r, match snd r with
                    | Ok _ => Ok count
                    | Raise x => Raise x
                    | Diverge => Diverge
                    end))
      else (log3, Ok count)).
  { subst run. rewrite (stitch_found _ _ _ _ _ _ _ _ _ _ _ _ _ _ _ Hnet Hbox).
    unfold bindM at 1. rewrite progress_ok.
    unfold bindM at 1. rewrite Hcand.
    unfold commit. unfold bindM at 1. rewrite progress_ok.
    destruct vias as [|v vias']; [congruence|].
    unfold bindM at 1. unfold try_except.
    rewrite (commit_and_select_raises _ _ _ _ _ _ Hcommit).
    unfold print. fold log3. unfold bindM. destruct rf.
    - rewrite progress_ok.
      destruct (board_call board refill_zones _) as [l [[]| |]]; reflexivity.
    - reflexivity. }
  clearbody run. subst run.
  assert (Hlog3 : forall c, In (Call c) log3 -> is_selection c = false).
  { intros c Hc. apply in_app_or in Hc.
    destruct Hc as [Hc|[Hc|[]]]; [now apply Hlog2|discriminate]. }
  assert (Hprint : In (Print ("Error adding vias: " ++ str_of_exn e)) log3).
  { apply in_or_app. right. now left. }
  destruct rf.
  - pose proof (board_call_log board refill_zones
                  (fst (progress cb 99 "Refilling zones..." log3))) as Hl.
    unfold board_call in *.
    destruct (raises board _ refill_zones) as [msg|]; simpl;
      (split; [|split; [|split; [discriminate|intros _; split; [|reflexivity]]]]).
    all: try (apply in_or_app; right; now left).
    all: try (apply in_or_app; left; unfold progress; destruct cb; simpl;
              [apply in_or_app; left|]; exact Hprint).
    all: intros (c & Hc & Hsel); apply in_app_or in Hc;
      destruct Hc as [Hc|[[= <-]|[]]]; [|discriminate];
      apply progress_calls in Hc; apply Hlog3 in Hc; congruence.
  - simpl. split; [|split; [exact Hprint|split; [reflexivity|discriminate]]].
    intros (c & Hc & Hsel). apply Hlog3 in Hc. congruence.
Qed.

Lemma commit_failure_is_caught_witness :
  ~ selection_attempted
      (fst (stitch Z int_times_Z 10 rejecting_board "GND" 1 1 1 1 false None
              true false []))
  /\ snd (stitch Z int_times_Z 10 rejecting_board "GND" 1 1 1 1 false None
            true false [])
     = Ok 1.
Proof.
  pose proof (commit_failure_is_caught Z int_times_Z 10 rejecting_board "GND"
                1 1 1 1 false None true false GND (box 2000000) []
                [Call begin_commit;
                 Call (create_items
                         [new_via Z int_times_Z GND 1 1 1000000 1000000])]
                [new_via Z int_times_Z GND 1 1 1000000 1000000]
                (Exception "rejected")
                eq_refl eq_refl) as H.
  specialize (H ltac:(vm_compute; reflexivity) ltac:(discriminate)
                ltac:(vm_compute; reflexivity)).
  destruct H as (Hsel & _ & _ & Hrefill).
  split; [exact Hsel|]. exact (proj2 (Hrefill eq_refl)).
Defined.

(** C1 as stated fails: on the board that rejects [create_items], [stitch]
    finds one candidate, the commit raises, the failure is printed, the zones
    are refilled and 1 is returned, but neither [clear_selection] nor
    [add_to_selection] is ever called. *)
Lemma selection_skipped_after_commit_failure :
  stitch Z int_times_Z 10 rejecting_board "GND" 1 1 1 1 false None true false []
  = ([Call begin_commit;
      Call (create_items [new_via Z int_times_Z GND 1 1 1000000 1000000]);
      Print "Error adding vias: rejected";
      Call refill_zones],
     Ok 1)
  /\ ~ selection_attempted
         (fst (stitch Z int_times_Z 10 rejecting_board "GND" 1 1 1 1 false
                 None true false [])).
Proof.
  assert (E : stitch Z int_times_Z 10 rejecting_board "GND" 1 1 1 1 false None
                true false []
              = ([Call begin_commit;
                  Call (create_items
                          [new_via Z int_times_Z GND 1 1 1000000 1000000]);
                  Print "Error adding vias: rejected";
                  Call refill_zones],
                 Ok 1)) by (vm_compute; reflexivity).
  split; [exact E|]. rewrite E. simpl.
  intros (c & Hc & Hsel).
  destruct Hc as [[= <-]|[[= <-]|[Hc|[[= <-]|[]]]]]; discriminate.
Qed.

(** ** Grid spacing and termination of the grid walk *)

Lemma clamp_spacing_pos (g : Z) : 0 < clamp_spacing g.
Proof. unfold clamp_spacing, SCALE. destruct (g <=? 0) eqn:E; lia. Qed.

Section SamplerTermination.
Variables (number : Type) (int_times : number -> Z -> Z).
Variables (valid_bitmap : ndarray) (overall_bbox : Box2).
Variables (target_net : Net) (via_diameter via_drill : number).
Variables (end_x end_y gx gy : Z) (stagger cb : bool) (total_points : Z).

Lemma sample_column_terminates (fuel : nat) :
  0 < gy ->
  forall x y vias pc,
    (Z.to_nat (end_y - y + 1) < fuel)%nat ->
    exists r,
      sample_column number int_times valid_bitmap overall_bbox target_net
        via_diameter via_drill end_y gy fuel x y vias pc = Ok r.
Proof.
  intros Hgy. induction fuel as [|fuel IH]; intros x y vias pc Hf; [lia|].
  simpl. destruct (y <=? end_y) eqn:E.
  - unfold int_truediv, RESOLUTION. simpl. apply IH. lia.
  - eexists. reflexivity.
Qed.

Lemma sample_grid_terminates (budget fuel : nat) :
  0 < gx -> 0 < gy ->
  (Z.to_nat (end_y - vy (pos overall_bbox) + 1) < budget)%nat ->
  forall x row vias pc log,
    (Z.to_nat (end_x - x + 1) < fuel)%nat ->
    exists log' vias',
      sample_grid number int_times valid_bitmap overall_bbox target_net
        via_diameter via_drill end_x end_y gx gy stagger cb total_points
        budget fuel x row vias pc log = (log', Ok vias').
Proof.
  intros Hgx Hgy Hb. induction fuel as [|fuel IH];
    intros x row vias pc log Hf; [lia|].
  simpl. destruct (x <=? end_x) eqn:E.
  - destruct (sample_column_terminates budget Hgy x
                (vy (pos overall_bbox)
                 + (if stagger && (row mod 2 =? 1) then gy / 2 else 0))
                vias pc) as [[vias' pc'] Hc].
    { assert (0 <= gy / 2) by (apply Z.div_pos; lia).
      destruct (stagger && (row mod 2 =? 1)); lia. }
    unfold bindM at 1. unfold lift. rewrite Hc.
    unfold bindM at 1.
    destruct (total_points >? 0).
    + rewrite progress_ok. apply IH. lia.
    + unfold retM. apply IH. lia.
  - eexists. eexists. reflexivity.
Qed.

(** Without the clamp a zero spacing never leaves the first column: the
    walk runs out of any fuel. *)
Lemma sample_column_zero_spacing_diverges (fuel : nat) :
  gy = 0 ->
  forall x y vias pc,
    y <= end_y ->
    sample_column number int_times valid_bitmap overall_bbox target_net
        via_diameter via_drill end_y gy fuel x y vias pc = Diverge.
Proof.
  intros ->. induction fuel as [|fuel IH]; intros x y vias pc Hy;
    [reflexivity|].
  simpl. rewrite (proj2 (Z.leb_le y end_y) Hy).
  unfold int_truediv, RESOLUTION. simpl. rewrite Z.add_0_r. now apply IH.
Qed.
End SamplerTermination.


(** ** The scanline fill *)

Lemma wrap_add (d : dtype) (z v : Z) : wrap d (wrap d z + v) = wrap d (z + v).
Proof.
  destruct d; simpl.
  - now rewrite Z.add_mod_idemp_l by lia.
  - f_equal.
    replace ((z + 2147483648) mod 4294967296 - 2147483648 + v + 2147483648)
      with ((z + 2147483648) mod 4294967296 + v) by lia.
    rewrite Z.add_mod_idemp_l by lia. f_equal. lia.
Qed.

Lemma span_count_nonneg (xs : list Z) (x : Z) : 0 <= span_count xs x.
Proof.
  revert xs. fix IH 1. intros [|a [|b rest]]; simpl; try lia.
  specialize (IH rest). destruct ((a <=? x) && (x <=? b)); lia.
Qed.

Lemma added_added (d : dtype) (old value c1 c2 : Z) :
  0 <= c1 -> 0 <= c2 ->
  added d (added d old value c1) value c2 = added d old value (c1 + c2).
Proof.
  intros H1 H2. unfold added.
  destruct (c1 =? 0) eqn:E1, (c2 =? 0) eqn:E2;
    rewrite ?Z.eqb_eq, ?Z.eqb_neq in *.
  - subst. reflexivity.
  - subst. simpl. rewrite (proj2 (Z.eqb_neq c2 0) E2). reflexivity.
  - subst. rewrite Z.add_0_r, (proj2 (Z.eqb_neq c1 0) E1). reflexivity.
  - rewrite (proj2 (Z.eqb_neq (c1 + c2) 0)) by lia.
    rewrite wrap_add. f_equal. lia.
Qed.

Lemma iadd_row_slice_get (a : ndarray) (y x1 x2 value : Z) :
  0 <= y < height a -> 0 <= x1 -> x1 <= x2 -> x2 < width a ->
  exists a',
    iadd_row_slice a y x1 (x2 + 1) value = Ok a'
    /\ same_shape a a'
    /\ forall yy xx,
         get a' yy xx
         = if (yy =? y) && (x1 <=? xx) && (xx <=? x2)
           then wrap (dt a) (get a yy xx + value)
           else get a yy xx.
Proof.
  intros Hy H1 H12 H2. unfold iadd_row_slice, norm_index.
  assert (E : (0 <=? y) && (y <? height a) = true)
    by (apply andb_true_iff; lia).
  rewrite E. simpl. eexists. split; [reflexivity|].
  split; [repeat split|].
  intros yy xx. rewrite get_tabulate_cases.
  unfold slice_bound.
  rewrite (proj2 (Z.ltb_ge x1 0)), (proj2 (Z.ltb_ge (x2 + 1) 0)) by lia.
  rewrite !Z.min_l by lia.
  destruct ((0 <=? yy) && (yy <? height a) && (0 <=? xx) && (xx <? width a))
    eqn:Eb.
  - replace (xx <? x2 + 1) with (xx <=? x2) by lia. reflexivity.
  - rewrite (get_outside a yy xx Eb).
    destruct ((yy =? y) && (x1 <=? xx) && (xx <=? x2)) eqn:Ec; [|reflexivity].
    exfalso. rewrite !andb_true_iff in Ec.
    apply in_bounds_false in Eb. lia.
Qed.

Lemma fill_spans_get (y value : Z) (xs : list Z) :
  forall bitmap,
    0 <= y < height bitmap ->
    exists bitmap',
      fill_spans bitmap y xs value = Ok bitmap'
      /\ same_shape bitmap bitmap'
      /\ forall yy xx,
           get bitmap' yy xx
           = if (yy =? y) && in_bounds bitmap yy xx
             then added (dt bitmap) (get bitmap yy xx) value (span_count xs xx)
             else get bitmap yy xx.
Proof.
  revert xs. fix IH 1. intros [|a [|b rest]] bitmap Hy.
  1,2: exists bitmap; split; [reflexivity|]; split; [apply same_shape_refl|];
    intros yy xx; simpl; unfold added; simpl;
    now destruct ((yy =? y) && in_bounds bitmap yy xx).
  simpl.
  assert (Hstep : exists b1,
    (if Z.max 0 a <=? Z.min (width bitmap - 1) b
     then iadd_row_slice bitmap y (Z.max 0 a) (Z.min (width bitmap - 1) b + 1) value
     else ret bitmap) = Ok b1
    /\ same_shape bitmap b1
    /\ forall yy xx,
         get b1 yy xx
         = if (yy =? y) && in_bounds bitmap yy xx
           then added (dt bitmap) (get bitmap yy xx) value
                  (if (a <=? xx) && (xx <=? b) then 1 else 0)
           else get bitmap yy xx).
  { destruct (Z.max 0 a <=? Z.min (width bitmap - 1) b) eqn:E.
    - destruct (iadd_row_slice_get bitmap y (Z.max 0 a)
                  (Z.min (width bitmap - 1) b) value) as (b1 & H1 & H2 & H3);
        try lia.
      exists b1. split; [exact H1|]. split; [exact H2|].
      intros yy xx. rewrite H3. unfold added, in_bounds.
      destruct (yy =? y) eqn:Ey; simpl; [|reflexivity].
      apply Z.eqb_eq in Ey. subst yy.
      destruct ((0 <=? y) && (y <? height bitmap) && (0 <=? xx)
                && (xx <? width bitmap)) eqn:Eb.
      + rewrite !andb_true_iff in Eb.
        replace ((Z.max 0 a <=? xx) && (xx <=? Z.min (width bitmap - 1) b))
          with ((a <=? xx) && (xx <=? b)) by lia.
        destruct ((a <=? xx) && (xx <=? b)); simpl; [|reflexivity].
        now rewrite Z.mul_1_r.
      + replace ((Z.max 0 a <=? xx) && (xx <=? Z.min (width bitmap - 1) b))
          with false; [reflexivity|].
        symmetry. apply andb_false_iff.
        rewrite !andb_false_iff in Eb. lia.
    - exists bitmap. split; [reflexivity|]. split; [apply same_shape_refl|].
      intros yy xx. unfold added, in_bounds.
      destruct ((yy =? y) && ((0 <=? yy) && (yy <? height bitmap) && (0 <=? xx)
                              && (xx <? width bitmap))) eqn:Eb; [|reflexivity].
      replace ((a <=? xx) && (xx <=? b)) with false; [reflexivity|].
      symmetry. rewrite !andb_true_iff in Eb. apply andb_false_iff. lia. }
  destruct Hstep as (b1 & E1 & Hs1 & Hg1). rewrite E1. simpl.
  destruct (IH rest b1) as (b2 & E2 & Hs2 & Hg2).
  { destruct Hs1 as (_ & Hh & _). lia. }
  exists b2. split; [exact E2|]. split; [eapply same_shape_trans; eassumption|].
  intros yy xx. rewrite Hg2, Hg1, (same_shape_in_bounds _ _ _ _ Hs1).
  destruct Hs1 as (Hd & _). rewrite Hd.
  destruct ((yy =? y) && in_bounds bitmap yy xx); [|reflexivity].
  apply added_added; [|apply span_count_nonneg].
  destruct ((a <=? xx) && (xx <=? b)); lia.
Qed.

Lemma spec_edges_length (points : list (Z * Z)) :
  length (spec_edges points) = length points.
Proof.
  unfold spec_edges. rewrite length_combine, length_app.
  destruct points as [|p ps]; [reflexivity|]. cbn [tl firstn length]. lia.
Qed.

Lemma spec_edges_nth (points : list (Z * Z)) (i : nat) :
  (i < length points)%nat ->
  nth i (spec_edges points) ((0, 0), (0, 0)) = edge_at points i.
Proof.
  intros Hi. unfold spec_edges, edge_at.
  rewrite combine_nth.
  2:{ rewrite length_app. destruct points; [reflexivity|].
      cbn [tl firstn length]. lia. }
  f_equal. destruct points as [|p ps]; [simpl in Hi; lia|].
  cbn [tl firstn length] in *.
  destruct (Nat.eq_dec i (length ps)) as [->|Hne].
  - rewrite nth_middle.
    replace (length ps + 1)%nat with (S (length ps)) by lia.
    now rewrite Nat.Div0.mod_same.
  - rewrite app_nth1 by lia.
    rewrite Nat.mod_small by lia.
    replace (i + 1)%nat with (S i) by lia. reflexivity.
Qed.

Lemma spec_edges_indexed (points : list (Z * Z)) :
  spec_edges points = map (edge_at points) (seq 0 (length points)).
Proof.
  apply nth_ext with (d := ((0, 0), (0, 0))) (d' := edge_at points 0).
  - now rewrite spec_edges_length, length_map, length_seq.
  - intros i Hi. rewrite spec_edges_length in Hi.
    rewrite (map_nth (edge_at points)), seq_nth by assumption.
    now apply spec_edges_nth.
Qed.

Lemma scan_edges_ok (points : list (Z * Z)) (y : Z) (idx : list nat) :
  scan_edges points y idx
  = Ok (map (spec_interpolate y)
          (filter (spec_crosses y) (map (edge_at points) idx))).
Proof.
  induction idx as [|i idx IH]; [reflexivity|].
  cbn [scan_edges map filter].
  destruct (edge_at points i) as [[x1 y1] [x2 y2]].
  cbn [spec_crosses fst snd].
  destruct (y1 =? y2) eqn:Eh.
  - apply Z.eqb_eq in Eh. subst y2.
    replace ((Z.min y1 y1 <=? y) && (y <? Z.max y1 y1)) with false by lia.
    exact IH.
  - apply Z.eqb_neq in Eh.
    destruct ((y <? Z.min y1 y2) || (Z.max y1 y2 <=? y)) eqn:Ec.
    + replace ((Z.min y1 y2 <=? y) && (y <? Z.max y1 y2)) with false by lia.
      exact IH.
    + replace ((Z.min y1 y2 <=? y) && (y <? Z.max y1 y2)) with true by lia.
      unfold x_intersection. cbn [fst snd].
      rewrite (proj2 (Z.eqb_neq (y2 - y1) 0)) by lia.
      rewrite IH. reflexivity.
Qed.

Lemma scan_row_get (points : list (Z * Z)) (value y : Z) (bitmap : ndarray) :
  0 <= y < height bitmap ->
  exists bitmap',
    scan_row points value bitmap y = Ok bitmap'
    /\ same_shape bitmap bitmap'
    /\ forall yy xx,
         get bitmap' yy xx
         = if (yy =? y) && in_bounds bitmap yy xx
           then added (dt bitmap) (get bitmap yy xx) value (fill_count points y xx)
           else get bitmap yy xx.
Proof.
  intros Hy. unfold scan_row, fill_count.
  rewrite scan_edges_ok, <- spec_edges_indexed. simpl.
  apply fill_spans_get. exact Hy.
Qed.

Lemma rows_get (points : list (Z * Z)) (value : Z) (ys : list Z) :
  forall bitmap,
    NoDup ys -> (forall y, In y ys -> 0 <= y < height bitmap) ->
    exists bitmap',
      for_each (scan_row points value) ys bitmap = Ok bitmap'
      /\ same_shape bitmap bitmap'
      /\ forall y x,
           get bitmap' y x
           = if existsb (Z.eqb y) ys && in_bounds bitmap y x
             then added (dt bitmap) (get bitmap y x) value (fill_count points y x)
             else get bitmap y x.
Proof.
  induction ys as [|y0 ys IH]; intros bitmap Hnd Hin.
  - exists bitmap. split; [reflexivity|]. split; [apply same_shape_refl|].
    reflexivity.
  - simpl.
    destruct (scan_row_get points value y0 bitmap) as (b1 & E1 & Hs1 & Hg1);
      [apply Hin; now left|].
    rewrite E1. simpl.
    inversion Hnd as [|? ? Hnot Hnd']; subst.
    destruct (IH b1 Hnd') as (b2 & E2 & Hs2 & Hg2).
    { intros y Hy. destruct Hs1 as (_ & Hh & _). rewrite Hh.
      apply Hin. now right. }
    exists b2. split; [exact E2|].
    split; [eapply same_shape_trans; eassumption|].
    intros y x. rewrite Hg2, Hg1, (same_shape_in_bounds _ _ _ _ Hs1).
    destruct Hs1 as (Hd & _). rewrite Hd.
    destruct (y =? y0) eqn:Ey.
    + apply Z.eqb_eq in Ey. subst y.
      assert (Ex : existsb (Z.eqb y0) ys = false).
      { destruct (existsb (Z.eqb y0) ys) eqn:Ex; [|reflexivity].
        apply existsb_exists in Ex. destruct Ex as (y' & Hy' & Ey').
        apply Z.eqb_eq in Ey'. subst y'. contradiction. }
      rewrite Ex. simpl. reflexivity.
    + simpl. reflexivity.
Qed.

Lemma NoDup_range (n : Z) : NoDup (range n).
Proof.
  unfold range. apply Finite.Injective_map_NoDup.
  - intros a b H. lia.
  - apply seq_NoDup.
Qed.

Lemma existsb_range (n y : Z) :
  existsb (Z.eqb y) (range n) = (0 <=? y) && (y <? n).
Proof.
  destruct ((0 <=? y) && (y <? n)) eqn:E.
  - apply existsb_exists. exists y. split; [|apply Z.eqb_refl].
    apply In_range. lia.
  - destruct (existsb (Z.eqb y) (range n)) eqn:Ex; [|reflexivity].
    apply existsb_exists in Ex. destruct Ex as (y' & Hy' & Ey').
    apply Z.eqb_eq in Ey'. subst y'. apply In_range in Hy'. lia.
Qed.

(** The rasterizer in closed form: for a polygon of at least 3 vertices it
    returns a bitmap of the same shape in which every cell received its
    value as often as the spans of its row cover it. *)
Lemma rasterize_polygon_get (bitmap : ndarray) (nodes : list PolyLineNode)
  (bbox : Box2) (resolution value : Z) :
  resolution <> 0 -> (3 <= length nodes)%nat ->
  exists points bitmap',
    map_res (node_to_pixel bbox resolution) nodes = Ok points
    /\ rasterize_polygon bitmap nodes bbox resolution value = Ok bitmap'
    /\ same_shape bitmap bitmap'
    /\ forall y x,
         get bitmap' y x
         = added (dt bitmap) (get bitmap y x) value
             (if in_bounds bitmap y x then fill_count points y x else 0).
Proof.
  intros Hres Hlen. unfold rasterize_polygon.
  rewrite (proj2 (Nat.ltb_ge (length nodes) 3) Hlen).
  rewrite (map_res_ok _ (fun node =>
             (Z.quot (vx (point node) - vx (pos bbox)) resolution,
              Z.quot (vy (point node) - vy (pos bbox)) resolution)))
    by (intros; now apply node_to_pixel_ok).
  simpl.
  set (points := map _ nodes).
  destruct (rows_get points value (range (height bitmap)) bitmap)
    as (b' & E & Hs & Hg).
  - apply NoDup_range.
  - intros y Hy. now apply In_range in Hy.
  - exists points, b'. split; [reflexivity|]. split; [exact E|].
    split; [exact Hs|]. intros y x. rewrite Hg, existsb_range.
    unfold in_bounds.
    destruct ((0 <=? y) && (y <? height bitmap)) eqn:Ey; simpl;
      [|reflexivity].
    now destruct ((0 <=? x) && (x <? width bitmap)).
Qed.

(** *** Sorting *)

Lemma insert_sorted_perm (v : Z) (xs : list Z) :
  Permutation (insert_sorted v xs) (v :: xs).
Proof.
  induction xs as [|h t IH]; simpl; [reflexivity|].
  destruct (v <=? h); [reflexivity|].
  rewrite IH. apply perm_swap.
Qed.

Lemma sort_perm (xs : list Z) : Permutation (sort xs) xs.
Proof.
  induction xs as [|h t IH]; simpl; [reflexivity|].
  rewrite insert_sorted_perm. now constructor.
Qed.

Lemma insert_sorted_sorted (v : Z) (xs : list Z) :
  StronglySorted Z.le xs -> StronglySorted Z.le (insert_sorted v xs).
Proof.
  induction 1 as [|h t Hs IH Hall]; simpl.
  - constructor; constructor.
  - destruct (v <=? h) eqn:E.
    + apply Z.leb_le in E. constructor.
      * now constructor.
      * constructor; [exact E|].
        eapply Forall_impl; [|exact Hall]. intros; lia.
    + apply Z.leb_gt in E. constructor; [exact IH|].
      apply Forall_forall. intros z Hz.
      apply (Permutation_in _ (insert_sorted_perm v t)) in Hz.
      rewrite Forall_forall in Hall.
      destruct Hz as [<-|Hz]; [lia|now apply Hall].
Qed.

Lemma sort_sorted (xs : list Z) : StronglySorted Z.le (sort xs).
Proof.
  induction xs as [|h t IH]; simpl; [constructor|].
  now apply insert_sorted_sorted.
Qed.

Lemma sorted_perm_unique (l1 : list Z) :
  forall l2,
    StronglySorted Z.le l1 -> StronglySorted Z.le l2 -> Permutation l1 l2 ->
    l1 = l2.
Proof.
  induction l1 as [|a l1 IH]; intros l2 H1 H2 Hp.
  - apply Permutation_nil in Hp. now subst.
  - destruct l2 as [|b l2];
      [apply Permutation_sym, Permutation_nil in Hp; discriminate|].
    inversion H1 as [|? ? Hs1 Ha]; subst.
    inversion H2 as [|? ? Hs2 Hb]; subst.
    assert (Hab : a = b).
    { assert (Ia : In a (b :: l2))
        by (eapply Permutation_in; [exact Hp|now left]).
      assert (Ib : In b (a :: l1))
        by (eapply Permutation_in; [apply Permutation_sym; exact Hp|now left]).
      rewrite Forall_forall in Ha, Hb.
      destruct Ia as [Ia|Ia]; [congruence|].
      destruct Ib as [Ib|Ib]; [congruence|].
      specialize (Ha _ Ib). specialize (Hb _ Ia). lia. }
    subst b. f_equal. apply IH; try assumption.
    now apply Permutation_cons_inv in Hp.
Qed.

Lemma sorted_is_sort (xs l : list Z) :
  Permutation xs l -> Sorted Z.le xs -> xs = sort l.
Proof.
  intros Hp Hs. apply sorted_perm_unique.
  - apply Sorted_StronglySorted; [|exact Hs]. intros a b c. lia.
  - apply sort_sorted.
  - rewrite Hp. symmetry. apply sort_perm.
Qed.

(** *** Counting the spans by index *)

Lemma span_filter_shift (a b : Z) (rest : list Z) (x : Z) (m : nat) :
  forall s,
    filter
      (fun k => (nth (2 * k) (a :: b :: rest) 0 <=? x)
                && (x <=? nth (2 * k + 1) (a :: b :: rest) 0))
      (seq (S s) m)
    = map S
        (filter
           (fun k => (nth (2 * k) rest 0 <=? x) && (x <=? nth (2 * k + 1) rest 0))
           (seq s m)).
Proof.
  induction m as [|m IH]; intros s; [reflexivity|].
  cbn [seq filter].
  replace (2 * S s)%nat with (S (S (2 * s))) by lia.
  replace (S (S (2 * s)) + 1)%nat with (S (S (2 * s + 1))) by lia.
  cbn [nth].
  destruct ((nth (2 * s) rest 0 <=? x) && (x <=? nth (2 * s + 1) rest 0));
    cbn [map]; now rewrite IH.
Qed.

Lemma span_count_spec (xs : list Z) (x : Z) :
  span_count xs x = spec_span_count xs x.
Proof.
  revert xs. fix IH 1. intros [|a [|b rest]]; [reflexivity|reflexivity|].
  cbn [span_count]. rewrite IH. unfold spec_span_count.
  replace (length (a :: b :: rest) / 2)%nat with (S (length rest / 2)).
  2:{ cbn [length]. replace (S (S (length rest))) with (length rest + 1 * 2)%nat
        by lia. rewrite Nat.div_add by lia. lia. }
  cbn [seq filter]. rewrite span_filter_shift.
  change (nth (2 * 0) (a :: b :: rest) 0) with a.
  change (nth (2 * 0 + 1) (a :: b :: rest) 0) with b.
  destruct ((a <=? x) && (x <=? b)); cbn [length]; rewrite length_map; lia.
Qed.

(** C6: for a polygon of at least 3 vertices the rasterizer does what the
    specification says.  The edges it scans on a row are those of the closed
    ring that satisfy [y >= min(y1, y2)] and [y < max(y1, y2)] (horizontal
    edges never do); their x-intersections are the linear interpolations;
    and in the returned bitmap every cell [(y, x)] holds its old content
    plus [value] once for each pair (even index, next odd index) of the
    ascending list of the row's intersections whose inclusive span holds
    [x] (in the arithmetic of the bitmap's dtype, for a [value] that the
    dtype holds). *)
Theorem scanline_fill_matches_spec :
  forall (bitmap : ndarray) (nodes : list PolyLineNode) (bbox : Box2)
    (resolution value : Z),
    (3 <= length nodes)%nat -> resolution <> 0 ->
    representable (dt bitmap) value ->
    exists points bitmap',
      map_res (node_to_pixel bbox resolution) nodes = Ok points
      /\ rasterize_polygon bitmap nodes bbox resolution value = Ok bitmap'
      /\ same_shape bitmap bitmap'
      /\ (forall y,
            scan_edges points y (seq 0 (length points))
            = Ok (spec_intersections points y))
      /\ (forall y x xs,
            in_bounds bitmap y x = true ->
            Permutation xs (spec_intersections points y) ->
            Sorted Z.le xs ->
            get bitmap' y x
            = added (dt bitmap) (get bitmap y x) value (spec_span_count xs x)).
Proof.
  intros bitmap nodes bbox resolution value Hlen Hres _.
  destruct (rasterize_polygon_get bitmap nodes bbox resolution value Hres Hlen)
    as (points & b' & Hp & Hr & Hs & Hg).
  exists points, b'. repeat split; try assumption; try apply Hs.
  - intros y. rewrite scan_edges_ok. now rewrite <- spec_edges_indexed.
  - intros y x xs Hb Hperm Hsorted. rewrite Hg, Hb.
    unfold fill_count. rewrite <- (sorted_is_sort xs _ Hperm Hsorted).
    now rewrite span_count_spec.
Qed.

Lemma scanline_fill_matches_spec_witness :
  exists points bitmap',
    map_res (node_to_pixel (box 2000000) 100000) (square 2000000) = Ok points
    /\ rasterize_polygon zeros21 (square 2000000) (box 2000000) 100000 1
       = Ok bitmap'
    /\ same_shape zeros21 bitmap'
    /\ (forall y,
          scan_edges points y (seq 0 (length points))
          = Ok (spec_intersections points y))
    /\ (forall y x xs,
          in_bounds zeros21 y x = true ->
          Permutation xs (spec_intersections points y) ->
          Sorted Z.le xs ->
          get bitmap' y x
          = added (dt zeros21) (get zeros21 y x) 1 (spec_span_count xs x)).
Proof.
  apply (scanline_fill_matches_spec zeros21 (square 2000000) (box 2000000)
           100000 1).
  - simpl. lia.
  - lia.
  - simpl. lia.
Defined.

(** ** Clipping of the drawing primitives *)

Lemma draw_circle_shape (bitmap : ndarray) (cx cy r : Z) :
  same_shape bitmap (draw_circle bitmap cx cy r).
Proof. repeat split. Qed.

Lemma draw_circle_get (bitmap : ndarray) (cx cy r y x : Z) :
  get (draw_circle bitmap cx cy r) y x
  = if in_bounds bitmap y x && ((x - cx) ^ 2 + (y - cy) ^ 2 <=? r ^ 2)
    then 1 else get bitmap y x.
Proof.
  unfold draw_circle. rewrite get_tabulate_cases. fold (in_bounds bitmap y x).
  destruct (in_bounds bitmap y x) eqn:E; simpl; [reflexivity|].
  symmetry. now apply get_outside.
Qed.

Lemma draw_circles_shape (points : list (Z * Z)) (r : Z) :
  forall bitmap,
    same_shape bitmap
      (fold_left (fun b p => draw_circle b (fst p) (snd p) r) points bitmap).
Proof.
  induction points as [|p ps IH]; intros bitmap; simpl.
  - apply same_shape_refl.
  - eapply same_shape_trans; [apply draw_circle_shape|apply IH].
Qed.

Lemma line_walk_terminates (x2 y2 dx dy sx sy : Z) :
  sx * sx = 1 -> sy * sy = 1 -> 0 <= dx -> 0 <= dy ->
  forall fuel x y err points,
    0 <= (x2 - x) * sx <= dx -> 0 <= (y2 - y) * sy <= dy ->
    err = dx - dy + (x2 - x) * sx * dy - (y2 - y) * sy * dx ->
    (Z.to_nat ((x2 - x) * sx + (y2 - y) * sy) < fuel)%nat ->
    exists points',
      line_walk fuel x y x2 y2 dx dy sx sy err points = Ok points'.
Proof.
  intros Hsx Hsy Hdx Hdy.
  assert (Hsx' : sx = 1 \/ sx = -1) by nia.
  assert (Hsy' : sy = 1 \/ sy = -1) by nia.
  induction fuel as [|fuel IH]; intros x y err points Hx Hy Herr Hfuel; [lia|].
  cbn [line_walk].
  destruct ((x =? x2) && (y =? y2)) eqn:Eend; [eexists; reflexivity|].
  assert (Hrem : 1 <= (x2 - x) * sx + (y2 - y) * sy).
  { rewrite andb_false_iff, !Z.eqb_neq in Eend. nia. }
  destruct (2 * err >? - dy) eqn:Ex; destruct (2 * err <? dx) eqn:Ey;
    apply IH; nia.
Qed.

Lemma draw_line_terminates (bitmap : ndarray) (x1 y1 x2 y2 width_px : Z)
  (fuel : nat) :
  (Z.to_nat (Z.abs (x2 - x1) + Z.abs (y2 - y1)) < fuel)%nat ->
  exists bitmap',
    draw_line fuel bitmap x1 y1 x2 y2 width_px = Ok bitmap'
    /\ same_shape bitmap bitmap'.
Proof.
  intros Hfuel. unfold draw_line.
  destruct (line_walk_terminates x2 y2 (Z.abs (x2 - x1)) (Z.abs (y2 - y1))
              (if x1 <? x2 then 1 else -1) (if y1 <? y2 then 1 else -1))
    with (fuel := fuel) (x := x1) (y := y1)
         (err := Z.abs (x2 - x1) - Z.abs (y2 - y1)) (points := @nil (Z * Z))
    as [pts Hpts].
  1,2: destruct (_ <? _); reflexivity.
  1,2: lia.
  1,2: destruct (x1 <? x2) eqn:E1; destruct (y1 <? y2) eqn:E2; lia.
  - destruct (x1 <? x2) eqn:E1; destruct (y1 <? y2) eqn:E2; nia.
  - destruct (x1 <? x2) eqn:E1; destruct (y1 <? y2) eqn:E2; lia.
  - rewrite Hpts. simpl. eexists. split; [reflexivity|].
    apply draw_circles_shape.
Qed.

(** C9: whatever the geometry, each drawing primitive of the obstacle
    compositor returns normally and leaves the shape of the bitmap as it was.
    The filled circle changes only cells of the bitmap that lie in the disc;
    the thick line's walk ends (from some fuel on it returns); the polygon
    fill changes only cells of the bitmap that lie in a span of their row, so
    coordinates outside the extent are clipped, not wrapped around. *)
Theorem primitives_clip_silently :
  forall (bitmap : ndarray) (resolution : Z),
    resolution <> 0 ->
    (forall cx cy radius_px,
        same_shape bitmap (draw_circle bitmap cx cy radius_px)
        /\ forall y x,
             get (draw_circle bitmap cx cy radius_px) y x <> get bitmap y x ->
             in_bounds bitmap y x = true
             /\ (x - cx) ^ 2 + (y - cy) ^ 2 <= radius_px ^ 2)
    /\ (forall x1 y1 x2 y2 width_px,
          exists bound : nat,
            forall fuel, (bound <= fuel)%nat ->
              exists bitmap',
                draw_line fuel bitmap x1 y1 x2 y2 width_px = Ok bitmap'
                /\ same_shape bitmap bitmap')
    /\ (forall nodes bbox,
          exists bitmap',
            rasterize_polygon bitmap nodes bbox resolution 1 = Ok bitmap'
            /\ same_shape bitmap bitmap'
            /\ forall y x,
                 get bitmap' y x <> get bitmap y x ->
                 in_bounds bitmap y x = true
                 /\ exists points,
                      map_res (node_to_pixel bbox resolution) nodes = Ok points
                      /\ 0 < fill_count points y x).
Proof.
  intros bitmap resolution Hres. split; [|split].
  - intros cx cy r. split; [apply draw_circle_shape|].
    intros y x. rewrite draw_circle_get.
    destruct (in_bounds bitmap y x); cbn [andb];
      [|intros Hne; now elim Hne].
    destruct ((x - cx) ^ 2 + (y - cy) ^ 2 <=? r ^ 2) eqn:E;
      [|intros Hne; now elim Hne].
    intros _. split; [reflexivity|lia].
  - intros x1 y1 x2 y2 width_px.
    exists (S (Z.to_nat (Z.abs (x2 - x1) + Z.abs (y2 - y1)))).
    intros fuel Hfuel. apply draw_line_terminates. lia.
  - intros nodes bbox.
    destruct (Nat.ltb (length nodes) 3) eqn:E.
    + exists bitmap. unfold rasterize_polygon. rewrite E.
      split; [reflexivity|]. split; [apply same_shape_refl|].
      intros y x Hne. now elim Hne.
    + apply Nat.ltb_ge in E.
      destruct (rasterize_polygon_get bitmap nodes bbox resolution 1 Hres E)
        as (points & b' & Hp & Hr & Hs & Hg).
      exists b'. split; [exact Hr|]. split; [exact Hs|].
      intros y x. rewrite Hg. unfold added.
      destruct (in_bounds bitmap y x);
        [|rewrite Z.eqb_refl; intros Hne; now elim Hne].
      destruct (fill_count points y x =? 0) eqn:E0;
        [intros Hne; now elim Hne|].
      intros _. split; [reflexivity|]. exists points. split; [exact Hp|].
      apply Z.eqb_neq in E0. pose proof (span_count_nonneg
        (sort (spec_intersections points y)) x). unfold fill_count in *. lia.
Qed.

Lemma primitives_clip_silently_witness :
  (forall cx cy radius_px,
      same_shape zeros21 (draw_circle zeros21 cx cy radius_px)
      /\ forall y x,
           get (draw_circle zeros21 cx cy radius_px) y x <> get zeros21 y x ->
           in_bounds zeros21 y x = true
           /\ (x - cx) ^ 2 + (y - cy) ^ 2 <= radius_px ^ 2)
  /\ (forall x1 y1 x2 y2 width_px,
        exists bound : nat,
          forall fuel, (bound <= fuel)%nat ->
            exists bitmap',
              draw_line fuel zeros21 x1 y1 x2 y2 width_px = Ok bitmap'
              /\ same_shape zeros21 bitmap')
  /\ (forall nodes bbox,
        exists bitmap',
          rasterize_polygon zeros21 nodes bbox 100000 1 = Ok bitmap'
          /\ same_shape zeros21 bitmap'
          /\ forall y x,
               get bitmap' y x <> get zeros21 y x ->
               in_bounds zeros21 y x = true
               /\ exists points,
                    map_res (node_to_pixel bbox 100000) nodes = Ok points
                    /\ 0 < fill_count points y x).
Proof. apply (primitives_clip_silently zeros21 100000). lia. Defined.

(** ** Ignored zones *)

Lemma for_each_app {A B} (body : A -> B -> res A) (xs ys : list B) (acc : A) :
  for_each body (xs ++ ys) acc
  = (acc' <- for_each body xs acc ;; for_each body ys acc').
Proof.
  revert acc. induction xs as [|v xs IH]; intros acc; simpl; [reflexivity|].
  destruct (body acc v); simpl; auto.
Qed.

Lemma for_each_flat_map {A B C} (body : A -> C -> res A) (f : B -> list C)
  (outer : A -> B -> res A) (xs : list B) :
  (forall acc b, outer acc b = for_each body (f b) acc) ->
  forall acc, for_each outer xs acc = for_each body (flat_map f xs) acc.
Proof.
  intros H. induction xs as [|b xs IH]; intros acc; simpl; [reflexivity|].
  rewrite for_each_app, H. destruct (for_each body (f b) acc); simpl; auto.
Qed.

Lemma fill_poly_list_outlines (bbox : Box2) (resolution : Z)
  (bitmap : ndarray) (item : Z * list PolygonWithHoles) :
  fill_poly_list bbox resolution bitmap item
  = for_each (fun b nodes => rasterize_polygon b nodes bbox resolution 1)
      (poly_outlines (snd item)) bitmap.
Proof.
  unfold fill_poly_list, poly_outlines.
  apply for_each_flat_map. intros acc poly. unfold fill_outline.
  destruct (outline poly) as [nodes|]; simpl; [|reflexivity].
  now destruct (rasterize_polygon acc nodes bbox resolution 1).
Qed.

Lemma stamp_zone_outlines (net_name : string) (bbox : Box2) (resolution : Z)
  (ignored : list string) (bitmap : ndarray) (zone : Zone.t) :
  stamp_zone net_name bbox resolution ignored bitmap zone
  = for_each (fun b nodes => rasterize_polygon b nodes bbox resolution 1)
      (zone_outlines net_name ignored zone) bitmap.
Proof.
  unfold stamp_zone, zone_outlines.
  destruct (on_net (Zone.net zone) net_name); [reflexivity|].
  destruct (negb (Zone.filled zone)); [reflexivity|].
  destruct (mem_string (zone_id_key zone) ignored); [reflexivity|].
  destruct (Zone.filled_polygons zone) as [polys_dict|]; [|reflexivity].
  apply for_each_flat_map. intros acc item. apply fill_poly_list_outlines.
Qed.

Lemma stamp_zones_outlines (net_name : string) (bbox : Box2) (resolution : Z)
  (ignored : list string) (zones : list Zone.t) (bitmap : ndarray) :
  for_each (stamp_zone net_name bbox resolution ignored) zones bitmap
  = for_each (fun b nodes => rasterize_polygon b nodes bbox resolution 1)
      (obstacle_outlines net_name ignored zones) bitmap.
Proof.
  unfold obstacle_outlines. apply for_each_flat_map.
  intros acc zone. apply stamp_zone_outlines.
Qed.

Lemma rasterize_obstacles_split (fuel : nat) (board : Items)
  (net_name : string) (bbox : Box2) (resolution : Z) (ignored : list string) :
  rasterize_obstacles fuel board net_name bbox resolution (Some ignored)
  = (bitmap <- obstacle_base fuel board net_name bbox resolution ;;
     for_each (fun b nodes => rasterize_polygon b nodes bbox resolution 1)
       (obstacle_outlines net_name ignored (get_zones board)) bitmap).
Proof.
  unfold rasterize_obstacles, obstacle_base.
  destruct (int_truediv (vx (size bbox)) resolution); simpl; try reflexivity.
  destruct (int_truediv (vy (size bbox)) resolution); simpl; try reflexivity.
  destruct (np_zeros uint8 _ _); simpl; try reflexivity.
  destruct (for_each (stamp_pad _ _ _) _ _); simpl; try reflexivity.
  destruct (for_each (stamp_via _ _ _) _ _); simpl; try reflexivity.
  destruct (for_each (stamp_track _ _ _ _) _ _); simpl; try reflexivity.
  apply stamp_zones_outlines.
Qed.

Lemma mem_string_cons (s zone_id : string) (ignored : list string) :
  mem_string s (zone_id :: ignored)
  = String.eqb s zone_id || mem_string s ignored.
Proof. reflexivity. Qed.

Lemma obstacle_outlines_without (net_name zone_id : string)
  (ignored : list string) (zones : list Zone.t) :
  obstacle_outlines net_name (zone_id :: ignored) zones
  = obstacle_outlines net_name ignored
      (filter (fun z => negb (String.eqb (zone_id_key z) zone_id)) zones).
Proof.
  unfold obstacle_outlines.
  induction zones as [|z zones IH]; simpl; [reflexivity|].
  rewrite IH. unfold zone_outlines at 1. rewrite mem_string_cons.
  destruct (String.eqb (zone_id_key z) zone_id) eqn:E; simpl.
  - destruct (on_net (Zone.net z) net_name); [reflexivity|].
    destruct (negb (Zone.filled z)); reflexivity.
  - reflexivity.
Qed.

Lemma ignored_zone_not_rasterized (fuel : nat) (board : Items)
  (net_name zone_id : string) (bbox : Box2) (resolution : Z)
  (ignored : list string) :
  rasterize_obstacles fuel board net_name bbox resolution
    (Some (zone_id :: ignored))
  = rasterize_obstacles fuel (without_zone zone_id board) net_name bbox
      resolution (Some ignored).
Proof.
  rewrite !rasterize_obstacles_split. unfold without_zone, with_zones. simpl.
  rewrite obstacle_outlines_without. reflexivity.
Qed.

Lemma fill_count_nonneg (points : list (Z * Z)) (y x : Z) :
  0 <= fill_count points y x.
Proof. apply span_count_nonneg. Qed.

Lemma outline_count_nonneg (bbox : Box2) (resolution : Z)
  (nodes : list PolyLineNode) (y x : Z) :
  0 <= outline_count bbox resolution nodes y x.
Proof.
  unfold outline_count. destruct (length nodes <? 3)%nat; [lia|].
  apply fill_count_nonneg.
Qed.

Lemma outlines_count_nonneg (bbox : Box2) (resolution : Z)
  (outlines : list (list PolyLineNode)) (y x : Z) :
  0 <= outlines_count bbox resolution outlines y x.
Proof.
  induction outlines as [|nodes outlines IH]; simpl; [lia|].
  pose proof (outline_count_nonneg bbox resolution nodes y x). lia.
Qed.

Lemma rasterize_outline_get (bitmap : ndarray) (nodes : list PolyLineNode)
  (bbox : Box2) (resolution : Z) :
  resolution <> 0 ->
  exists bitmap',
    rasterize_polygon bitmap nodes bbox resolution 1 = Ok bitmap'
    /\ same_shape bitmap bitmap'
    /\ forall y x,
         get bitmap' y x
         = added (dt bitmap) (get bitmap y x) 1
             (if in_bounds bitmap y x
              then outline_count bbox resolution nodes y x else 0).
Proof.
  intros Hres. unfold outline_count.
  destruct (length nodes <? 3)%nat eqn:E.
  - exists bitmap. unfold rasterize_polygon. rewrite E.
    split; [reflexivity|]. split; [apply same_shape_refl|].
    intros y x. now destruct (in_bounds bitmap y x).
  - apply Nat.ltb_ge in E.
    destruct (rasterize_polygon_get bitmap nodes bbox resolution 1 Hres E)
      as (points & b' & Hp & Hr & Hs & Hg).
    exists b'. split; [exact Hr|]. split; [exact Hs|].
    rewrite (map_res_ok _ (pixel_of bbox resolution)) in Hp
      by (intros; now apply node_to_pixel_ok).
    injection Hp as <-. exact Hg.
Qed.

Lemma rasterize_outlines_get (bbox : Box2) (resolution : Z)
  (outlines : list (list PolyLineNode)) :
  resolution <> 0 ->
  forall bitmap,
    exists bitmap',
      for_each (fun b nodes => rasterize_polygon b nodes bbox resolution 1)
        outlines bitmap = Ok bitmap'
      /\ same_shape bitmap bitmap'
      /\ forall y x,
           get bitmap' y x
           = added (dt bitmap) (get bitmap y x) 1
               (if in_bounds bitmap y x
                then outlines_count bbox resolution outlines y x else 0).
Proof.
  intros Hres. induction outlines as [|nodes outlines IH]; intros bitmap.
  - exists bitmap. split; [reflexivity|]. split; [apply same_shape_refl|].
    intros y x. simpl. now destruct (in_bounds bitmap y x).
  - simpl.
    destruct (rasterize_outline_get bitmap nodes bbox resolution Hres)
      as (b1 & E1 & Hs1 & Hg1).
    rewrite E1. simpl.
    destruct (IH b1) as (b2 & E2 & Hs2 & Hg2).
    exists b2. split; [exact E2|].
    split; [eapply same_shape_trans; eassumption|].
    intros y x. rewrite Hg2, Hg1, (same_shape_in_bounds _ _ _ _ Hs1).
    destruct Hs1 as (Hd & _). rewrite Hd.
    pose proof (outline_count_nonneg bbox resolution nodes y x).
    pose proof (outlines_count_nonneg bbox resolution outlines y x).
    rewrite added_added by (destruct (in_bounds bitmap y x); lia).
    now destruct (in_bounds bitmap y x).
Qed.

(** *** The base of the obstacle bitmap is binary *)

Lemma for_each_invariant {A B} (P : A -> Prop) (body : A -> B -> res A)
  (xs : list B) :
  (forall a b a', P a -> body a b = Ok a' -> P a') ->
  forall acc r, P acc -> for_each body xs acc = Ok r -> P r.
Proof.
  intros Hbody. induction xs as [|v xs IH]; intros acc r Hacc; simpl.
  - now intros [= <-].
  - destruct (body acc v) as [a'| |] eqn:E; simpl; try discriminate.
    apply IH. eapply Hbody; eassumption.
Qed.

Lemma binary_draw_circle (bitmap : ndarray) (cx cy r : Z) :
  binary bitmap -> binary (draw_circle bitmap cx cy r).
Proof.
  intros H y x. rewrite draw_circle_get.
  destruct (_ && _); [now right|apply H].
Qed.

Lemma binary_draw_circles (points : list (Z * Z)) (r : Z) :
  forall bitmap,
    binary bitmap ->
    binary (fold_left (fun b p => draw_circle b (fst p) (snd p) r) points bitmap).
Proof.
  induction points as [|p ps IH]; intros bitmap H; simpl; [exact H|].
  apply IH. now apply binary_draw_circle.
Qed.

Lemma binary_obstacle_base (fuel : nat) (board : Items) (net_name : string)
  (bbox : Box2) (resolution : Z) (base : ndarray) :
  obstacle_base fuel board net_name bbox resolution = Ok base ->
  binary base /\ dt base = uint8
  /\ (resolution <> 0 ->
      height base = Z.quot (vy (size bbox)) resolution + 1
      /\ width base = Z.quot (vx (size bbox)) resolution + 1).
Proof.
  unfold obstacle_base.
  destruct (int_truediv (vx (size bbox)) resolution) as [w| |] eqn:Ew;
    simpl; try discriminate.
  destruct (int_truediv (vy (size bbox)) resolution) as [h| |] eqn:Eh;
    simpl; try discriminate.
  destruct (np_zeros uint8 (h + 1) (w + 1)) as [b0| |] eqn:E0;
    simpl; try discriminate.
  destruct (for_each (stamp_pad _ _ _) _ b0) as [b1| |] eqn:E1;
    simpl; try discriminate.
  destruct (for_each (stamp_via _ _ _) _ b1) as [b2| |] eqn:E2;
    simpl; try discriminate.
  intros E3.
  set (P := fun a : ndarray =>
              binary a /\ dt a = uint8 /\ height a = h + 1 /\ width a = w + 1).
  assert (P0 : P b0).
  { unfold np_zeros in E0. destruct (_ || _); [discriminate|].
    injection E0 as <-. repeat split.
    intros y x. rewrite get_tabulate_cases. destruct (_ && _); now left. }
  assert (Hcircle : forall a cx cy r, P a -> P (draw_circle a cx cy r)).
  { intros a cx cy r (Hb & Hd & Hh & Hw). repeat split; try assumption.
    now apply binary_draw_circle. }
  assert (P1 : P b1).
  { eapply for_each_invariant; [|exact P0|exact E1].
    intros a p a' Ha. unfold stamp_pad, ret.
    destruct (on_net _ _); [now intros [= <-]|].
    destruct (to_pixel _ _ _) as [[px py]| |]; simpl; try discriminate.
    destruct (int_truediv_half _ _); simpl; try discriminate.
    intros [= <-]. now apply Hcircle. }
  assert (P2 : P b2).
  { eapply for_each_invariant; [|exact P1|exact E2].
    intros a v a' Ha. unfold stamp_via, ret.
    destruct (on_net _ _); [now intros [= <-]|].
    destruct (to_pixel _ _ _) as [[px py]| |]; simpl; try discriminate.
    destruct (int_truediv_half _ _); simpl; try discriminate.
    intros [= <-]. now apply Hcircle. }
  assert (P3 : P base).
  { eapply for_each_invariant; [|exact P2|exact E3].
    intros a t a' Ha. unfold stamp_track, ret.
    destruct (on_net _ _); [now intros [= <-]|].
    destruct (to_pixel _ _ (Track.start t)) as [[x1 y1]| |]; simpl;
      try discriminate.
    destruct (to_pixel _ _ (Track.end_ t)) as [[x2 y2]| |]; simpl;
      try discriminate.
    destruct (int_truediv (Track.width t) resolution) as [width_px| |]; simpl;
      try discriminate.
    unfold draw_line, ret.
    destruct (line_walk _ _ _ _ _ _ _ _ _ _ _) as [pts| |]; simpl;
      try discriminate.
    intros [= <-]. destruct Ha as (Hb & Hd & Hh & Hw).
    pose proof (draw_circles_shape pts (width_px / 2) a) as (Sd & Sh & Sw).
    repeat split; try congruence.
    now apply binary_draw_circles. }
  destruct P3 as (Hb & Hd & Hh & Hw).
  split; [exact Hb|]. split; [exact Hd|].
  intros Hres. rewrite int_truediv_ok in Ew, Eh by assumption.
  injection Ew as <-. injection Eh as <-. now split.
Qed.

(** *** Fewer obstacles, more candidates *)

Lemma outlines_count_app (bbox : Box2) (resolution : Z)
  (l1 l2 : list (list PolyLineNode)) (y x : Z) :
  outlines_count bbox resolution (l1 ++ l2) y x
  = outlines_count bbox resolution l1 y x
    + outlines_count bbox resolution l2 y x.
Proof. induction l1 as [|n l1 IH]; simpl; lia. Qed.

Lemma outlines_count_without (bbox : Box2) (resolution : Z)
  (net_name zone_id : string) (ignored : list string) (zones : list Zone.t)
  (y x : Z) :
  outlines_count bbox resolution
    (obstacle_outlines net_name (zone_id :: ignored) zones) y x
  <= outlines_count bbox resolution
       (obstacle_outlines net_name ignored zones) y x.
Proof.
  rewrite obstacle_outlines_without. unfold obstacle_outlines.
  induction zones as [|z zones IH]; simpl; [lia|].
  rewrite outlines_count_app.
  pose proof (outlines_count_nonneg bbox resolution
                (zone_outlines net_name ignored z) y x).
  destruct (negb (String.eqb (zone_id_key z) zone_id)); simpl;
    rewrite ?outlines_count_app; lia.
Qed.

Lemma obstacle_counts_fit_spec (board : Items) (net_name : string)
  (ignored : list string) (bbox : Box2) (y x : Z) :
  obstacle_counts_fit board net_name ignored bbox = true ->
  0 <= y < Z.quot (vy (size bbox)) RESOLUTION + 1 ->
  0 <= x < Z.quot (vx (size bbox)) RESOLUTION + 1 ->
  outlines_count bbox RESOLUTION
    (obstacle_outlines net_name ignored (get_zones board)) y x < 255.
Proof.
  unfold obstacle_counts_fit. intros H Hy Hx.
  rewrite forallb_forall in H. specialize (H y (proj2 (In_range _ y) Hy)).
  rewrite forallb_forall in H. specialize (H x (proj2 (In_range _ x) Hx)).
  lia.
Qed.

Lemma obstacles_monotone (fuel : nat) (board : Items)
  (net_name zone_id : string) (bbox : Box2) (ignored : list string)
  (ob1 : ndarray) :
  obstacle_counts_fit board net_name ignored bbox = true ->
  rasterize_obstacles fuel board net_name bbox RESOLUTION (Some ignored)
  = Ok ob1 ->
  exists ob2,
    rasterize_obstacles fuel board net_name bbox RESOLUTION
      (Some (zone_id :: ignored)) = Ok ob2
    /\ forall y x, get ob1 y x = 0 -> get ob2 y x = 0.
Proof.
  intros Hfit. rewrite !rasterize_obstacles_split.
  destruct (obstacle_base fuel board net_name bbox RESOLUTION) as [base| |]
    eqn:Ebase; simpl; try discriminate.
  assert (Hres : RESOLUTION <> 0) by (unfold RESOLUTION; lia).
  destruct (binary_obstacle_base _ _ _ _ _ _ Ebase) as (Hbin & Hdt & Hshape).
  destruct (Hshape Hres) as [Hh Hw].
  destruct (rasterize_outlines_get bbox RESOLUTION
              (obstacle_outlines net_name ignored (get_zones board)) Hres base)
    as (b1 & E1 & _ & Hg1).
  destruct (rasterize_outlines_get bbox RESOLUTION
              (obstacle_outlines net_name (zone_id :: ignored) (get_zones board))
              Hres base)
    as (b2 & E2 & _ & Hg2).
  rewrite E1, E2. intros [= <-]. exists b2. split; [reflexivity|].
  intros y x. rewrite Hg1, Hg2, Hdt. unfold added.
  pose proof (outlines_count_without bbox RESOLUTION net_name zone_id ignored
                (get_zones board) y x) as Hle.
  pose proof (outlines_count_nonneg bbox RESOLUTION
                (obstacle_outlines net_name (zone_id :: ignored)
                   (get_zones board)) y x) as H0.
  destruct (in_bounds base y x) eqn:Eb; [|now rewrite Z.eqb_refl].
  apply in_bounds_true in Eb.
  pose proof (obstacle_counts_fit_spec board net_name ignored bbox y x Hfit
                ltac:(lia) ltac:(lia)) as Hlt.
  set (c1 := outlines_count bbox RESOLUTION
               (obstacle_outlines net_name ignored (get_zones board)) y x) in *.
  set (c2 := outlines_count bbox RESOLUTION
               (obstacle_outlines net_name (zone_id :: ignored)
                  (get_zones board)) y x) in *.
  cbn [wrap].
  destruct (c1 =? 0) eqn:Ec1; rewrite ?Z.eqb_eq, ?Z.eqb_neq in Ec1.
  - intros Hz. replace c2 with 0 by lia. exact Hz.
  - intros Hz. exfalso.
    destruct (Hbin y x) as [Hb|Hb]; rewrite Hb in Hz;
      rewrite Z.mod_small in Hz by lia; lia.
Qed.

Lemma binary_valid_area (zone_bitmap obstacle_bitmap : ndarray) :
  binary (valid_area zone_bitmap obstacle_bitmap).
Proof.
  intros y x. unfold valid_area. rewrite get_tabulate_cases.
  destruct (_ && _ && _ && _); [|now left].
  destruct (_ && _); [now right|now left].
Qed.

Lemma valid_area_covers (zone_bitmap ob1 ob2 : ndarray) :
  (forall y x, get ob1 y x = 0 -> get ob2 y x = 0) ->
  covers (valid_area zone_bitmap ob1) (valid_area zone_bitmap ob2).
Proof.
  intros H. split; [repeat split|].
  split; [apply binary_valid_area|]. split; [apply binary_valid_area|].
  intros y x. unfold valid_area. rewrite !get_tabulate_cases.
  destruct (_ && _ && _ && _); [|discriminate].
  destruct (get zone_bitmap y x >=? 2); simpl; [|discriminate].
  destruct (get ob1 y x =? 0) eqn:E; [|discriminate].
  apply Z.eqb_eq in E. now rewrite (H y x E).
Qed.

Lemma binary_binary_erosion (bitmap : ndarray) (k : Z) :
  binary (binary_erosion bitmap k).
Proof.
  intros y x. unfold binary_erosion. rewrite get_tabulate_cases.
  destruct (_ && _ && _ && _); [|now left].
  match goal with |- context [if ?c then 1 else 0] => destruct c end;
    [now right|now left].
Qed.

Lemma binary_erosion_covers (a b : ndarray) (k : Z) :
  covers a b -> covers (binary_erosion a k) (binary_erosion b k).
Proof.
  intros (Hs & Ha & Hb & Hab).
  split; [destruct Hs as (_ & Hh & Hw); repeat split; simpl; congruence|].
  split; [apply binary_binary_erosion|]. split; [apply binary_binary_erosion|].
  intros y x H1.
  destruct (binary_erosion_kept a k y x) as (_ & Hin & Hall); [lia|].
  apply binary_erosion_keeps.
  - now rewrite (same_shape_in_bounds _ _ _ _ Hs).
  - intros y' x' Hd. destruct (Hall y' x' Hd) as [Hin' Hne].
    rewrite (same_shape_in_bounds _ _ _ _ Hs). split; [exact Hin'|].
    destruct (Ha y' x') as [H0|H1']; [contradiction|].
    rewrite (Hab y' x' H1'). lia.
Qed.

Lemma apply_clearance_covers (a b a' : ndarray) (clearance_nm resolution : Z) :
  covers a b ->
  apply_clearance a clearance_nm resolution = Ok a' ->
  exists b', apply_clearance b clearance_nm resolution = Ok b' /\ covers a' b'.
Proof.
  intros Hc. unfold apply_clearance.
  destruct (int_truediv clearance_nm resolution) as [k| |]; simpl;
    try discriminate.
  destruct (k <? 1); unfold ret; intros [= <-]; eexists;
    (split; [reflexivity|]); [exact Hc|now apply binary_erosion_covers].
Qed.

Lemma covers_valid_at (a b : ndarray) (px py : Z) :
  covers a b -> valid_at a px py = true -> valid_at b px py = true.
Proof.
  intros (Hs & Ha & Hb & Hab). unfold valid_at.
  destruct Hs as (_ & Hh & Hw). rewrite Hh, Hw.
  rewrite !andb_true_iff. intros (Hin & Hv). split; [exact Hin|].
  destruct (Ha py px) as [H0|H1]; [lia|]. rewrite (Hab _ _ H1). reflexivity.
Qed.

Lemma progress_eq (cb : bool) (percent : Q) (status : string)
  (log : list event) :
  progress cb percent status log = (after_progress cb percent status log, Ok tt).
Proof. apply progress_ok. Qed.

Section SamplerMonotone.
Variables (number : Type) (int_times : number -> Z -> Z).
Variables (V1 V2 : ndarray) (overall_bbox : Box2).
Variables (target_net : Net) (via_diameter via_drill : number).
Variables (end_x end_y gx gy : Z) (stagger cb : bool) (total_points : Z).
Hypothesis Hcov : covers V1 V2.

Lemma sample_column_monotone (fuel : nat) :
  forall x y v1 v2 pc r1 pc',
    (length v1 <= length v2)%nat ->
    sample_column number int_times V1 overall_bbox target_net via_diameter
      via_drill end_y gy fuel x y v1 pc = Ok (r1, pc') ->
    exists r2,
      sample_column number int_times V2 overall_bbox target_net via_diameter
        via_drill end_y gy fuel x y v2 pc = Ok (r2, pc')
      /\ (length r1 <= length r2)%nat.
Proof.
  induction fuel as [|fuel IH]; intros x y v1 v2 pc r1 pc' Hlen;
    [discriminate|].
  cbn [sample_column]. destruct (y <=? end_y).
  - rewrite !int_truediv_ok by (unfold RESOLUTION; lia). cbn [bind].
    set (px := Z.quot (x - vx (pos overall_bbox)) RESOLUTION).
    set (py := Z.quot (y - vy (pos overall_bbox)) RESOLUTION).
    destruct (valid_at V1 px py) eqn:E1.
    + rewrite (covers_valid_at V1 V2 px py Hcov E1).
      apply IH. rewrite !length_app. simpl. lia.
    + destruct (valid_at V2 px py); apply IH; rewrite ?length_app; simpl; lia.
  - unfold ret. intros [= <- <-]. exists v2. split; [reflexivity|exact Hlen].
Qed.

Lemma sample_grid_monotone (budget fuel : nat) :
  forall x row v1 v2 pc log log' r1,
    (length v1 <= length v2)%nat ->
    sample_grid number int_times V1 overall_bbox target_net via_diameter
      via_drill end_x end_y gx gy stagger cb total_points budget fuel x row
      v1 pc log = (log', Ok r1) ->
    exists r2,
      sample_grid number int_times V2 overall_bbox target_net via_diameter
        via_drill end_x end_y gx gy stagger cb total_points budget fuel x row
        v2 pc log = (log', Ok r2)
      /\ (length r1 <= length r2)%nat.
Proof.
  induction fuel as [|fuel IH]; intros x row v1 v2 pc log log' r1 Hlen;
    [discriminate|].
  cbn [sample_grid]. destruct (x <=? end_x).
  - unfold bindM at 1 3. unfold lift at 1 2.
    destruct (sample_column number int_times V1 _ _ _ _ _ _ budget x _ v1 pc)
      as [[c1 pc1]| |] eqn:E1; try discriminate.
    destruct (sample_column_monotone budget _ _ v1 v2 pc c1 pc1 Hlen E1)
      as (c2 & E2 & Hlen2).
    rewrite E2. unfold bindM at 1 2.
    destruct (if total_points >? 0
              then progress cb (grid_progress total_points pc1)
                     (grid_status total_points pc1)
              else retM tt) as [l [[]| |]] eqn:Ep; try discriminate.
    apply IH. exact Hlen2.
  - unfold retM. intros [= <- <-]. exists v2. split; [reflexivity|exact Hlen].
Qed.
End SamplerMonotone.

Ltac run_progress :=
  repeat (cbn beta iota; rewrite progress_eq); cbn beta iota.

Lemma candidates_monotone (number : Type) (int_times : number -> Z -> Z)
  (fuel : nat) (board : Board) (net_name : string) (target_net : Net)
  (zones : list Zone.t) (overall_bbox : Box2)
  (via_diameter via_drill grid_x grid_y : number) (stagger : bool)
  (ignored : list string) (zone_id : string) (cb : bool)
  (log log' : list event) (v1 : list Via.t) :
  obstacle_counts_fit (items board) net_name ignored overall_bbox = true ->
  candidates number int_times fuel board net_name target_net zones
    overall_bbox via_diameter via_drill grid_x grid_y stagger ignored cb log
  = (log', Ok v1) ->
  exists v2,
    candidates number int_times fuel board net_name target_net zones
      overall_bbox via_diameter via_drill grid_x grid_y stagger
      (zone_id :: ignored) cb log
    = (log', Ok v2)
    /\ (length v1 <= length v2)%nat.
Proof.
  intros Hfit. unfold candidates, bindM, lift. run_progress.
  destruct (rasterize_zones_by_layer zones overall_bbox RESOLUTION)
    as [zb| |]; run_progress; try discriminate.
  destruct (rasterize_obstacles fuel (items board) net_name overall_bbox
              RESOLUTION (Some ignored)) as [ob1| |] eqn:E1;
    run_progress; try discriminate.
  destruct (obstacles_monotone fuel (items board) net_name zone_id
              overall_bbox ignored ob1 Hfit E1) as (ob2 & E2 & Hob).
  rewrite E2. run_progress.
  pose proof (valid_area_covers zb ob1 ob2 Hob) as Hcov.
  destruct (apply_clearance (valid_area zb ob1) CLEARANCE RESOLUTION)
    as [vb1| |] eqn:Ec1; run_progress; try discriminate.
  destruct (apply_clearance_covers _ _ _ _ _ Hcov Ec1) as (vb2 & Ec2 & Hcov').
  rewrite Ec2. run_progress.
  destruct (int_truediv _ (clamp_spacing (int_times grid_x SCALE)))
    as [cols| |]; run_progress; try discriminate.
  destruct (int_truediv _ (clamp_spacing (int_times grid_y SCALE)))
    as [rows| |]; run_progress; try discriminate.
  apply sample_grid_monotone; [exact Hcov'|reflexivity].
Qed.

Lemma commit_count (board : Board) (refill_after cb : bool)
  (vias : list Via.t) (log log' : list event) (n : Z) :
  commit board refill_after cb vias log = (log', Ok n) ->
  n = Z.of_nat (length vias).
Proof.
  unfold commit, bindM. rewrite progress_eq.
  destruct (match vias with
            | [] => retM tt
            | _ :: _ => _
            end _) as [l1 [[]| |]]; try discriminate.
  destruct (if refill_after then _ else retM tt) as [l2 [[]| |]];
    try discriminate.
  unfold retM. now intros [= _ <-].
Qed.

(** X17: putting a zone id into the ignore set keeps the zone out of the
    obstacle bitmap, which becomes that of the board without the zone
    (pixels of the zone that other obstacles cover stay obstacles); and as
    long as no cell of the obstacle bitmap collects 255 zone fills or more,
    the run with the id ignored finds at least as many candidates as the run
    without it, and returns a count at least as large. *)
Theorem ignoring_a_zone_never_loses_candidates :
  forall (number : Type) (int_times : number -> Z -> Z) (fuel : nat)
    (board : Board) (net_name : string)
    (via_diameter via_drill grid_x grid_y : number) (stagger : bool)
    (ignored : list string) (zone_id : string)
    (refill_after progress_callback : bool),
    no_obstacle_overflow board net_name ignored = true ->
    (forall bbox resolution,
        rasterize_obstacles fuel (items board) net_name bbox resolution
          (Some (zone_id :: ignored))
        = rasterize_obstacles fuel (without_zone zone_id (items board))
            net_name bbox resolution (Some ignored))
    /\ (forall target_net overall_bbox log log' vias,
          overall_bounding_box (target_zones board net_name)
          = Some overall_bbox ->
          candidates number int_times fuel board net_name target_net
            (target_zones board net_name) overall_bbox via_diameter via_drill
            grid_x grid_y stagger ignored progress_callback log
          = (log', Ok vias) ->
          exists vias',
            candidates number int_times fuel board net_name target_net
              (target_zones board net_name) overall_bbox via_diameter
              via_drill grid_x grid_y stagger (zone_id :: ignored)
              progress_callback log
            = (log', Ok vias')
            /\ (length vias <= length vias')%nat)
    /\ (forall n n',
          snd (stitch number int_times fuel board net_name via_diameter
                 via_drill grid_x grid_y stagger (Some ignored) refill_after
                 progress_callback [])
          = Ok n ->
          snd (stitch number int_times fuel board net_name via_diameter
                 via_drill grid_x grid_y stagger (Some (zone_id :: ignored))
                 refill_after progress_callback [])
          = Ok n' ->
          n <= n').
Proof.
  intros number int_times fuel board net_name vd vdr gx gy stagger ignored
    zone_id rf cb Hfit.
  split; [intros; apply ignored_zone_not_rasterized|].
  unfold no_obstacle_overflow in Hfit.
  split.
  - intros target bbox log log' vias Hbox Hc. rewrite Hbox in Hfit.
    now apply candidates_monotone.
  - intros n n'.
    destruct (target_net_of board net_name) as [target|] eqn:Enet.
    2:{ unfold stitch. unfold target_net_of in Enet. rewrite Enet.
        simpl. intros [= <-] [= <-]. lia. }
    destruct (overall_bounding_box (target_zones board net_name))
      as [bbox|] eqn:Ebox.
    + rewrite !(stitch_found _ _ _ _ _ _ _ _ _ _ _ _ _ _ _ Enet Ebox).
      unfold bindM at 1 3. rewrite progress_eq.
      unfold bindM at 1 2.
      destruct (candidates number int_times fuel board net_name target
                  (target_zones board net_name) bbox vd vdr gx gy stagger
                  ignored cb _) as [l1 [v1| |]] eqn:E1;
        try (simpl; discriminate).
      destruct (candidates_monotone _ _ _ _ _ _ _ _ _ _ _ _ _ _ zone_id _ _ _ _
                  Hfit E1) as (v2 & E2 & Hlen).
      rewrite E2.
      destruct (commit board rf cb v1 l1) as [l2 r2] eqn:C1.
      destruct (commit board rf cb v2 l1) as [l3 r3] eqn:C2.
      simpl. intros -> ->.
      apply commit_count in C1, C2. lia.
    + assert (Hz : target_zones board net_name = []).
      { destruct (target_zones board net_name) as [|z zs]; [reflexivity|].
        exfalso. revert Ebox. unfold overall_bounding_box. simpl.
        generalize (Zone.bounding_box z). induction zs as [|z' zs IH];
          intros b; simpl; [discriminate|apply IH]. }
      destruct (stitch_returns_zero number int_times fuel board net_name
                  vd vdr gx gy stagger (Some ignored) rf cb
                  (or_intror Hz)) as (t1 & H1 & _).
      destruct (stitch_returns_zero number int_times fuel board net_name
                  vd vdr gx gy stagger (Some (zone_id :: ignored)) rf cb
                  (or_intror Hz)) as (t2 & H2 & _).
      rewrite H1, H2. simpl. intros [= <-] [= <-]. lia.
Qed.

Lemma ignoring_a_zone_never_loses_candidates_witness :
  (forall bbox resolution,
      rasterize_obstacles 10 (items blocked_board) "GND" bbox resolution
        (Some ["b"%string])
      = rasterize_obstacles 10 (without_zone "b" (items blocked_board)) "GND"
          bbox resolution (Some []))
  /\ (forall target_net overall_bbox log log' vias,
        overall_bounding_box (target_zones blocked_board "GND")
        = Some overall_bbox ->
        candidates Z int_times_Z 10 blocked_board "GND" target_net
          (target_zones blocked_board "GND") overall_bbox 1 1 1 1 false []
          false log
        = (log', Ok vias) ->
        exists vias',
          candidates Z int_times_Z 10 blocked_board "GND" target_net
            (target_zones blocked_board "GND") overall_bbox 1 1 1 1 false
            ["b"%string] false log
          = (log', Ok vias')
          /\ (length vias <= length vias')%nat)
  /\ (forall n n',
        snd (stitch Z int_times_Z 10 blocked_board "GND" 1 1 1 1 false
               (Some []) false false [])
        = Ok n ->
        snd (stitch Z int_times_Z 10 blocked_board "GND" 1 1 1 1 false
               (Some ["b"%string]) false false [])
        = Ok n' ->
        n <= n').
Proof.
  apply (ignoring_a_zone_never_loses_candidates Z int_times_Z 10 blocked_board
           "GND" 1 1 1 1 false [] "b" false false).
  vm_compute. reflexivity.
Defined.

(** The runs of the witness: the VCC zone blocks the only grid point, and
    ignoring it frees the point. *)
Example ignoring_frees_the_grid_point :
  snd (stitch Z int_times_Z 10 blocked_board "GND" 1 1 1 1 false (Some [])
         false false [])
  = Ok 0
  /\ snd (stitch Z int_times_Z 10 blocked_board "GND" 1 1 1 1 false
            (Some ["b"%string]) false false [])
     = Ok 1.
Proof. split; vm_compute; reflexivity. Qed.

(** C5: the code breaks the claim.  On the board where the VCC zone "a"
    stacks 255 fills on the patch under the VCC zone "b", the obstacle cell
    of the grid point lies under 256 fills of foreign copper and, when
    nothing is ignored, holds 256 mod 256 = 0 in the uint8 bitmap, which
    reads as free: [stitch] proposes a via there and returns 1.  With "b"
    ignored the cell holds 255, and [stitch] returns 0: ignoring the zone
    loses the candidate. *)
Lemma ignoring_a_zone_can_lose_a_candidate :
  outlines_count (box 1300000) RESOLUTION
    (obstacle_outlines "GND" [] (get_zones (items stacked_board))) 10 10
  = 256
  /\ match rasterize_obstacles 10 (items stacked_board) "GND" (box 1300000)
             RESOLUTION (Some []) with
     | Ok obstacle_bitmap => get obstacle_bitmap 10 10
     | _ => -1
     end = 0
  /\ match rasterize_obstacles 10 (items stacked_board) "GND" (box 1300000)
             RESOLUTION (Some ["b"%string]) with
     | Ok obstacle_bitmap => get obstacle_bitmap 10 10
     | _ => -1
     end = 255
  /\ snd (candidates Z int_times_Z 10 stacked_board "GND" GND
            [small_gnd_zone] (box 1300000) 1 1 1 1 false [] false [])
     = Ok [new_via Z int_times_Z GND 1 1 1000000 1000000]
  /\ snd (stitch Z int_times_Z 10 stacked_board "GND" 1 1 1 1 false (Some [])
            false false [])
     = Ok 1
  /\ snd (stitch Z int_times_Z 10 stacked_board "GND" 1 1 1 1 false
            (Some ["b"%string]) false false [])
     = Ok 0.
Proof. repeat split; vm_compute; reflexivity. Qed.

(** * Further properties *)

(** ** The calls of a successful commit *)

Lemma calls_of_app (l1 l2 : list event) :
  calls_of (l1 ++ l2) = calls_of l1 ++ calls_of l2.
Proof. unfold calls_of. apply flat_map_app. Qed.

Lemma calls_of_progress (cb : bool) (percent : Q) (status : string)
  (log : list event) :
  calls_of (after_progress cb percent status log) = calls_of log.
Proof.
  unfold after_progress, progress. destruct cb; simpl; [|reflexivity].
  rewrite calls_of_app. simpl. apply app_nil_r.
Qed.

Lemma calls_of_none (log : list event) :
  (forall c, ~ In (Call c) log) -> calls_of log = [].
Proof.
  induction log as [|e log IH]; intros H; [reflexivity|].
  destruct e as [c| |]; simpl.
  - exfalso. apply (H c). now left.
  - apply IH. intros c Hc. apply (H c). now right.
  - apply IH. intros c Hc. apply (H c). now right.
Qed.

Lemma board_call_quiet (board : Board) (c : call) (log : list event) :
  (forall l c', raises board l c' = None) ->
  board_call board c log = (log ++ [Call c], Ok tt).
Proof. intros H. unfold board_call. now rewrite H. Qed.

Lemma select_all_quiet (board : Board) (vias : list Via.t) :
  (forall l c, raises board l c = None) ->
  forall log,
    exists log',
      for_eachM (fun v => board_call board (add_to_selection v)) vias log
      = (log', Ok tt)
      /\ calls_of log' = calls_of log ++ map add_to_selection vias.
Proof.
  intros H. induction vias as [|v vias IH]; intros log; simpl.
  - exists log. split; [reflexivity|]. now rewrite app_nil_r.
  - unfold bindM. rewrite board_call_quiet by assumption.
    destruct (IH (log ++ [Call (add_to_selection v)])) as (log' & E & Hc).
    exists log'. split; [exact E|].
    rewrite Hc, calls_of_app, <- app_assoc. reflexivity.
Qed.

Lemma commit_quiet (board : Board) (refill_after cb : bool)
  (vias : list Via.t) (log : list event) :
  (forall l c, raises board l c = None) ->
  exists log',
    commit board refill_after cb vias log = (log', Ok (Z.of_nat (length vias)))
    /\ calls_of log'
       = calls_of log
         ++ match vias with
            | [] => []
            | _ => [begin_commit; create_items vias; push_commit;
                    clear_selection] ++ map add_to_selection vias
            end
         ++ (if refill_after then [refill_zones] else []).
Proof.
  intros H. unfold commit. unfold bindM at 1. rewrite progress_eq.
  set (log0 := after_progress cb 90 _ log).
  assert (H0 : calls_of log0 = calls_of log) by apply calls_of_progress.
  assert (Hmid : exists log1,
    (match vias with
     | [] => retM tt
     | _ :: _ =>
         try_except (commit_and_select board cb vias)
           (fun e => print ("Error adding vias: " ++ str_of_exn e))
     end) log0 = (log1, Ok tt)
    /\ calls_of log1
       = calls_of log
         ++ match vias with
            | [] => []
            | _ => [begin_commit; create_items vias; push_commit;
                    clear_selection] ++ map add_to_selection vias
            end).
  { destruct vias as [|v vias'] eqn:Ev.
    - exists log0. split; [reflexivity|]. now rewrite app_nil_r.
    - rewrite <- Ev. unfold try_except, commit_and_select, bindM.
      rewrite !board_call_quiet by assumption.
      rewrite progress_eq. rewrite board_call_quiet by assumption.
      match goal with
      | |- context [for_eachM _ vias ?l] =>
          destruct (select_all_quiet board vias H l) as (log1 & E & Hc)
      end.
      rewrite E. exists log1. split; [reflexivity|].
      rewrite Hc, calls_of_app, calls_of_progress, !calls_of_app, H0.
      simpl. rewrite <- !app_assoc. reflexivity. }
  destruct Hmid as (log1 & E1 & Hc1).
  unfold bindM at 1. rewrite E1. unfold bindM at 1.
  destruct refill_after.
  - unfold bindM at 1. rewrite progress_eq, board_call_quiet by assumption.
    eexists. split; [reflexivity|].
    rewrite calls_of_app, calls_of_progress, Hc1. simpl.
    now rewrite <- app_assoc.
  - unfold retM. eexists. split; [reflexivity|].
    rewrite Hc1. now rewrite app_nil_r.
Qed.

(** X1: when the board accepts every call and the grid walk returned
    [vias_to_add], [stitch] returns their number and its calls to the board
    are, in this order, nothing at all for an empty list and otherwise
    [begin_commit], one [create_items] with the whole list, [push_commit],
    [clear_selection] and one [add_to_selection] per via, followed by
    [refill_zones] exactly when [refill_after] is set. *)
Theorem stitch_success_calls :
  forall (number : Type) (int_times : number -> Z -> Z) (fuel : nat)
    (board : Board) (net_name : string)
    (via_diameter via_drill grid_x grid_y : number) (stagger : bool)
    (ignored_zone_ids : option (list string))
    (refill_after progress_callback : bool)
    (target_net : Net) (overall_bbox : Box2)
    (log1 : list event) (vias_to_add : list Via.t),
    (forall log c, raises board log c = None) ->
    target_net_of board net_name = Some target_net ->
    overall_bounding_box (target_zones board net_name) = Some overall_bbox ->
    candidates number int_times fuel board net_name target_net
      (target_zones board net_name) overall_bbox via_diameter via_drill
      grid_x grid_y stagger
      (match ignored_zone_ids with None => [] | Some ids => ids end)
      progress_callback
      (after_progress progress_callback 10 "Found zones for net" [])
    = (log1, Ok vias_to_add) ->
    let run := stitch number int_times fuel board net_name via_diameter
                 via_drill grid_x grid_y stagger ignored_zone_ids refill_after
                 progress_callback [] in
    snd run = Ok (Z.of_nat (length vias_to_add))
    /\ calls_of (fst run)
       = match vias_to_add with
         | [] => []
         | _ => [begin_commit; create_items vias_to_add; push_commit;
                 clear_selection] ++ map add_to_selection vias_to_add
         end
         ++ (if refill_after then [refill_zones] else []).
Proof.
  intros number int_times fuel board net_name vd vdr gx gy stagger ign rf cb
    target bbox log1 vias Hquiet Hnet Hbox Hcand run.
  destruct (commit_quiet board rf cb vias log1 Hquiet) as (log' & E & Hc).
  assert (Hrun : run = (log', Ok (Z.of_nat (length vias)))).
  { subst run. rewrite (stitch_found _ _ _ _ _ _ _ _ _ _ _ _ _ _ _ Hnet Hbox).
    unfold bindM at 1. rewrite progress_eq.
    unfold bindM at 1. rewrite Hcand. exact E. }
  rewrite Hrun. cbn [fst snd]. split; [reflexivity|]. rewrite Hc.
  replace (calls_of log1) with (@nil call); [reflexivity|].
  symmetry. apply calls_of_none. intros c Hc1.
  apply (no_new_calls_candidates _ _ _ _ _ _ _ _ _ _ _ _ _ _ _ _ _ _ Hcand) in Hc1.
  apply progress_calls in Hc1. destruct Hc1.
Qed.

Lemma stitch_success_calls_witness :
  snd (stitch Z int_times_Z 10 gnd_board "GND" 1 1 1 1 false None true false [])
  = Ok 1
  /\ calls_of
       (fst (stitch Z int_times_Z 10 gnd_board "GND" 1 1 1 1 false None true
               false []))
     = [begin_commit;
        create_items [new_via Z int_times_Z GND 1 1 1000000 1000000];
        push_commit; clear_selection;
        add_to_selection (new_via Z int_times_Z GND 1 1 1000000 1000000);
        refill_zones].
Proof.
  apply (stitch_success_calls Z int_times_Z 10 gnd_board "GND" 1 1 1 1 false
           None true false GND (box 2000000) []
           [new_via Z int_times_Z GND 1 1 1000000 1000000]).
  - reflexivity.
  - reflexivity.
  - reflexivity.
  - vm_compute. reflexivity.
Defined.

(** ** The ignore list offered by [get_other_zones] *)

Lemma get_other_zones_spec (zones : list Zone.t) (target : string) :
  forall acc,
    fold_left (list_other_zone target) zones acc
    = acc
      ++ map (fun z => {| oz_id := zone_id_key z;
                          oz_net := zone_net_name z;
                          oz_layers := Zone.layers z |})
           (filter (fun z => negb (String.eqb (zone_net_name z) target)
                             && Zone.filled z) zones).
Proof.
  induction zones as [|z zones IH]; intros acc; simpl.
  - now rewrite app_nil_r.
  - rewrite IH. unfold list_other_zone.
    destruct (String.eqb (zone_net_name z) target); simpl; [reflexivity|].
    destruct (Zone.filled z); simpl; [|reflexivity].
    now rewrite <- app_assoc.
Qed.

Lemma on_net_zone_net_name (z : Zone.t) (target : string) :
  target <> "No Net"%string ->
  on_net (Zone.net z) target = String.eqb (zone_net_name z) target.
Proof.
  intros H. unfold on_net, zone_net_name.
  destruct (Zone.net z); [reflexivity|].
  symmetry. apply String.eqb_neq. congruence.
Qed.

Lemma mem_string_In (s : string) (set : list string) :
  mem_string s set = true <-> In s set.
Proof.
  unfold mem_string. rewrite existsb_exists. split.
  - intros (x & Hx & E). apply String.eqb_eq in E. now subst.
  - intros H. exists s. split; [exact H|apply String.eqb_refl].
Qed.

Lemma bind_ret_r {A} (m : res A) : (a <- m ;; ret a) = m.
Proof. now destruct m. Qed.

Lemma all_ignored_outlines (net_name : string) (ids : list string)
  (zones : list Zone.t) :
  (forall z, In z zones -> on_net (Zone.net z) net_name = false ->
             Zone.filled z = true -> In (zone_id_key z) ids) ->
  obstacle_outlines net_name ids zones = [].
Proof.
  unfold obstacle_outlines.
  induction zones as [|z zones IH]; intros H; [reflexivity|].
  simpl. rewrite IH by (intros z' Hz'; apply H; now right).
  rewrite app_nil_r. unfold zone_outlines.
  destruct (on_net (Zone.net z) net_name) eqn:E1; [reflexivity|].
  destruct (Zone.filled z) eqn:E2; [|reflexivity]. simpl.
  replace (mem_string _ _) with true; [reflexivity|].
  symmetry. apply mem_string_In. apply H; auto. now left.
Qed.

(** X2: for a target net other than the literal "No Net", the zones that
    [get_other_zones] lists are, in board order, exactly the filled zones
    that the obstacle compositor would fill; so with all the listed ids
    ignored no zone is rasterized and the obstacle bitmap is the one of the
    pads, vias and tracks alone. *)
Theorem ignoring_every_listed_zone :
  forall (fuel : nat) (board : Items) (net_name : string) (bbox : Box2)
    (resolution : Z),
    net_name <> "No Net"%string ->
    map oz_id (get_other_zones board net_name)
    = map zone_id_key
        (filter (fun z => negb (on_net (Zone.net z) net_name) && Zone.filled z)
           (get_zones board))
    /\ rasterize_obstacles fuel board net_name bbox resolution
         (Some (map oz_id (get_other_zones board net_name)))
       = obstacle_base fuel board net_name bbox resolution.
Proof.
  intros fuel board net_name bbox resolution Hnet.
  assert (Hids : map oz_id (get_other_zones board net_name)
                 = map zone_id_key
                     (filter (fun z => negb (on_net (Zone.net z) net_name)
                                       && Zone.filled z) (get_zones board))).
  { unfold get_other_zones. rewrite get_other_zones_spec. simpl.
    rewrite map_map. simpl. f_equal. apply filter_ext. intros z.
    now rewrite on_net_zone_net_name. }
  split; [exact Hids|].
  rewrite rasterize_obstacles_split.
  replace (obstacle_outlines net_name (map oz_id (get_other_zones board net_name))
             (get_zones board)) with (@nil (list PolyLineNode)).
  - simpl. apply bind_ret_r.
  - symmetry. rewrite Hids. apply all_ignored_outlines.
    intros z Hz E1 E2. apply in_map. apply filter_In.
    split; [exact Hz|]. now rewrite E1, E2.
Qed.

Lemma ignoring_every_listed_zone_witness :
  map oz_id (get_other_zones busy_items "GND") = ["b"%string]
  /\ rasterize_obstacles 50 busy_items "GND" (box 2000000) 100000
       (Some (map oz_id (get_other_zones busy_items "GND")))
     = obstacle_base 50 busy_items "GND" (box 2000000) 100000.
Proof.
  apply (ignoring_every_listed_zone 50 busy_items "GND" (box 2000000) 100000).
  discriminate.
Defined.

(** For the target "No Net" the list misses the zones without a net, which
    the compositor does fill. *)
Example no_net_zone_is_not_listed :
  let zone := {| Zone.net := None; Zone.filled := true; Zone.id := WithValue "n";
                 Zone.layers := [0];
                 Zone.filled_polygons := Some [(0, [square_poly 2000000])];
                 Zone.bounding_box := box 2000000 |} in
  let board := with_zones gnd_items [zone] in
  get_other_zones board "No Net" = []
  /\ obstacle_outlines "No Net" [] (get_zones board) = [square 2000000].
Proof. split; reflexivity. Qed.

(** ** Features of the target net *)

Lemma for_each_filter {A B} (body : A -> B -> res A) (keep : B -> bool)
  (xs : list B) :
  (forall acc b, keep b = false -> body acc b = ret acc) ->
  forall acc, for_each body xs acc = for_each body (filter keep xs) acc.
Proof.
  intros H. induction xs as [|b xs IH]; intros acc; simpl; [reflexivity|].
  destruct (keep b) eqn:E; simpl.
  - destruct (body acc b); simpl; auto.
  - rewrite (H acc b E). simpl. apply IH.
Qed.

(** X3: pads, vias, tracks and zones of the target net never contribute to
    the obstacle bitmap: it is the bitmap of the board with those items
    taken away. *)
Theorem own_net_is_no_obstacle :
  forall (fuel : nat) (board : Items) (net_name : string) (bbox : Box2)
    (resolution : Z) (ignored_zone_ids : option (list string)),
    rasterize_obstacles fuel board net_name bbox resolution ignored_zone_ids
    = rasterize_obstacles fuel (foreign_items board net_name) net_name bbox
        resolution ignored_zone_ids.
Proof.
  intros fuel board net_name bbox resolution ign.
  unfold rasterize_obstacles, foreign_items. simpl.
  destruct (int_truediv (vx (size bbox)) resolution); simpl; try reflexivity.
  destruct (int_truediv (vy (size bbox)) resolution); simpl; try reflexivity.
  destruct (np_zeros uint8 _ _) as [b0| |]; simpl; try reflexivity.
  rewrite <- (for_each_filter (stamp_pad net_name bbox resolution)).
  2:{ intros acc p E. unfold stamp_pad.
      apply negb_false_iff in E. now rewrite E. }
  destruct (for_each (stamp_pad _ _ _) _ b0) as [b1| |]; simpl;
    try reflexivity.
  rewrite <- (for_each_filter (stamp_via net_name bbox resolution)).
  2:{ intros acc v E. unfold stamp_via.
      apply negb_false_iff in E. now rewrite E. }
  destruct (for_each (stamp_via _ _ _) _ b1) as [b2| |]; simpl;
    try reflexivity.
  rewrite <- (for_each_filter (stamp_track fuel net_name bbox resolution)).
  2:{ intros acc t E. unfold stamp_track.
      apply negb_false_iff in E. now rewrite E. }
  destruct (for_each (stamp_track _ _ _ _) _ b2) as [b3| |]; simpl;
    try reflexivity.
  apply for_each_filter. intros acc z E. unfold stamp_zone.
  apply negb_false_iff in E. now rewrite E.
Qed.

(** ** Candidate nets, characterised *)

Lemma nets_get_set (d : list (string * list Z)) (k k' : string) (v : list Z) :
  nets_get (nets_set d k v) k'
  = if String.eqb k k' then Some v else nets_get d k'.
Proof.
  induction d as [|[k0 v0] d IH]; simpl.
  - reflexivity.
  - destruct (String.eqb k0 k) eqn:E0; simpl.
    + apply String.eqb_eq in E0. subst k0.
      destruct (String.eqb k k'); reflexivity.
    + destruct (String.eqb k0 k') eqn:E1; [|exact IH].
      apply String.eqb_eq in E1. subst k0.
      rewrite String.eqb_sym in E0. now rewrite E0.
Qed.

Lemma nets_set_In_keys (d : list (string * list Z)) (k0 : string) (v0 : list Z)
  (k : string) :
  In k (map fst (nets_set d k0 v0)) <-> k = k0 \/ In k (map fst d).
Proof.
  split; [apply nets_set_keys|].
  induction d as [|[k' v'] d IH]; simpl.
  - intros [->|[]]. now left.
  - destruct (String.eqb k' k0) eqn:E; simpl.
    + apply String.eqb_eq in E. subst k'. intros [->|[H|H]]; auto.
    + intros [H|[H|H]]; auto.
Qed.

Lemma nets_set_NoDup (d : list (string * list Z)) (k : string) (v : list Z) :
  NoDup (map fst d) -> NoDup (map fst (nets_set d k v)).
Proof.
  induction d as [|[k' v'] d IH]; simpl; intros H.
  - constructor; [intros []|constructor].
  - inversion H as [|? ? Hn Hd]; subst.
    destruct (String.eqb k' k) eqn:E; simpl.
    + apply String.eqb_eq in E. subst k'. now constructor.
    + constructor; [|now apply IH].
      rewrite nets_set_In_keys. intros [->|Hin]; [|contradiction].
      now rewrite String.eqb_refl in E.
Qed.

Lemma nets_get_In (d : list (string * list Z)) (k : string) (v : list Z) :
  NoDup (map fst d) -> (In (k, v) d <-> nets_get d k = Some v).
Proof.
  induction d as [|[k' v'] d IH]; simpl; intros H.
  - split; [intros []|discriminate].
  - inversion H as [|? ? Hn Hd]; subst.
    destruct (String.eqb k' k) eqn:E.
    + apply String.eqb_eq in E. subst k'. split.
      * intros [ [= ->] |Hin]; [reflexivity|].
        exfalso. apply Hn. apply in_map_iff. now exists (k, v).
      * intros [= ->]. now left.
    + apply String.eqb_neq in E. rewrite <- (IH Hd). split.
      * intros [ [= -> _] |Hin]; [contradiction|exact Hin].
      * intros Hin. now right.
Qed.

Lemma set_add_fold (ls : list Z) :
  forall cur,
    NoDup cur ->
    NoDup (fold_left (fun layers layer_id => set_add layer_id layers) ls cur)
    /\ forall l,
         In l (fold_left (fun layers layer_id => set_add layer_id layers) ls cur)
         <-> In l cur \/ In l ls.
Proof.
  induction ls as [|a ls IH]; intros cur Hc; simpl.
  - split; [exact Hc|]. intros l. tauto.
  - assert (Hs : NoDup (set_add a cur) /\ forall l, In l (set_add a cur) <-> In l cur \/ l = a).
    { unfold set_add. destruct (existsb (Z.eqb a) cur) eqn:E.
      - split; [exact Hc|]. intros l. split; [tauto|].
        intros [H| ->]; [exact H|].
        apply existsb_exists in E. destruct E as (x & Hx & Ex).
        apply Z.eqb_eq in Ex. now subst.
      - split.
        + apply (Permutation_NoDup (Permutation_cons_append cur a)).
          constructor; [|exact Hc]. intros Hin.
          assert (existsb (Z.eqb a) cur = true)
            by (apply existsb_exists; exists a; split;
                [exact Hin|apply Z.eqb_refl]).
          congruence.
        + intros l. rewrite in_app_iff. simpl. intuition. }
    destruct Hs as [Hn Hi]. destruct (IH _ Hn) as [Hn' Hi'].
    split; [exact Hn'|]. intros l. rewrite Hi', Hi. intuition.
Qed.

Lemma net_layers_app (pre post : list Zone.t) (k : string) :
  net_layers (pre ++ post) k = net_layers pre k ++ net_layers post k.
Proof. unfold net_layers. now rewrite filter_app, flat_map_app. Qed.

Lemma net_layers_unseen (seen : list Zone.t) (k : string) :
  existsb (zone_of_net k) seen = false -> net_layers seen k = [].
Proof.
  unfold net_layers. induction seen as [|z seen IH]; simpl; [reflexivity|].
  intros H. apply orb_false_iff in H. destruct H as [H1 H2].
  unfold zone_of_net in H1. rewrite H1. now apply IH.
Qed.

Lemma collect_zone_invariant (seen : list Zone.t) (d : list (string * list Z))
  (z : Zone.t) :
  nets_invariant seen d -> nets_invariant (seen ++ [z]) (collect_zone d z).
Proof.
  intros [Hnd Hinv].
  assert (Hskip : (forall k, k <> ""%string -> zone_of_net k z = false) ->
                  nets_invariant (seen ++ [z]) d).
  { intros Hz. split; [exact Hnd|]. intros k. specialize (Hinv k).
    rewrite existsb_app, net_layers_app. simpl. unfold net_layers at 2. simpl.
    fold (zone_of_net k z).
    destruct (nets_get d k) as [v|].
    - destruct Hinv as (Hk & Hs & Hv & Hl).
      rewrite (Hz k Hk), Hs. simpl. rewrite app_nil_r. auto.
    - destruct Hinv as [->|Hs]; [now left|].
      destruct (String.eqb k "") eqn:E.
      + apply String.eqb_eq in E. now left.
      + apply String.eqb_neq in E. right. now rewrite (Hz k E), Hs. }
  unfold collect_zone.
  destruct (Zone.filled z) eqn:Ef; simpl.
  2:{ apply Hskip. intros k _. unfold zone_of_net. now rewrite Ef. }
  destruct (Zone.net z) as [net|] eqn:En.
  2:{ apply Hskip. intros k _. unfold zone_of_net. rewrite En.
      apply andb_false_r. }
  destruct (String.eqb (name net) "") eqn:Ee.
  { apply Hskip. intros k Hk. unfold zone_of_net. rewrite Ef, En. simpl.
    apply String.eqb_eq in Ee. rewrite Ee. apply String.eqb_neq. congruence. }
  apply String.eqb_neq in Ee.
  set (n := name net) in *.
  set (cur := match nets_get d n with Some layers => layers | None => [] end).
  assert (Hcur : NoDup cur /\ forall l, In l cur <-> In l (net_layers seen n)).
  { subst cur. specialize (Hinv n). destruct (nets_get d n) as [v|].
    - tauto.
    - destruct Hinv as [H|H]; [contradiction|].
      rewrite (net_layers_unseen _ _ H). split; [constructor|tauto]. }
  destruct Hcur as [Hcn Hcl].
  destruct (set_add_fold (Zone.layers z) cur Hcn) as [Hvn Hvl].
  split; [now apply nets_set_NoDup|].
  intros k. rewrite nets_get_set.
  rewrite existsb_app, net_layers_app. simpl. unfold net_layers at 2. simpl.
  fold (zone_of_net k z).
  assert (Hzk : zone_of_net k z = String.eqb n k).
  { unfold zone_of_net. now rewrite Ef, En. }
  rewrite Hzk.
  destruct (String.eqb n k) eqn:Enk.
  - apply String.eqb_eq in Enk. subst k.
    split; [exact Ee|]. split; [apply orb_true_r|]. split; [exact Hvn|].
    intros l. rewrite Hvl, Hcl, in_app_iff. simpl. rewrite app_nil_r. tauto.
  - specialize (Hinv k). destruct (nets_get d k) as [v|].
    + destruct Hinv as (Hk & Hs & Hv & Hl). rewrite Hs. simpl.
      rewrite app_nil_r. auto.
    + destruct Hinv as [->|Hs]; [now left|]. right. now rewrite Hs.
Qed.

Lemma collect_zones_invariant (zones : list Zone.t) :
  forall seen d,
    nets_invariant seen d ->
    nets_invariant (seen ++ zones) (fold_left collect_zone zones d).
Proof.
  induction zones as [|z zones IH]; intros seen d H; simpl.
  - now rewrite app_nil_r.
  - replace (seen ++ z :: zones) with ((seen ++ [z]) ++ zones)
      by now rewrite <- app_assoc.
    apply IH. now apply collect_zone_invariant.
Qed.

Lemma nets_invariant_nil : nets_invariant [] [].
Proof. split; [constructor|]. intros k. now right. Qed.

Lemma two_distinct (v : list Z) :
  NoDup v ->
  ((1 < length v)%nat <-> exists l1 l2, l1 <> l2 /\ In l1 v /\ In l2 v).
Proof.
  intros H. split.
  - destruct v as [|a [|b v]]; simpl; try lia. intros _.
    exists a, b. inversion H as [|? ? Hn _]; subst. simpl in Hn.
    split; [intros ->; apply Hn; now left|]. split; [now left|right; now left].
  - intros (l1 & l2 & Hne & H1 & H2).
    destruct v as [|a [|b v]]; simpl in *; lia.
Qed.

Lemma insert_string_sorted (s : string) (xs : list string) :
  Sorted (fun a b => String.leb a b = true) xs ->
  Sorted (fun a b => String.leb a b = true) (insert_string s xs).
Proof.
  induction 1 as [|h t Hs IH Hh]; simpl.
  - repeat constructor.
  - destruct (String.leb s h) eqn:E.
    + constructor; [now constructor|now constructor].
    + assert (Hhs : String.leb h s = true)
        by (destruct (String.leb_total s h); congruence).
      constructor; [exact IH|].
      destruct t as [|h' t]; simpl.
      * now constructor.
      * inversion Hh; subst. destruct (String.leb s h'); now constructor.
Qed.

Lemma sorted_sorted (xs : list string) :
  Sorted (fun a b => String.leb a b = true) (sorted xs).
Proof.
  induction xs as [|h t IH]; simpl; [constructor|].
  now apply insert_string_sorted.
Qed.

Lemma insert_string_perm (s : string) (xs : list string) :
  Permutation (insert_string s xs) (s :: xs).
Proof.
  induction xs as [|h t IH]; simpl; [reflexivity|].
  destruct (String.leb s h); [reflexivity|].
  rewrite IH. apply perm_swap.
Qed.

Lemma sorted_perm (xs : list string) : Permutation (sorted xs) xs.
Proof.
  induction xs as [|h t IH]; simpl; [reflexivity|].
  rewrite insert_string_perm. now constructor.
Qed.

Lemma NoDup_keys_filter (f : string * list Z -> bool)
  (d : list (string * list Z)) :
  NoDup (map fst d) -> NoDup (map fst (filter f d)).
Proof.
  induction d as [|[k v] d IH]; simpl; intros H; [constructor|].
  inversion H as [|? ? Hn Hd]; subst.
  destruct (f (k, v)); simpl; [|now apply IH].
  constructor; [|now apply IH].
  intros Hin. apply Hn. apply in_map_iff in Hin.
  destruct Hin as (p & Hp & Hin). apply filter_In in Hin.
  apply in_map_iff. exists p. tauto.
Qed.

(** X4: [get_candidate_nets] returns, in ascending order and without
    repetition, exactly the non-empty net names whose filled zones lie on at
    least two distinct layer ids; a net whose filled zones share a single
    layer id is left out. *)
Theorem candidate_nets_characterised :
  forall board : Items,
    Sorted (fun a b => String.leb a b = true) (get_candidate_nets board)
    /\ NoDup (get_candidate_nets board)
    /\ (forall n,
          In n (get_candidate_nets board)
          <-> n <> ""%string
              /\ exists l1 l2,
                   l1 <> l2
                   /\ In l1 (net_layers (get_zones board) n)
                   /\ In l2 (net_layers (get_zones board) n)).
Proof.
  intros board. unfold get_candidate_nets.
  destruct (collect_zones_invariant (get_zones board) [] [] nets_invariant_nil)
    as [Hnd Hinv]. simpl in Hnd, Hinv.
  set (d := fold_left collect_zone (get_zones board) []) in *.
  split; [apply sorted_sorted|].
  split.
  - apply (Permutation_NoDup (Permutation_sym (sorted_perm _))).
    now apply NoDup_keys_filter.
  - intros n. rewrite In_sorted, in_map_iff. split.
    + intros ([k v] & Hk & Hin). simpl in Hk. subst k.
      apply filter_In in Hin. destruct Hin as [Hin Hlen]. simpl in Hlen.
      apply Nat.ltb_lt in Hlen.
      apply (nets_get_In d n v Hnd) in Hin.
      specialize (Hinv n). rewrite Hin in Hinv.
      destruct Hinv as (Hne & _ & Hv & Hl). split; [exact Hne|].
      apply (two_distinct v Hv) in Hlen.
      destruct Hlen as (l1 & l2 & Hd & H1 & H2).
      exists l1, l2. rewrite <- !Hl. auto.
    + intros (Hne & l1 & l2 & Hd & H1 & H2).
      specialize (Hinv n). destruct (nets_get d n) as [v|] eqn:Eg.
      * destruct Hinv as (_ & _ & Hv & Hl).
        exists (n, v). split; [reflexivity|]. apply filter_In.
        split; [now apply nets_get_In|]. simpl. apply Nat.ltb_lt.
        apply (two_distinct v Hv). exists l1, l2. rewrite !Hl. auto.
      * destruct Hinv as [H|H]; [contradiction|].
        rewrite (net_layers_unseen _ _ H) in H1. destruct H1.
Qed.

(** ** Where the candidates lie *)

Section SamplerSound.
Variables (number : Type) (int_times : number -> Z -> Z).
Variables (V : ndarray) (overall_bbox : Box2).
Variables (target_net : Net) (via_diameter via_drill : number).
Variables (end_x end_y gx gy : Z) (stagger cb : bool) (total_points : Z).

Lemma sample_column_sound (fuel : nat) :
  forall x y vias pc r pc',
    sample_column number int_times V overall_bbox target_net via_diameter
      via_drill end_y gy fuel x y vias pc = Ok (r, pc') ->
    forall v, In v r ->
      In v vias
      \/ exists j,
           0 <= j /\ y + j * gy <= end_y
           /\ v = new_via number int_times target_net via_diameter via_drill
                    x (y + j * gy)
           /\ valid_at V (Z.quot (x - vx (pos overall_bbox)) RESOLUTION)
                (Z.quot (y + j * gy - vy (pos overall_bbox)) RESOLUTION) = true.
Proof.
  induction fuel as [|fuel IH]; intros x y vias pc r pc'; [discriminate|].
  cbn [sample_column]. destruct (y <=? end_y) eqn:Ey.
  - rewrite !int_truediv_ok by (unfold RESOLUTION; lia). cbn [bind].
    intros H v Hv. apply Z.leb_le in Ey.
    destruct (IH _ _ _ _ _ _ H v Hv) as [Hin|(j & Hj & Hle & -> & Hvalid)].
    + destruct (valid_at V _ _) eqn:Eval; [|now left].
      apply in_app_or in Hin. destruct Hin as [Hin|[<-|[]]]; [now left|].
      right. exists 0. rewrite Z.mul_0_l, Z.add_0_r.
      repeat split; auto; lia.
    + right. exists (j + 1).
      replace (y + (j + 1) * gy) with (y + gy + j * gy) by lia.
      repeat split; auto; lia.
  - unfold ret. intros [= <- <-] v Hv. now left.
Qed.

Lemma sample_grid_sound (budget fuel : nat) :
  forall x row vias pc log log' r,
    sample_grid number int_times V overall_bbox target_net via_diameter
      via_drill end_x end_y gx gy stagger cb total_points budget fuel x row
      vias pc log = (log', Ok r) ->
    forall v, In v r ->
      In v vias
      \/ exists i j,
           0 <= i /\ 0 <= j
           /\ x + i * gx <= end_x
           /\ let px := x + i * gx in
              let py := vy (pos overall_bbox)
                        + (if stagger && ((row + i) mod 2 =? 1)
                           then gy / 2 else 0)
                        + j * gy in
              py <= end_y
              /\ v = new_via number int_times target_net via_diameter
                       via_drill px py
              /\ valid_at V (Z.quot (px - vx (pos overall_bbox)) RESOLUTION)
                   (Z.quot (py - vy (pos overall_bbox)) RESOLUTION) = true.
Proof.
  induction fuel as [|fuel IH]; intros x row vias pc log log' r;
    [discriminate|].
  cbn [sample_grid]. destruct (x <=? end_x) eqn:Ex.
  - unfold bindM at 1. unfold lift at 1.
    destruct (sample_column number int_times V _ _ _ _ _ _ budget x _ vias pc)
      as [[c1 pc1]| |] eqn:E1; try discriminate.
    unfold bindM at 1.
    destruct (if total_points >? 0
              then progress cb (grid_progress total_points pc1)
                     (grid_status total_points pc1)
              else retM tt) as [l [[]| |]]; try discriminate.
    intros H v Hv. apply Z.leb_le in Ex.
    destruct (IH _ _ _ _ _ _ _ H v Hv)
      as [Hin|(i & j & Hi & Hj & Hx & Hy & -> & Hvalid)].
    + destruct (sample_column_sound budget _ _ _ _ _ _ E1 v Hin)
        as [Hin'|(j & Hj & Hle & -> & Hvalid)]; [now left|].
      right. exists 0, j. rewrite Z.mul_0_l, !Z.add_0_r.
      repeat split; auto; lia.
    + right. exists (i + 1), j.
      replace (x + (i + 1) * gx) with (x + gx + i * gx) by lia.
      replace (row + (i + 1)) with (row + 1 + i) by lia.
      repeat split; auto; lia.
  - unfold retM. intros [= <- <-] v Hv. now left.
Qed.
End SamplerSound.

(** What a run of the first four steps of [stitch] went through. *)
Lemma candidates_inv (number : Type) (int_times : number -> Z -> Z)
  (fuel : nat) (board : Board) (net_name : string) (target_net : Net)
  (zones : list Zone.t) (overall_bbox : Box2)
  (via_diameter via_drill grid_x grid_y : number) (stagger : bool)
  (ignored : list string) (cb : bool) (log log' : list event)
  (vias : list Via.t) :
  candidates number int_times fuel board net_name target_net zones
    overall_bbox via_diameter via_drill grid_x grid_y stagger ignored cb log
  = (log', Ok vias) ->
  exists zone_bitmap obstacle_bitmap total_points log0,
    rasterize_zones_by_layer zones overall_bbox RESOLUTION = Ok zone_bitmap
    /\ rasterize_obstacles fuel (items board) net_name overall_bbox RESOLUTION
         (Some ignored) = Ok obstacle_bitmap
    /\ sample_grid number int_times
         (binary_erosion (valid_area zone_bitmap obstacle_bitmap) 2)
         overall_bbox target_net via_diameter via_drill
         (vx (pos overall_bbox) + vx (size overall_bbox))
         (vy (pos overall_bbox) + vy (size overall_bbox))
         (clamp_spacing (int_times grid_x SCALE))
         (clamp_spacing (int_times grid_y SCALE))
         stagger cb total_points fuel fuel (vx (pos overall_bbox)) 0 [] 0 log0
       = (log', Ok vias).
Proof.
  unfold candidates, bindM, lift. run_progress.
  destruct (rasterize_zones_by_layer zones overall_bbox RESOLUTION)
    as [zb| |]; run_progress; try discriminate.
  destruct (rasterize_obstacles fuel (items board) net_name overall_bbox
              RESOLUTION (Some ignored)) as [ob| |];
    run_progress; try discriminate.
  change (apply_clearance (valid_area zb ob) CLEARANCE RESOLUTION)
    with (Ok (binary_erosion (valid_area zb ob) 2)).
  run_progress.
  destruct (int_truediv _ (clamp_spacing (int_times grid_x SCALE)))
    as [cols| |]; run_progress; try discriminate.
  destruct (int_truediv _ (clamp_spacing (int_times grid_y SCALE)))
    as [rows| |]; run_progress; try discriminate.
  intros H. do 4 eexists. split; [reflexivity|]. split; [reflexivity|].
  exact H.
Qed.

(** X5: every via that the grid walk of [stitch] proposes carries the target
    net and the converted diameter and drill, lies inside the bounding box,
    and sits on the lattice: its x is the left edge plus a multiple [i] of
    the x spacing, its y the top edge plus a multiple of the y spacing, and
    plus half the y spacing (rounded down) when [stagger] is set and [i] is
    odd. *)
Theorem candidates_lie_on_the_lattice :
  forall (number : Type) (int_times : number -> Z -> Z) (fuel : nat)
    (board : Board) (net_name : string) (target_net : Net)
    (zones : list Zone.t) (overall_bbox : Box2)
    (via_diameter via_drill grid_x grid_y : number) (stagger : bool)
    (ignored_zone_ids : list string) (progress_callback : bool)
    (log log' : list event) (vias_to_add : list Via.t),
    candidates number int_times fuel board net_name target_net zones
      overall_bbox via_diameter via_drill grid_x grid_y stagger
      ignored_zone_ids progress_callback log
    = (log', Ok vias_to_add) ->
    let gx := clamp_spacing (int_times grid_x SCALE) in
    let gy := clamp_spacing (int_times grid_y SCALE) in
    let start_x := vx (pos overall_bbox) in
    let start_y := vy (pos overall_bbox) in
    forall v, In v vias_to_add ->
      Via.net v = Some target_net
      /\ Via.diameter v = int_times via_diameter SCALE
      /\ Via.drill_diameter v = int_times via_drill SCALE
      /\ start_x <= vx (Via.position v) <= start_x + vx (size overall_bbox)
      /\ start_y <= vy (Via.position v) <= start_y + vy (size overall_bbox)
      /\ exists i j,
           0 <= i /\ 0 <= j
           /\ vx (Via.position v) = start_x + i * gx
           /\ vy (Via.position v)
              = start_y
                + (if stagger && (i mod 2 =? 1) then gy / 2 else 0)
                + j * gy.
Proof.
  intros number int_times fuel board net_name target zones bbox vd vdr
    grid_x grid_y stagger ign cb log log' vias H gx gy start_x start_y v Hv.
  destruct (candidates_inv _ _ _ _ _ _ _ _ _ _ _ _ _ _ _ _ _ _ H)
    as (zb & ob & tp & log0 & _ & _ & Hgrid).
  destruct (sample_grid_sound _ _ _ _ _ _ _ _ _ _ _ _ _ _ _ _ _ _ _ _ _ _ _
              Hgrid v Hv)
    as [[]|(i & j & Hi & Hj & Hx & Hy & -> & _)].
  fold gx gy start_x start_y in Hx, Hy |- *.
  pose proof (clamp_spacing_pos (int_times grid_x SCALE)) as Hgx.
  pose proof (clamp_spacing_pos (int_times grid_y SCALE)) as Hgy.
  fold gx in Hgx. fold gy in Hgy.
  assert (Hoff : 0 <= (if stagger && (i mod 2 =? 1) then gy / 2 else 0)).
  { destruct (stagger && (i mod 2 =? 1)); [apply Z.div_pos|]; lia. }
  change (0 + i) with i in *.
  cbn [new_via Via.net Via.diameter Via.drill_diameter Via.position vx vy].
  assert (0 <= i * gx) by nia. assert (0 <= j * gy) by nia.
  split; [reflexivity|]. split; [reflexivity|]. split; [reflexivity|].
  split; [lia|]. split; [lia|].
  exists i, j. auto.
Qed.

Lemma candidates_lie_on_the_lattice_witness :
  Via.net (new_via Z int_times_Z GND 1 1 1000000 1000000) = Some GND
  /\ Via.diameter (new_via Z int_times_Z GND 1 1 1000000 1000000)
     = int_times_Z 1 SCALE
  /\ Via.drill_diameter (new_via Z int_times_Z GND 1 1 1000000 1000000)
     = int_times_Z 1 SCALE
  /\ 0 <= 1000000 <= 0 + 2000000
  /\ 0 <= 1000000 <= 0 + 2000000
  /\ exists i j,
       0 <= i /\ 0 <= j
       /\ 1000000 = 0 + i * 1000000
       /\ 1000000
          = 0 + (if false && (i mod 2 =? 1) then 1000000 / 2 else 0)
            + j * 1000000.
Proof.
  apply (candidates_lie_on_the_lattice Z int_times_Z 10 gnd_board "GND" GND
           [gnd_zone] (box 2000000) 1 1 1 1 false [] false [] []
           [new_via Z int_times_Z GND 1 1 1000000 1000000]).
  - vm_compute. reflexivity.
  - now left.
Defined.

(** X6: every via that the grid walk of [stitch] proposes keeps the
    clearance in the bitmaps: all pixels within Chebyshev distance 2 of the
    via's pixel lie inside the bitmap, are covered by the target net on at
    least two layers and hold no obstacle. *)
Theorem candidates_keep_clearance :
  forall (number : Type) (int_times : number -> Z -> Z) (fuel : nat)
    (board : Board) (net_name : string) (target_net : Net)
    (zones : list Zone.t) (overall_bbox : Box2)
    (via_diameter via_drill grid_x grid_y : number) (stagger : bool)
    (ignored_zone_ids : list string) (progress_callback : bool)
    (log log' : list event) (vias_to_add : list Via.t),
    candidates number int_times fuel board net_name target_net zones
      overall_bbox via_diameter via_drill grid_x grid_y stagger
      ignored_zone_ids progress_callback log
    = (log', Ok vias_to_add) ->
    exists zone_bitmap obstacle_bitmap,
      rasterize_zones_by_layer zones overall_bbox RESOLUTION = Ok zone_bitmap
      /\ rasterize_obstacles fuel (items board) net_name overall_bbox
           RESOLUTION (Some ignored_zone_ids) = Ok obstacle_bitmap
      /\ forall v y x,
           In v vias_to_add ->
           chebyshev (pixel_y overall_bbox (Via.position v))
             (pixel_x overall_bbox (Via.position v)) y x <= 2 ->
           in_bounds zone_bitmap y x = true
           /\ 2 <= get zone_bitmap y x
           /\ get obstacle_bitmap y x = 0.
Proof.
  intros number int_times fuel board net_name target zones bbox vd vdr
    grid_x grid_y stagger ign cb log log' vias H.
  destruct (candidates_inv _ _ _ _ _ _ _ _ _ _ _ _ _ _ _ _ _ _ H)
    as (zb & ob & tp & log0 & Hzb & Hob & Hgrid).
  exists zb, ob. split; [exact Hzb|]. split; [exact Hob|].
  intros v y x Hv Hd.
  destruct (sample_grid_sound _ _ _ _ _ _ _ _ _ _ _ _ _ _ _ _ _ _ _ _ _ _ _
              Hgrid v Hv)
    as [[]|(i & j & Hi & Hj & Hx & Hy & -> & Hvalid)].
  unfold pixel_x, pixel_y in Hd. cbn [new_via Via.position vx vy] in Hd.
  unfold valid_at in Hvalid. rewrite !andb_true_iff in Hvalid.
  destruct Hvalid as (_ & Hpos).
  match type of Hpos with
  | (get ?a ?py ?px >? 0) = true =>
      assert (Hk : get a py px <> 0) by lia
  end.
  destruct (binary_erosion_kept _ _ _ _ Hk) as (_ & _ & Hall).
  destruct (Hall y x Hd) as [Hin Hne].
  split; [exact Hin|].
  unfold valid_area in Hne. rewrite get_tabulate_cases in Hne.
  destruct (_ && _ && _ && _); [|congruence].
  destruct (get zb y x >=? 2) eqn:E1; [|simpl in Hne; congruence].
  destruct (get ob y x =? 0) eqn:E2; [|simpl in Hne; congruence].
  split; lia.
Qed.

Lemma candidates_keep_clearance_witness :
  exists zone_bitmap obstacle_bitmap,
    rasterize_zones_by_layer [gnd_zone] (box 2000000) RESOLUTION
    = Ok zone_bitmap
    /\ rasterize_obstacles 10 (items gnd_board) "GND" (box 2000000) RESOLUTION
         (Some []) = Ok obstacle_bitmap
    /\ forall v y x,
         In v [new_via Z int_times_Z GND 1 1 1000000 1000000] ->
         chebyshev (pixel_y (box 2000000) (Via.position v))
           (pixel_x (box 2000000) (Via.position v)) y x <= 2 ->
         in_bounds zone_bitmap y x = true
         /\ 2 <= get zone_bitmap y x
         /\ get obstacle_bitmap y x = 0.
Proof.
  apply (candidates_keep_clearance Z int_times_Z 10 gnd_board "GND" GND
           [gnd_zone] (box 2000000) 1 1 1 1 false [] false [] []).
  vm_compute. reflexivity.
Defined.

(** ** Layer coverage *)

Lemma for_each_invariant_in {A B} (P : A -> Prop) (body : A -> B -> res A)
  (xs : list B) :
  (forall a b a', In b xs -> P a -> body a b = Ok a' -> P a') ->
  forall acc r, P acc -> for_each body xs acc = Ok r -> P r.
Proof.
  induction xs as [|v xs IH]; intros Hbody acc r Hacc; simpl.
  - now intros [= <-].
  - destruct (body acc v) as [a'| |] eqn:E; simpl; try discriminate.
    apply IH.
    + intros a b a'' Hb. apply Hbody. now right.
    + eapply Hbody; [now left|exact Hacc|exact E].
Qed.

Lemma for_each_ok {A B} (body : A -> B -> res A) (xs : list B) :
  (forall a b, exists a', body a b = Ok a') ->
  forall acc, exists r, for_each body xs acc = Ok r.
Proof.
  intros H. induction xs as [|v xs IH]; intros acc; simpl.
  - now exists acc.
  - destruct (H acc v) as [a' E]. rewrite E. simpl. apply IH.
Qed.

Lemma dict_set_In_keys {V} (d : list (Z * V)) (k0 : Z) (v0 : V) (k : Z) :
  In k (map fst (dict_set d k0 v0)) <-> k = k0 \/ In k (map fst d).
Proof.
  induction d as [|[k' v'] d IH]; simpl.
  - intuition.
  - destruct (k' =? k0) eqn:E; simpl.
    + apply Z.eqb_eq in E. subst k'. intuition.
    + rewrite IH. intuition.
Qed.

Lemma dict_set_NoDup {V} (d : list (Z * V)) (k : Z) (v : V) :
  NoDup (map fst d) -> NoDup (map fst (dict_set d k v)).
Proof.
  induction d as [|[k' v'] d IH]; simpl; intros H.
  - constructor; [intros []|constructor].
  - inversion H as [|? ? Hn Hd]; subst.
    destruct (k' =? k) eqn:E; simpl.
    + apply Z.eqb_eq in E. subst k'. now constructor.
    + constructor; [|now apply IH].
      rewrite dict_set_In_keys. apply Z.eqb_neq in E. intros [H1|H1]; auto.
Qed.

Lemma layer_maps_keys (bbox : Box2) (resolution h w : Z)
  (zones : list Zone.t) (layer_maps : list (Z * ndarray)) :
  for_each (rasterize_zone bbox resolution h w) zones [] = Ok layer_maps ->
  NoDup (map fst layer_maps)
  /\ incl (map fst layer_maps) (fill_layer_ids zones).
Proof.
  apply (for_each_invariant_in
           (fun lm => NoDup (map fst lm)
                      /\ incl (map fst lm) (fill_layer_ids zones))).
  - intros lm z lm' Hz Hlm. unfold rasterize_zone.
    destruct (Zone.filled_polygons z) as [polys_dict|] eqn:Ed;
      [|now intros [= <-]].
    apply (for_each_invariant_in
             (fun lm => NoDup (map fst lm)
                        /\ incl (map fst lm) (fill_layer_ids zones)));
      [|exact Hlm].
    intros a [layer_id poly_list] a' Hitem [Hnd Hincl].
    unfold rasterize_zone_layer.
    destruct poly_list as [|poly polys] eqn:Ep; [now intros [= <-]|].
    rewrite <- Ep.
    destruct (match dict_get a layer_id with
              | Some m => ret m
              | None => np_zeros uint8 h w
              end) as [m| |]; simpl; try discriminate.
    destruct (for_each _ poly_list m) as [m'| |]; simpl; try discriminate.
    intros [= <-]. split; [now apply dict_set_NoDup|].
    intros k Hk. apply dict_set_In_keys in Hk. destruct Hk as [->|Hk];
      [|now apply Hincl].
    unfold fill_layer_ids. apply in_flat_map. exists z. split; [exact Hz|].
    rewrite Ed. apply in_map_iff. exists (layer_id, poly_list).
    split; [reflexivity|]. apply filter_In. rewrite <- Ep in Hitem.
    split; [exact Hitem|]. now rewrite Ep.
  - split; [constructor|]. intros k [].
Qed.

Lemma wrap_int32_id (z : Z) :
  -2147483648 <= z < 2147483648 -> wrap int32 z = z.
Proof. intros H. simpl. rewrite Z.mod_small; lia. Qed.

Lemma count_layers_bound (maps : list ndarray) :
  forall (bitmap : ndarray) (n0 : Z),
    dt bitmap = int32 ->
    (forall y x, 0 <= get bitmap y x <= n0) ->
    n0 + Z.of_nat (length maps) < 2147483648 ->
    let r := fold_left count_layer maps bitmap in
    same_shape bitmap r
    /\ forall y x, 0 <= get r y x <= n0 + Z.of_nat (length maps).
Proof.
  induction maps as [|m maps IH]; intros bitmap n0 Hdt Hb Hn; simpl.
  - split; [apply same_shape_refl|]. intros y x. specialize (Hb y x). lia.
  - cbn [length] in Hn.
    assert (H1 : same_shape bitmap (count_layer bitmap m)) by (repeat split).
    assert (H2 : forall y x, 0 <= get (count_layer bitmap m) y x <= n0 + 1).
    { intros y x. unfold count_layer. rewrite get_tabulate_cases, Hdt.
      specialize (Hb y x). destruct (_ && _ && _ && _); [|lia].
      rewrite wrap_int32_id; destruct (get m y x >? 0); lia. }
    destruct (IH (count_layer bitmap m) (n0 + 1)) as [H3 H4];
      [exact Hdt|exact H2|lia|].
    split; [exact (same_shape_trans _ _ _ H1 H3)|].
    intros y x. specialize (H4 y x). cbn [length]. lia.
Qed.

Lemma coverage_bound (zones : list Zone.t) (bbox : Box2) (resolution : Z)
  (bitmap : ndarray) :
  rasterize_zones_by_layer zones bbox resolution = Ok bitmap ->
  Z.of_nat (length (nodup Z.eq_dec (fill_layer_ids zones))) < 2147483648 ->
  dt bitmap = int32
  /\ height bitmap = Z.quot (vy (size bbox)) resolution + 1
  /\ width bitmap = Z.quot (vx (size bbox)) resolution + 1
  /\ forall y x,
       0 <= get bitmap y x
       <= Z.of_nat (length (nodup Z.eq_dec (fill_layer_ids zones))).
Proof.
  unfold rasterize_zones_by_layer, int_truediv.
  destruct (resolution =? 0); simpl; [discriminate|].
  unfold np_zeros. destruct (_ || _); simpl; [discriminate|].
  destruct (for_each _ zones []) as [lm| |] eqn:E; simpl; try discriminate.
  intros [= <-] Hlen.
  destruct (layer_maps_keys _ _ _ _ _ _ E) as [Hnd Hincl].
  assert (Hlm : (length lm <= length (nodup Z.eq_dec (fill_layer_ids zones)))%nat).
  { rewrite <- (length_map fst lm). apply NoDup_incl_length; [exact Hnd|].
    intros k Hk. apply nodup_In. now apply Hincl. }
  destruct (count_layers_bound (map snd lm)
              (tabulate int32 (Z.quot (vy (size bbox)) resolution + 1)
                 (Z.quot (vx (size bbox)) resolution + 1) (fun _ _ => 0)) 0)
    as [(Hd & Hh & Hw) Hb].
  - reflexivity.
  - intros y x. rewrite get_tabulate_cases. destruct (_ && _ && _ && _); lia.
  - rewrite length_map. lia.
  - split; [exact Hd|]. split; [exact Hh|]. split; [exact Hw|].
    intros y x. specialize (Hb y x). rewrite length_map in Hb. lia.
Qed.

Lemma rasterize_polygon_ok (bitmap : ndarray) (nodes : list PolyLineNode)
  (bbox : Box2) (resolution : Z) :
  resolution <> 0 ->
  exists bitmap', rasterize_polygon bitmap nodes bbox resolution 1 = Ok bitmap'.
Proof.
  intros H. destruct (rasterize_outline_get bitmap nodes bbox resolution H)
    as (b & E & _). now exists b.
Qed.

Lemma layer_maps_ok (bbox : Box2) (resolution h w : Z) (zones : list Zone.t) :
  resolution <> 0 -> 0 <= h -> 0 <= w ->
  forall layer_maps,
    exists layer_maps',
      for_each (rasterize_zone bbox resolution h w) zones layer_maps
      = Ok layer_maps'.
Proof.
  intros Hres Hh Hw. apply for_each_ok. intros lm z. unfold rasterize_zone.
  destruct (Zone.filled_polygons z) as [polys_dict|]; [|now exists lm].
  apply for_each_ok. intros a [layer_id poly_list].
  unfold rasterize_zone_layer.
  destruct poly_list as [|poly polys] eqn:Ep; [now exists a|].
  rewrite <- Ep.
  assert (Hz : exists m, match dict_get a layer_id with
                         | Some m => ret m
                         | None => np_zeros uint8 h w
                         end = Ok m).
  { destruct (dict_get a layer_id) as [m|]; [now exists m|].
    unfold np_zeros.
    replace ((h <? 0) || (w <? 0)) with false by lia. eexists. reflexivity. }
  destruct Hz as [m ->]. simpl.
  destruct (for_each_ok (rasterize_zone_poly bbox resolution h w) poly_list)
    with (acc := m) as [m' E].
  { intros b p. unfold rasterize_zone_poly.
    destruct (outline p) as [nodes|]; [|now exists b].
    destruct (rasterize_polygon_ok b nodes bbox resolution Hres) as [b1 ->].
    simpl. destruct (holes p) as [hs|]; [|now exists b1].
    apply for_each_ok. intros c hole. unfold subtract_hole.
    destruct hole as [hole_nodes|]; [|now exists c].
    unfold np_zeros. replace ((h <? 0) || (w <? 0)) with false by lia.
    simpl.
    destruct (rasterize_polygon_ok
                (tabulate uint8 h w (fun _ _ => 0)) hole_nodes bbox resolution
                Hres) as [t ->].
    simpl. eexists. reflexivity. }
  rewrite E. simpl. eexists. reflexivity.
Qed.

(** X7: for a positive resolution and a bounding box of non-negative size,
    [rasterize_zones_by_layer] returns an int32 bitmap of
    [size.y / resolution + 1] rows and [size.x / resolution + 1] columns in
    which every cell lies between 0 and the number of distinct layer ids
    under which the zones hold fill polygons. *)
Theorem coverage_counts_layers :
  forall (zones : list Zone.t) (bbox : Box2) (resolution : Z),
    0 < resolution -> 0 <= vx (size bbox) -> 0 <= vy (size bbox) ->
    Z.of_nat (length (nodup Z.eq_dec (fill_layer_ids zones))) < 2147483648 ->
    exists bitmap,
      rasterize_zones_by_layer zones bbox resolution = Ok bitmap
      /\ dt bitmap = int32
      /\ height bitmap = vy (size bbox) / resolution + 1
      /\ width bitmap = vx (size bbox) / resolution + 1
      /\ forall y x,
           0 <= get bitmap y x
           <= Z.of_nat (length (nodup Z.eq_dec (fill_layer_ids zones))).
Proof.
  intros zones bbox resolution Hres Hx Hy Hlen.
  assert (Hqx : Z.quot (vx (size bbox)) resolution = vx (size bbox) / resolution)
    by (apply quot_floor; lia).
  assert (Hqy : Z.quot (vy (size bbox)) resolution = vy (size bbox) / resolution)
    by (apply quot_floor; lia).
  assert (Hdx : 0 <= vx (size bbox) / resolution) by (apply Z.div_pos; lia).
  assert (Hdy : 0 <= vy (size bbox) / resolution) by (apply Z.div_pos; lia).
  assert (Hok : exists bitmap,
             rasterize_zones_by_layer zones bbox resolution = Ok bitmap).
  { unfold rasterize_zones_by_layer.
    rewrite !int_truediv_ok by lia. simpl. rewrite Hqx, Hqy.
    unfold np_zeros.
    replace ((vy (size bbox) / resolution + 1 <? 0)
             || (vx (size bbox) / resolution + 1 <? 0)) with false by lia.
    simpl.
    destruct (layer_maps_ok bbox resolution (vy (size bbox) / resolution + 1)
                (vx (size bbox) / resolution + 1) zones) with (layer_maps := @nil (Z * ndarray))
      as [lm E]; try lia.
    rewrite E. simpl. eexists. reflexivity. }
  destruct Hok as [bitmap E]. exists bitmap. split; [exact E|].
  destruct (coverage_bound zones bbox resolution bitmap E Hlen)
    as (Hd & Hh & Hw & Hb).
  rewrite Hqy in Hh. rewrite Hqx in Hw. auto.
Qed.

Lemma coverage_counts_layers_witness :
  exists bitmap,
    rasterize_zones_by_layer [gnd_zone] (box 2000000) 100000 = Ok bitmap
    /\ dt bitmap = int32
    /\ height bitmap = vy (size (box 2000000)) / 100000 + 1
    /\ width bitmap = vx (size (box 2000000)) / 100000 + 1
    /\ forall y x,
         0 <= get bitmap y x
         <= Z.of_nat (length (nodup Z.eq_dec (fill_layer_ids [gnd_zone]))).
Proof.
  apply (coverage_counts_layers [gnd_zone] (box 2000000) 100000);
    simpl; lia.
Defined.

(** ** A net on a single layer *)

Lemma commit_nothing (board : Board) (refill_after cb : bool)
  (log : list event) :
  exists log' r,
    commit board refill_after cb [] log = (log', r)
    /\ (forall c, In c (calls_of log') ->
                  In c (calls_of log) \/ c = refill_zones)
    /\ (forall n, r = Ok n -> n = 0).
Proof.
  unfold commit, bindM, retM. rewrite progress_eq. cbn beta iota.
  destruct refill_after.
  - rewrite progress_eq. cbn beta iota. unfold board_call.
    destruct (raises board _ refill_zones); do 2 eexists;
      (split; [reflexivity|]); (split; [|intros n Hn; now inversion Hn]).
    all: intros c Hc; rewrite calls_of_app, !calls_of_progress in Hc;
      apply in_app_or in Hc; destruct Hc as [Hc|[<-|[]]]; auto.
  - do 2 eexists. split; [reflexivity|]. split.
    + intros c Hc. rewrite calls_of_progress in Hc. now left.
    + intros n Hn. now inversion Hn.
Qed.

Lemma In_calls_of (log : list event) (c : call) :
  In c (calls_of log) <-> In (Call c) log.
Proof.
  unfold calls_of. rewrite in_flat_map. split.
  - intros ([c'| |] & He & Hc); simpl in Hc; try contradiction.
    destruct Hc as [<-|[]]. exact He.
  - intros H. exists (Call c). split; [exact H|now left].
Qed.

Lemma overall_bounding_box_none (zones : list Zone.t) :
  overall_bounding_box zones = None -> zones = [].
Proof.
  destruct zones as [|z zs]; [reflexivity|]. intros H. exfalso. revert H.
  unfold overall_bounding_box. simpl.
  generalize (Zone.bounding_box z). induction zs as [|z' zs IH];
    intros b; simpl; [discriminate|apply IH].
Qed.

Lemma stitch_found_run (number : Type) (int_times : number -> Z -> Z)
  (fuel : nat) (board : Board) (net_name : string)
  (via_diameter via_drill grid_x grid_y : number) (stagger : bool)
  (ignored_zone_ids : option (list string)) (refill_after cb : bool)
  (target_net : Net) (overall_bbox : Box2) :
  target_net_of board net_name = Some target_net ->
  overall_bounding_box (target_zones board net_name) = Some overall_bbox ->
  stitch number int_times fuel board net_name via_diameter via_drill grid_x
    grid_y stagger ignored_zone_ids refill_after cb []
  = let '(log1, r1) :=
      candidates number int_times fuel board net_name target_net
        (target_zones board net_name) overall_bbox via_diameter via_drill
        grid_x grid_y stagger
        (match ignored_zone_ids with None => [] | Some ids => ids end) cb
        (after_progress cb 10 "Found zones for net" []) in
    match r1 with
    | Ok vias_to_add => commit board refill_after cb vias_to_add log1
    | Raise e => (log1, Raise e)
    | Diverge => (log1, Diverge)
    end.
Proof.
  intros Hnet Hbox.
  rewrite (stitch_found _ _ _ _ _ _ _ _ _ _ _ _ _ _ _ Hnet Hbox).
  unfold bindM at 1. rewrite progress_eq. unfold bindM at 1.
  now destruct (candidates _ _ _ _ _ _ _ _ _ _ _ _ _ _ _ _) as [l [v| |]].
Qed.

(** X8: when the filled zones of the target net hold fill polygons under
    fewer than two distinct layer ids, [stitch] proposes no via: it never
    calls [begin_commit], [create_items], [push_commit] or the selection, its
    only possible call to the board is [refill_zones], and what it returns
    is 0. *)
Theorem single_layer_net_gets_no_via :
  forall (number : Type) (int_times : number -> Z -> Z) (fuel : nat)
    (board : Board) (net_name : string)
    (via_diameter via_drill grid_x grid_y : number) (stagger : bool)
    (ignored_zone_ids : option (list string))
    (refill_after progress_callback : bool),
    (length (nodup Z.eq_dec (fill_layer_ids (target_zones board net_name))) < 2)%nat ->
    let run := stitch number int_times fuel board net_name via_diameter
                 via_drill grid_x grid_y stagger ignored_zone_ids refill_after
                 progress_callback [] in
    (forall c, In c (calls_of (fst run)) -> c = refill_zones)
    /\ (forall n, snd run = Ok n -> n = 0).
Proof.
  intros number int_times fuel board net_name vd vdr gx gy stagger ign rf cb
    Hlayers run.
  destruct (target_net_of board net_name) as [target|] eqn:Enet.
  2:{ destruct (stitch_returns_zero number int_times fuel board net_name vd
                  vdr gx gy stagger ign rf cb (or_introl Enet))
        as (t & E & Hc).
      subst run. rewrite E. cbn [fst snd]. split.
      - intros c H. apply In_calls_of in H. now apply Hc in H.
      - now intros n [= <-]. }
  destruct (overall_bounding_box (target_zones board net_name))
    as [bbox|] eqn:Ebox.
  2:{ pose proof (overall_bounding_box_none _ Ebox) as Hz.
      destruct (stitch_returns_zero number int_times fuel board net_name vd
                  vdr gx gy stagger ign rf cb (or_intror Hz))
        as (t & E & Hc).
      subst run. rewrite E. cbn [fst snd]. split.
      - intros c H. apply In_calls_of in H. now apply Hc in H.
      - now intros n [= <-]. }
  subst run.
  rewrite (stitch_found_run _ _ _ _ _ _ _ _ _ _ _ _ _ _ _ Enet Ebox).
  destruct (candidates number int_times fuel board net_name target
              (target_zones board net_name) bbox vd vdr gx gy stagger _ cb _)
    as [l1 r1] eqn:Ec.
  assert (Hl1 : forall c, ~ In c (calls_of l1)).
  { intros c Hc. apply In_calls_of in Hc.
    apply (no_new_calls_candidates _ _ _ _ _ _ _ _ _ _ _ _ _ _ _ _ _ _ Ec) in Hc.
    apply progress_calls in Hc. destruct Hc. }
  destruct r1 as [vias| |];
    [|cbn beta iota; cbn [fst snd]; split;
      [intros c Hc; now apply Hl1 in Hc|intros n Hn; discriminate]..].
  assert (Hnone : vias = []).
  { destruct vias as [|v vias']; [reflexivity|]. exfalso.
    destruct (candidates_inv _ _ _ _ _ _ _ _ _ _ _ _ _ _ _ _ _ _ Ec)
      as (zb & ob & tp & log0 & Hzb & _ & Hgrid).
    destruct (sample_grid_sound _ _ _ _ _ _ _ _ _ _ _ _ _ _ _ _ _ _ _ _ _ _ _
                Hgrid v (or_introl eq_refl))
      as [[]|(i & j & _ & _ & _ & _ & _ & Hvalid)].
    unfold valid_at in Hvalid. rewrite !andb_true_iff in Hvalid.
    destruct Hvalid as (_ & Hpos).
    match type of Hpos with
    | (get ?a ?py ?px >? 0) = true =>
        assert (Hk : get a py px <> 0) by lia;
        destruct (binary_erosion_kept _ _ _ _ Hk) as (_ & _ & Hall);
        destruct (Hall py px) as [_ Hne]; [apply chebyshev_le; lia|];
        unfold valid_area in Hne; rewrite get_tabulate_cases in Hne;
        destruct (_ && _ && _ && _); [|congruence];
        destruct (get zb py px >=? 2) eqn:E2; [|simpl in Hne; congruence];
        assert (Hlen : Z.of_nat (length (nodup Z.eq_dec
                                           (fill_layer_ids
                                              (target_zones board net_name))))
                       < 2147483648) by lia;
        destruct (coverage_bound _ _ _ _ Hzb Hlen) as (_ & _ & _ & Hb);
        specialize (Hb py px); lia
    end. }
  subst vias.
  destruct (commit_nothing board rf cb l1) as (l2 & r2 & E2 & Hcalls & Hret).
  rewrite E2. cbn [fst snd]. split; [|exact Hret].
  intros c Hc. destruct (Hcalls c Hc) as [H|H]; [now apply Hl1 in H|exact H].
Qed.

Lemma single_layer_net_gets_no_via_witness :
  (forall c,
      In c (calls_of
              (fst (stitch Z int_times_Z 10
                      (board_of [one_layer_zone]) "GND" 1 1 1 1 false None
                      true false []))) ->
      c = refill_zones)
  /\ (forall n,
        snd (stitch Z int_times_Z 10 (board_of [one_layer_zone]) "GND" 1 1 1
               1 false None true false [])
        = Ok n ->
        n = 0).
Proof.
  apply (single_layer_net_gets_no_via Z int_times_Z 10
           (board_of [one_layer_zone]) "GND" 1 1 1 1 false None true false).
  vm_compute. lia.
Defined.


(** ** Foreign features are obstacles *)

Lemma for_each_hits {A B} (Q : A -> Prop) (body : A -> B -> res A) (v : B)
  (xs : list B) :
  (forall a b a', body a b = Ok a' -> Q a -> Q a') ->
  (forall a a', body a v = Ok a' -> Q a') ->
  In v xs ->
  forall acc r, for_each body xs acc = Ok r -> Q r.
Proof.
  intros Hkeep Hset. induction xs as [|b xs IH]; intros Hin acc r; [destruct Hin|].
  simpl. destruct (body acc b) as [a'| |] eqn:E; simpl; try discriminate.
  destruct Hin as [->|Hin].
  - apply (for_each_invariant Q body xs (fun a b a' q e => Hkeep a b a' e q)).
    now apply (Hset acc).
  - now apply IH.
Qed.

Lemma draw_circle_centre (bitmap : ndarray) (cx cy r : Z) :
  in_bounds bitmap cy cx = true -> get (draw_circle bitmap cx cy r) cy cx = 1.
Proof.
  intros H. rewrite draw_circle_get, H. cbn [andb].
  assert (E : ((cx - cx) ^ 2 + (cy - cy) ^ 2 <=? r ^ 2) = true).
  { apply Z.leb_le. rewrite !Z.sub_diag. change (0 ^ 2) with 0.
    rewrite Z.pow_2_r. nia. }
  now rewrite E.
Qed.

Lemma draw_circle_keeps (bitmap : ndarray) (cx cy r y x : Z) :
  get bitmap y x = 1 -> get (draw_circle bitmap cx cy r) y x = 1.
Proof. intros H. rewrite draw_circle_get. now destruct (_ && _). Qed.

Lemma draw_circles_keep (points : list (Z * Z)) (r y x : Z) :
  forall bitmap,
    get bitmap y x = 1 ->
    get (fold_left (fun b p => draw_circle b (fst p) (snd p) r) points bitmap)
      y x = 1.
Proof.
  induction points as [|p ps IH]; intros bitmap H; simpl; [exact H|].
  apply IH. now apply draw_circle_keeps.
Qed.

Lemma draw_circles_hit (points : list (Z * Z)) (r cx cy : Z) :
  In (cx, cy) points ->
  forall bitmap,
    in_bounds bitmap cy cx = true ->
    get (fold_left (fun b p => draw_circle b (fst p) (snd p) r) points bitmap)
      cy cx = 1.
Proof.
  induction points as [|p ps IH]; intros Hin bitmap Hb; [destruct Hin|].
  simpl. destruct Hin as [->|Hin].
  - apply draw_circles_keep. now apply draw_circle_centre.
  - apply IH; [exact Hin|].
    now rewrite (same_shape_in_bounds _ _ _ _ (draw_circle_shape bitmap _ _ r)).
Qed.

Lemma line_walk_ends (x2 y2 dx dy sx sy : Z) (fuel : nat) :
  forall x y err points points',
    line_walk fuel x y x2 y2 dx dy sx sy err points = Ok points' ->
    In (x, y) points' /\ In (x2, y2) points'
    /\ forall p, In p points -> In p points'.
Proof.
  induction fuel as [|fuel IH]; intros x y err points points'; [discriminate|].
  cbn [line_walk]. destruct ((x =? x2) && (y =? y2)) eqn:Eend.
  - unfold ret. intros [= <-]. apply andb_true_iff in Eend.
    destruct Eend as [Ex Ey]. apply Z.eqb_eq in Ex, Ey. subst x2 y2.
    repeat split; try (apply in_or_app; right; now left).
    intros p Hp. apply in_or_app. now left.
  - destruct (2 * err >? - dy); destruct (2 * err <? dx); intros H;
      apply IH in H; destruct H as (_ & H2 & H3);
      (split; [apply H3, in_or_app; right; now left|]);
      (split; [exact H2|]); intros p Hp; apply H3, in_or_app; now left.
Qed.

Section ObstacleHits.
Variables (fuel : nat) (net_name : string) (bbox : Box2) (resolution : Z).

Lemma keeps_lit (a a' : ndarray) (y x : Z) :
  same_shape a a' -> keeps_ones a a' -> lit a y x -> lit a' y x.
Proof.
  intros Hs Hk H Hb. apply Hk, H.
  now rewrite <- (same_shape_in_bounds _ _ _ _ Hs).
Qed.

Lemma draw_circle_keeps_ones (a : ndarray) (cx cy r : Z) :
  keeps_ones a (draw_circle a cx cy r).
Proof. intros y x. apply draw_circle_keeps. Qed.

Lemma draw_circle_lit (a : ndarray) (cx cy r : Z) :
  lit (draw_circle a cx cy r) cy cx.
Proof.
  intros Hb. apply draw_circle_centre.
  now rewrite <- (same_shape_in_bounds _ _ _ _ (draw_circle_shape a cx cy r)).
Qed.

Lemma stamp_pad_keeps (a a' : ndarray) (p : Pad.t) :
  stamp_pad net_name bbox resolution a p = Ok a' ->
  same_shape a a' /\ keeps_ones a a'.
Proof.
  unfold stamp_pad. destruct (on_net _ _).
  { intros [= <-]. split; [apply same_shape_refl|now intros y x]. }
  destruct (to_pixel _ _ _) as [[px py]| |]; simpl; try discriminate.
  destruct (int_truediv_half _ _); simpl; try discriminate.
  intros [= <-]. split; [apply draw_circle_shape|apply draw_circle_keeps_ones].
Qed.

Lemma stamp_via_keeps (a a' : ndarray) (v : Via.t) :
  stamp_via net_name bbox resolution a v = Ok a' ->
  same_shape a a' /\ keeps_ones a a'.
Proof.
  unfold stamp_via. destruct (on_net _ _).
  { intros [= <-]. split; [apply same_shape_refl|now intros y x]. }
  destruct (to_pixel _ _ _) as [[px py]| |]; simpl; try discriminate.
  destruct (int_truediv_half _ _); simpl; try discriminate.
  intros [= <-]. split; [apply draw_circle_shape|apply draw_circle_keeps_ones].
Qed.

Lemma stamp_track_keeps (a a' : ndarray) (t : Track.t) :
  stamp_track fuel net_name bbox resolution a t = Ok a' ->
  same_shape a a' /\ keeps_ones a a'.
Proof.
  unfold stamp_track. destruct (on_net _ _).
  { intros [= <-]. split; [apply same_shape_refl|now intros y x]. }
  destruct (to_pixel _ _ (Track.start t)) as [[x1 y1]| |]; simpl;
    try discriminate.
  destruct (to_pixel _ _ (Track.end_ t)) as [[x2 y2]| |]; simpl;
    try discriminate.
  destruct (int_truediv (Track.width t) resolution) as [width_px| |]; simpl;
    try discriminate.
  unfold draw_line.
  destruct (line_walk _ _ _ _ _ _ _ _ _ _ _) as [pts| |]; simpl;
    try discriminate.
  intros [= <-]. split; [apply draw_circles_shape|].
  intros y x. apply draw_circles_keep.
Qed.

Lemma to_pixel_inv (p : Vector2) (px py : Z) :
  to_pixel bbox resolution p = Ok (px, py) ->
  px = Z.quot (vx p - vx (pos bbox)) resolution
  /\ py = Z.quot (vy p - vy (pos bbox)) resolution.
Proof.
  unfold to_pixel, int_truediv. destruct (resolution =? 0); simpl;
    [discriminate|]. now intros [= <- <-].
Qed.

Lemma stamp_pad_lit (a a' : ndarray) (p : Pad.t) :
  on_net (Pad.net p) net_name = false ->
  stamp_pad net_name bbox resolution a p = Ok a' ->
  lit a' (Z.quot (vy (Pad.position p) - vy (pos bbox)) resolution)
    (Z.quot (vx (Pad.position p) - vx (pos bbox)) resolution).
Proof.
  unfold stamp_pad. intros ->.
  destruct (to_pixel _ _ _) as [[px py]| |] eqn:E; simpl; try discriminate.
  apply to_pixel_inv in E. destruct E as [<- <-].
  destruct (int_truediv_half _ _); simpl; try discriminate.
  intros [= <-]. apply draw_circle_lit.
Qed.

Lemma stamp_via_lit (a a' : ndarray) (v : Via.t) :
  on_net (Via.net v) net_name = false ->
  stamp_via net_name bbox resolution a v = Ok a' ->
  lit a' (Z.quot (vy (Via.position v) - vy (pos bbox)) resolution)
    (Z.quot (vx (Via.position v) - vx (pos bbox)) resolution).
Proof.
  unfold stamp_via. intros ->.
  destruct (to_pixel _ _ _) as [[px py]| |] eqn:E; simpl; try discriminate.
  apply to_pixel_inv in E. destruct E as [<- <-].
  destruct (int_truediv_half _ _); simpl; try discriminate.
  intros [= <-]. apply draw_circle_lit.
Qed.

Lemma stamp_track_lit (a a' : ndarray) (t : Track.t) :
  on_net (Track.net t) net_name = false ->
  stamp_track fuel net_name bbox resolution a t = Ok a' ->
  lit a' (Z.quot (vy (Track.start t) - vy (pos bbox)) resolution)
    (Z.quot (vx (Track.start t) - vx (pos bbox)) resolution)
  /\ lit a' (Z.quot (vy (Track.end_ t) - vy (pos bbox)) resolution)
       (Z.quot (vx (Track.end_ t) - vx (pos bbox)) resolution).
Proof.
  unfold stamp_track. intros ->.
  destruct (to_pixel _ _ (Track.start t)) as [[x1 y1]| |] eqn:E1; simpl;
    try discriminate.
  destruct (to_pixel _ _ (Track.end_ t)) as [[x2 y2]| |] eqn:E2; simpl;
    try discriminate.
  apply to_pixel_inv in E1, E2. destruct E1 as [<- <-], E2 as [<- <-].
  destruct (int_truediv (Track.width t) resolution) as [width_px| |]; simpl;
    try discriminate.
  unfold draw_line.
  destruct (line_walk _ _ _ _ _ _ _ _ _ _ _) as [pts| |] eqn:Ew; simpl;
    try discriminate.
  apply line_walk_ends in Ew. destruct Ew as (H1 & H2 & _).
  intros [= <-].
  split; intros Hb; apply draw_circles_hit; trivial;
    now rewrite <- (same_shape_in_bounds _ _ _ _
                    (draw_circles_shape pts (width_px / 2) a)).
Qed.

Lemma obstacle_base_lit (board : Items) (base : ndarray) :
  obstacle_base fuel board net_name bbox resolution = Ok base ->
  (forall p, In p (get_pads board) -> on_net (Pad.net p) net_name = false ->
     lit base (Z.quot (vy (Pad.position p) - vy (pos bbox)) resolution)
       (Z.quot (vx (Pad.position p) - vx (pos bbox)) resolution))
  /\ (forall v, In v (get_vias board) -> on_net (Via.net v) net_name = false ->
        lit base (Z.quot (vy (Via.position v) - vy (pos bbox)) resolution)
          (Z.quot (vx (Via.position v) - vx (pos bbox)) resolution))
  /\ (forall t, In t (get_tracks board) ->
        on_net (Track.net t) net_name = false ->
        lit base (Z.quot (vy (Track.start t) - vy (pos bbox)) resolution)
          (Z.quot (vx (Track.start t) - vx (pos bbox)) resolution)
        /\ lit base (Z.quot (vy (Track.end_ t) - vy (pos bbox)) resolution)
             (Z.quot (vx (Track.end_ t) - vx (pos bbox)) resolution)).
Proof.
  unfold obstacle_base.
  destruct (int_truediv (vx (size bbox)) resolution) as [w| |]; simpl;
    try discriminate.
  destruct (int_truediv (vy (size bbox)) resolution) as [h| |]; simpl;
    try discriminate.
  destruct (np_zeros uint8 (h + 1) (w + 1)) as [b0| |]; simpl;
    try discriminate.
  destruct (for_each (stamp_pad _ _ _) _ _) as [b1| |] eqn:E1; simpl;
    try discriminate.
  destruct (for_each (stamp_via _ _ _) _ _) as [b2| |] eqn:E2; simpl;
    try discriminate.
  intros E3.
  assert (Kp : forall y x a b a',
             stamp_pad net_name bbox resolution a b = Ok a' ->
             lit a y x -> lit a' y x).
  { intros y x a b a' E. destruct (stamp_pad_keeps _ _ _ E).
    now apply keeps_lit. }
  assert (Kv : forall y x a b a',
             lit a y x -> stamp_via net_name bbox resolution a b = Ok a' ->
             lit a' y x).
  { intros y x a b a' H E. destruct (stamp_via_keeps _ _ _ E).
    now apply (keeps_lit a). }
  assert (Kt : forall y x a b a',
             lit a y x ->
             stamp_track fuel net_name bbox resolution a b = Ok a' ->
             lit a' y x).
  { intros y x a b a' H E. destruct (stamp_track_keeps _ _ _ E).
    now apply (keeps_lit a). }
  split; [|split].
  - intros p Hin Hnet.
    apply (for_each_invariant (fun a => lit a _ _) _ _ (Kt _ _) _ _) with (2 := E3).
    apply (for_each_invariant (fun a => lit a _ _) _ _ (Kv _ _) _ _) with (2 := E2).
    apply (for_each_hits (fun a => lit a _ _) _ p _ (Kp _ _)) with (3 := E1);
      [|exact Hin].
    intros a a'. now apply stamp_pad_lit.
  - intros v Hin Hnet.
    apply (for_each_invariant (fun a => lit a _ _) _ _ (Kt _ _) _ _) with (2 := E3).
    apply (for_each_hits (fun a => lit a _ _) _ v _
             (fun a b a' e q => Kv _ _ a b a' q e)) with (3 := E2);
      [|exact Hin].
    intros a a'. now apply stamp_via_lit.
  - intros t Hin Hnet. split.
    + apply (for_each_hits (fun a => lit a _ _) _ t _
               (fun a b a' e q => Kt _ _ a b a' q e)) with (3 := E3);
        [|exact Hin].
      intros a a' E. now apply (stamp_track_lit a a' t Hnet E).
    + apply (for_each_hits (fun a => lit a _ _) _ t _
               (fun a b a' e q => Kt _ _ a b a' q e)) with (3 := E3);
        [|exact Hin].
      intros a a' E. now apply (stamp_track_lit a a' t Hnet E).
Qed.
End ObstacleHits.

Lemma lit_blocked (fuel : nat) (board : Items) (net_name : string)
  (bbox : Box2) (ignored : list string) (base ob : ndarray) :
  obstacle_counts_fit board net_name ignored bbox = true ->
  obstacle_base fuel board net_name bbox RESOLUTION = Ok base ->
  rasterize_obstacles fuel board net_name bbox RESOLUTION (Some ignored)
  = Ok ob ->
  forall p,
    lit base (pixel_y bbox p) (pixel_x bbox p) -> blocked_at ob bbox p.
Proof.
  intros Hfit Ebase. rewrite rasterize_obstacles_split, Ebase. simpl.
  assert (Hres : RESOLUTION <> 0) by (unfold RESOLUTION; lia).
  destruct (binary_obstacle_base _ _ _ _ _ _ Ebase) as (Hbin & Hdt & Hshape).
  destruct (Hshape Hres) as [Hh Hw].
  destruct (rasterize_outlines_get bbox RESOLUTION
              (obstacle_outlines net_name ignored (get_zones board)) Hres base)
    as (b1 & E1 & Hs & Hg1).
  rewrite E1. intros [= <-] p Hlit Hb.
  rewrite (same_shape_in_bounds _ _ _ _ Hs) in Hb.
  rewrite Hg1, Hb, (Hlit Hb), Hdt.
  pose proof (outlines_count_nonneg bbox RESOLUTION
                (obstacle_outlines net_name ignored (get_zones board))
                (pixel_y bbox p) (pixel_x bbox p)) as Hnn.
  apply in_bounds_true in Hb. rewrite Hh, Hw in Hb.
  unfold obstacle_counts_fit in Hfit. rewrite forallb_forall in Hfit.
  assert (Hy := Hfit (pixel_y bbox p) (proj2 (In_range _ _) (proj1 Hb))).
  rewrite forallb_forall in Hy.
  assert (Hx := Hy (pixel_x bbox p) (proj2 (In_range _ _) (proj2 Hb))).
  apply Z.ltb_lt in Hx.
  unfold added. destruct (_ =? 0); [lia|]. cbn [wrap].
  rewrite Z.mod_small; lia.
Qed.

(** X9: copper of another net is an obstacle.  When no cell takes 255 zone
    fills or more, the obstacle bitmap of a board is nonzero at the pixel of
    the centre of every pad and of every via that is not on the target net,
    and at the pixels of both ends of every track that is not on it, as far
    as those pixels lie inside the bitmap. *)
Theorem foreign_copper_is_an_obstacle (fuel : nat) (board : Items)
  (net_name : string) (bbox : Box2) (ignored : list string) (ob : ndarray) :
  obstacle_counts_fit board net_name ignored bbox = true ->
  rasterize_obstacles fuel board net_name bbox RESOLUTION (Some ignored)
  = Ok ob ->
  (forall p, In p (get_pads board) -> on_net (Pad.net p) net_name = false ->
     blocked_at ob bbox (Pad.position p))
  /\ (forall v, In v (get_vias board) -> on_net (Via.net v) net_name = false ->
        blocked_at ob bbox (Via.position v))
  /\ (forall t, In t (get_tracks board) ->
        on_net (Track.net t) net_name = false ->
        blocked_at ob bbox (Track.start t) /\ blocked_at ob bbox (Track.end_ t)).
Proof.
  intros Hfit Eob.
  destruct (obstacle_base fuel board net_name bbox RESOLUTION) as [base| |]
    eqn:Ebase;
    try (rewrite rasterize_obstacles_split, Ebase in Eob; discriminate).
  destruct (obstacle_base_lit _ _ _ _ _ _ Ebase) as (Hp & Hv & Ht).
  pose proof (lit_blocked _ _ _ _ _ _ _ Hfit Ebase Eob) as Hblock.
  split; [|split].
  - intros p Hin Hnet. apply Hblock, Hp; assumption.
  - intros v Hin Hnet. apply Hblock, Hv; assumption.
  - intros t Hin Hnet. destruct (Ht t Hin Hnet). split; now apply Hblock.
Qed.

Lemma foreign_copper_is_an_obstacle_witness :
  exists ob,
    rasterize_obstacles 50 busy_items "GND" (box 2000000)
      RESOLUTION (Some []) = Ok ob
    /\ blocked_at ob (box 2000000) (Via.position vcc_via)
    /\ blocked_at ob (box 2000000) (Track.start vcc_track)
    /\ blocked_at ob (box 2000000) (Track.end_ vcc_track).
Proof.
  destruct (rasterize_obstacles 50 busy_items "GND" (box 2000000)
              RESOLUTION (Some [])) as [ob| |] eqn:E;
    [|vm_compute in E; discriminate..].
  exists ob. split; [reflexivity|].
  assert (Hfit : obstacle_counts_fit busy_items "GND" []
                   (box 2000000) = true) by (vm_compute; reflexivity).
  destruct (foreign_copper_is_an_obstacle 50 busy_items "GND"
              (box 2000000) [] ob Hfit E) as (_ & Hv & Ht).
  split.
  - apply Hv; [vm_compute; tauto|reflexivity].
  - apply (Ht vcc_track); [vm_compute; tauto|reflexivity].
Defined.

(** ** The fill of an axis-aligned rectangle *)

Lemma rectangle_fill_count (x0 y0 x1 y1 y x : Z) :
  x0 <= x1 -> y0 <= y1 ->
  fill_count [(x0, y0); (x1, y0); (x1, y1); (x0, y1)] y x
  = if (y0 <=? y) && (y <? y1) && (x0 <=? x) && (x <=? x1) then 1 else 0.
Proof.
  intros Hx Hy. unfold fill_count, spec_intersections, spec_edges.
  cbn [tl firstn app combine filter spec_crosses].
  rewrite !Z.min_id, !Z.max_id, (Z.min_l y0 y1), (Z.max_r y0 y1),
    (Z.min_r y1 y0), (Z.max_l y1 y0) by lia.
  replace ((y0 <=? y) && (y <? y0)) with false by lia.
  replace ((y1 <=? y) && (y <? y1)) with false by lia.
  destruct ((y0 <=? y) && (y <? y1)) eqn:Erow; [|reflexivity].
  assert (Hlt : y0 < y1) by lia.
  cbn [map spec_interpolate].
  replace (x1 * (y1 - y0) + (y - y0) * (x1 - x1)) with (x1 * (y1 - y0)) by lia.
  replace (x0 * (y0 - y1) + (y - y1) * (x0 - x0)) with (x0 * (y0 - y1)) by lia.
  rewrite !Z.quot_mul by lia.
  cbn [sort insert_sorted]. destruct (x1 <=? x0) eqn:E; cbn [span_count andb].
  - assert (x1 = x0) by lia. subst x1.
    destruct ((x0 <=? x) && (x <=? x0)); reflexivity.
  - destruct ((x0 <=? x) && (x <=? x1)); reflexivity.
Qed.

(** X10: the fill of an axis-aligned rectangle.  For an outline whose pixel
    vertices are the corners [(x0, y0)], [(x1, y0)], [(x1, y1)], [(x0, y1)]
    of a rectangle, the rasterizer adds the value once to the cells of the
    rows [y0 .. y1 - 1] and of the columns [x0 .. x1] that lie inside the
    bitmap, and leaves every other cell as it was: the last column is
    filled, the last row is not. *)
Theorem rectangle_fill_is_half_open (bitmap : ndarray)
  (nodes : list PolyLineNode) (bbox : Box2) (resolution value : Z)
  (x0 y0 x1 y1 : Z) :
  resolution <> 0 -> x0 <= x1 -> y0 <= y1 ->
  map (pixel_of bbox resolution) nodes
  = [(x0, y0); (x1, y0); (x1, y1); (x0, y1)] ->
  exists bitmap',
    rasterize_polygon bitmap nodes bbox resolution value = Ok bitmap'
    /\ same_shape bitmap bitmap'
    /\ forall y x,
         get bitmap' y x
         = if in_bounds bitmap y x
              && ((y0 <=? y) && (y <? y1) && (x0 <=? x) && (x <=? x1))
           then wrap (dt bitmap) (get bitmap y x + value)
           else get bitmap y x.
Proof.
  intros Hres Hx Hy Hnodes.
  assert (Hlen : (3 <= length nodes)%nat).
  { rewrite <- (length_map (pixel_of bbox resolution)), Hnodes. simpl. lia. }
  destruct (rasterize_polygon_get bitmap nodes bbox resolution value Hres Hlen)
    as (points & bitmap' & Epts & E & Hs & Hg).
  rewrite (map_res_ok _ (pixel_of bbox resolution)) in Epts
    by (intros; now apply node_to_pixel_ok).
  injection Epts as <-. rewrite Hnodes in Hg.
  exists bitmap'. split; [exact E|]. split; [exact Hs|].
  intros y x. rewrite Hg. unfold added.
  destruct (in_bounds bitmap y x); [|reflexivity].
  rewrite rectangle_fill_count by assumption. cbn [andb].
  destruct ((y0 <=? y) && (y <? y1) && (x0 <=? x) && (x <=? x1)).
  - cbn [Z.eqb]. now rewrite Z.mul_1_r.
  - reflexivity.
Qed.

Lemma rectangle_fill_is_half_open_witness :
  exists bitmap',
    rasterize_polygon zeros21 (square 1000000) (box 2000000) RESOLUTION 1
    = Ok bitmap'
    /\ get bitmap' 9 10 = 1 /\ get bitmap' 10 9 = 0.
Proof.
  destruct (rectangle_fill_is_half_open zeros21 (square 1000000) (box 2000000)
              RESOLUTION 1 0 0 10 10) as (b & E & _ & Hg);
    [unfold RESOLUTION; lia|lia|lia|reflexivity|].
  exists b. split; [exact E|]. rewrite !Hg. split; reflexivity.
Defined.

(** ** Holes of a zone polygon *)

Lemma punch_hole_get (temp layer_map : ndarray) (y x : Z) :
  get (punch_hole temp layer_map) y x
  = if in_bounds layer_map y x && (get temp y x >? 0) then 0
    else get layer_map y x.
Proof.
  unfold punch_hole. rewrite get_tabulate_cases. fold (in_bounds layer_map y x).
  destruct (in_bounds layer_map y x) eqn:E; cbn [andb].
  - now destruct (get temp y x >? 0).
  - symmetry. now apply get_outside.
Qed.

Lemma subtract_hole_keeps_zero (bbox : Box2) (resolution h w : Z)
  (layer_map layer_map' : ndarray) (hole : option (list PolyLineNode))
  (y x : Z) :
  subtract_hole bbox resolution h w layer_map hole = Ok layer_map' ->
  get layer_map y x = 0 -> get layer_map' y x = 0.
Proof.
  unfold subtract_hole. destruct hole as [hole_nodes|]; [|now intros [= <-]].
  destruct (np_zeros uint8 h w) as [t0| |]; simpl; try discriminate.
  destruct (rasterize_polygon t0 hole_nodes bbox resolution 1) as [t| |];
    simpl; try discriminate.
  intros [= <-] H. rewrite punch_hole_get, H. now destruct (_ && _).
Qed.

Lemma subtract_hole_cuts (bbox : Box2) (resolution h w : Z)
  (layer_map layer_map' temp : ndarray) (hole_nodes : list PolyLineNode)
  (y x : Z) :
  hole_mask bbox resolution h w hole_nodes = Ok temp ->
  0 < get temp y x ->
  subtract_hole bbox resolution h w layer_map (Some hole_nodes)
  = Ok layer_map' ->
  get layer_map' y x = 0.
Proof.
  unfold subtract_hole, hole_mask.
  destruct (np_zeros uint8 h w) as [t0| |]; simpl; try discriminate.
  intros -> Hpos [= <-]. rewrite punch_hole_get.
  destruct (in_bounds layer_map y x) eqn:E; cbn [andb].
  - now rewrite (proj2 (Z.gtb_lt _ _) Hpos).
  - now apply get_outside.
Qed.

(** X11: holes are cut out of the layer map.  After a polygon with an
    outline has been added to a layer map, every cell at which the fill of
    one of its holes alone is nonzero holds 0, whatever the map (and so
    whatever copper of earlier polygons of the layer) held there before. *)
Theorem holes_are_cut_out (bbox : Box2) (resolution h w : Z)
  (layer_map layer_map' : ndarray) (poly : PolygonWithHoles)
  (hs : list (option (list PolyLineNode))) :
  outline poly <> None ->
  holes poly = Some hs ->
  rasterize_zone_poly bbox resolution h w layer_map poly = Ok layer_map' ->
  forall hole_nodes temp y x,
    In (Some hole_nodes) hs ->
    hole_mask bbox resolution h w hole_nodes = Ok temp ->
    0 < get temp y x ->
    get layer_map' y x = 0.
Proof.
  intros Hout Hholes. unfold rasterize_zone_poly.
  destruct (outline poly) as [nodes|]; [|now elim Hout].
  destruct (rasterize_polygon layer_map nodes bbox resolution 1) as [m| |];
    simpl; try discriminate.
  rewrite Hholes. intros E hole_nodes temp y x Hin Hmask Hpos.
  apply (for_each_hits (fun a => get a y x = 0)
           (subtract_hole bbox resolution h w) (Some hole_nodes) hs)
    with (acc := m); trivial.
  - intros a b a'. apply subtract_hole_keeps_zero.
  - intros a a'. now apply subtract_hole_cuts with (temp := temp).
Qed.

Lemma holes_are_cut_out_witness :
  exists layer_map',
    rasterize_zone_poly (box 2000000) RESOLUTION 21 21 zeros21 holed_poly
    = Ok layer_map'
    /\ get layer_map' 10 10 = 0 /\ get layer_map' 3 3 = 1.
Proof.
  destruct (rasterize_zone_poly (box 2000000) RESOLUTION 21 21 zeros21
              holed_poly) as [m| |] eqn:E; [|vm_compute in E; discriminate..].
  exists m. split; [reflexivity|]. split.
  - destruct (hole_mask (box 2000000) RESOLUTION 21 21
                [node 700000 700000; node 1300000 700000;
                 node 1300000 1300000; node 700000 1300000])
      as [temp| |] eqn:Et; [|vm_compute in Et; discriminate..].
    eapply (holes_are_cut_out (box 2000000) RESOLUTION 21 21 zeros21 m
             holed_poly _ ltac:(discriminate) eq_refl E _ temp 10 10);
      [now left|exact Et|].
    vm_compute in Et. injection Et as <-. reflexivity.
  - vm_compute in E. injection E as <-. reflexivity.
Defined.

(** ** The socket path *)

Lemma with_protocol_prefixed (platform socket_path : string) :
  (startswith (with_protocol platform socket_path) "ipc://" = true
   \/ (platform = "win32"%string
       /\ startswith (with_protocol platform socket_path) "\\.\pipe\" = true
       /\ with_protocol platform socket_path = socket_path))
  /\ with_protocol platform (with_protocol platform socket_path)
     = with_protocol platform socket_path.
Proof.
  assert (Hcases :
            (startswith socket_path "ipc://" = true
             /\ with_protocol platform socket_path = socket_path)
            \/ (platform = "win32"%string
                /\ startswith socket_path "ipc://" = false
                /\ startswith socket_path "\\.\pipe\" = true
                /\ with_protocol platform socket_path = socket_path)
            \/ with_protocol platform socket_path
               = ("ipc://" ++ socket_path)%string).
  { unfold with_protocol.
    destruct (startswith socket_path "ipc://") eqn:E1; [now left|].
    destruct (String.eqb platform "win32") eqn:E2; cbn [andb];
      [|now right; right].
    destruct (startswith socket_path "\\.\pipe\") eqn:E3; [|now right; right].
    apply String.eqb_eq in E2. right; left. now repeat split. }
  destruct Hcases as [[H1 ->]|[(Hw & H1 & H2 & ->)| ->]].
  - split; [now left|]. unfold with_protocol. now rewrite H1.
  - split; [right; now repeat split|].
    unfold with_protocol. rewrite H1, H2. subst platform. reflexivity.
  - assert (H : startswith ("ipc://" ++ socket_path) "ipc://" = true)
      by (unfold startswith; simpl; now destruct socket_path).
    split; [now left|]. unfold with_protocol. now rewrite H.
Qed.

(** X12: the socket path always carries a protocol.  Whatever the
    environment holds, the path handed to the client starts with [ipc://],
    or, on win32 only, is a named pipe path left as it was; a path that
    already starts with [ipc://] is returned unchanged, and so is the result
    when the prefixing is applied to it again. *)
Theorem socket_path_has_protocol (environ : option string)
  (fallback platform : string) :
  let p := get_socket_path environ fallback platform in
  (startswith p "ipc://" = true
   \/ (platform = "win32"%string /\ startswith p "\\.\pipe\" = true))
  /\ (platform <> "win32"%string -> startswith p "ipc://" = true)
  /\ with_protocol platform p = p
  /\ (forall s, environ = Some s -> startswith s "ipc://" = true -> p = s).
Proof.
  unfold get_socket_path.
  set (socket_path := match environ with
                      | Some s => if String.eqb s "" then fallback else s
                      | None => fallback
                      end).
  destruct (with_protocol_prefixed platform socket_path) as [Hp Hi].
  cbv zeta. split; [|split; [|split]].
  - destruct Hp as [H|(H1 & H2 & _)]; [now left|now right].
  - intros Hne. destruct Hp as [H|(H1 & _)]; [exact H|now elim Hne].
  - exact Hi.
  - intros s -> Hs. subst socket_path.
    destruct (String.eqb s "") eqn:E.
    + apply String.eqb_eq in E. subst s. discriminate.
    + unfold with_protocol. now rewrite Hs.
Qed.

(** ** The dialog *)

Section DialogProperties.
Variables (number : Type) (int_times : number -> Z -> Z).
Variable float : string -> option number.
Variable leq0 : number -> bool.
Variable describe : binding_error -> string.

Lemma call_stitch_raises (fuel : nat) (board : Board) (net_name : string)
  (dia drill gx gy : number) (stagger : bool) (ignored_ids : list string)
  (refill_after : bool) :
  call_stitch number int_times describe fuel board net_name dia drill gx gy
    stagger ignored_ids refill_after
  = ([], Raise (Exception (describe (UnexpectedKeyword "offset_x")))).
Proof. reflexivity. Qed.
End DialogProperties.

(** X13: the button never reaches the stitcher.  Whatever the fields, the
    check list and the board hold, the handler of "Generate Vias" passes no
    event of the stitcher on (no call to the board, no print), shows no
    progress report of it (no yield to the user interface, no progress value
    other than 0) and never closes the dialog: the call of [stitch] names
    the parameters [offset_x] and [offset_y], which [stitch] does not
    have. *)
Theorem generate_vias_never_stitches (number : Type)
  (int_times : number -> Z -> Z) (float : string -> option number)
  (leq0 : number -> bool) (describe : binding_error -> string)
  (fuel : nat) (board : Board) (d : Dialog.t) :
  let events := fst (on_stitch number int_times float leq0 describe fuel
                       board d) in
  ~ In EndModal events
  /\ (forall e, ~ In (Stitcher e) events)
  /\ ~ In SafeYield events
  /\ (forall value, In (ProgressValue value) events -> value = 0).
Proof.
  unfold on_stitch.
  destruct (float (Dialog.via_dia d)); [|simpl; intuition congruence].
  destruct (float (Dialog.via_drill d)); [|simpl; intuition congruence].
  destruct (float (Dialog.grid_x d)); [|simpl; intuition congruence].
  destruct (float (Dialog.grid_y d)); [|simpl; intuition congruence].
  destruct (float (Dialog.offset_x d)); [|simpl; intuition congruence].
  destruct (float (Dialog.offset_y d)); [|simpl; intuition congruence].
  destruct (leq0 _ || leq0 _); [simpl; intuition congruence|].
  destruct (collect_ignored 0 _ _ []) as [ignored_ids| |];
    [|simpl; intuition congruence..].
  rewrite call_stitch_raises. simpl. intuition congruence.
Qed.

(** X14: what the button does with valid input.  When the six fields parse,
    both spacings are positive and the checked ids are collected, the
    handler disables the button, resets the progress display, shows the
    error box with the message of the [TypeError] about [offset_x], prints
    the traceback, enables the button again and returns. *)
Theorem generate_vias_reports_a_type_error (number : Type)
  (int_times : number -> Z -> Z) (float : string -> option number)
  (leq0 : number -> bool) (describe : binding_error -> string)
  (fuel : nat) (board : Board) (d : Dialog.t)
  (dia drill gx gy off_x off_y : number) (ignored_ids : list string) :
  float (Dialog.via_dia d) = Some dia ->
  float (Dialog.via_drill d) = Some drill ->
  float (Dialog.grid_x d) = Some gx ->
  float (Dialog.grid_y d) = Some gy ->
  float (Dialog.offset_x d) = Some off_x ->
  float (Dialog.offset_y d) = Some off_y ->
  leq0 gx = false -> leq0 gy = false ->
  collect_ignored 0 (Dialog.zone_list d) (Dialog.zone_ids d) []
  = Ok ignored_ids ->
  on_stitch number int_times float leq0 describe fuel board d
  = ([OkEnabled false; ProgressValue 0; StatusLabel "Starting...";
      ProgressValue 0; StatusLabel "Error occurred";
      MessageBox ("Error during stitching: "
                  ++ describe (UnexpectedKeyword "offset_x")) "Error";
      Traceback; OkEnabled true],
     Ok tt).
Proof.
  intros E1 E2 E3 E4 E5 E6 Hx Hy Ec. unfold on_stitch.
  rewrite E1, E2, E3, E4, E5, E6, Hx, Hy, Ec, call_stitch_raises.
  reflexivity.
Qed.

Lemma generate_vias_reports_a_type_error_witness :
  on_stitch Z int_times_Z (fun _ => Some 1) (fun v => v <=? 0)
    (fun _ => "stitch() got an unexpected keyword argument 'offset_x'"%string)
    10 gnd_board default_dialog
  = ([OkEnabled false; ProgressValue 0; StatusLabel "Starting...";
      ProgressValue 0; StatusLabel "Error occurred";
      MessageBox "Error during stitching: stitch() got an unexpected keyword argument 'offset_x'"
        "Error";
      Traceback; OkEnabled true],
     Ok tt).
Proof.
  apply (generate_vias_reports_a_type_error Z int_times_Z (fun _ => Some 1)
           (fun v => v <=? 0)
           (fun _ => "stitch() got an unexpected keyword argument 'offset_x'"%string)
           10 gnd_board default_dialog 1 1 1 1 1 1 []); reflexivity.
Defined.

(** *** The check list and its ids *)

Lemma collect_ignored_ok (rows : list (string * bool)) :
  forall i zone_ids ignored_ids,
    (i + length rows <= length zone_ids)%nat ->
    exists collected,
      collect_ignored i rows zone_ids ignored_ids = Ok (ignored_ids ++ collected)
      /\ forall zone_id,
           In zone_id collected
           <-> exists j label,
                 nth_error rows j = Some (label, true)
                 /\ nth_error zone_ids (i + j) = Some zone_id.
Proof.
  induction rows as [|[label checked] rows IH]; intros i zone_ids ignored_ids Hlen.
  - exists []. rewrite app_nil_r. split; [reflexivity|].
    intros zone_id. split; [intros []|].
    intros (j & l & H & _). now destruct j.
  - cbn [length] in Hlen. cbn [collect_ignored].
    assert (Hshift : forall zone_id (P : Prop),
               (P <-> exists j l, nth_error rows j = Some (l, true)
                                  /\ nth_error zone_ids (S i + j) = Some zone_id) ->
               checked = false ->
               (P <-> exists j l,
                   nth_error ((label, checked) :: rows) j = Some (l, true)
                   /\ nth_error zone_ids (i + j) = Some zone_id)).
    { intros zone_id P HP ->. rewrite HP. split.
      - intros (j & l & H1 & H2). exists (S j), l. split; [exact H1|].
        rewrite <- H2. f_equal. lia.
      - intros (j & l & H1 & H2). destruct j as [|j]; [discriminate|].
        exists j, l. split; [exact H1|].
        rewrite <- H2. f_equal. lia. }
    destruct checked.
    + destruct (nth_error zone_ids i) as [zid|] eqn:En.
      2:{ apply nth_error_None in En. lia. }
      destruct (IH (S i) zone_ids (ignored_ids ++ [zid])) as (out & E & Hout);
        [lia|].
      exists (zid :: out). rewrite E, <- app_assoc. split; [reflexivity|].
      intros zone_id. simpl. rewrite Hout. split.
      * intros [<-|(j & l & H1 & H2)].
        -- exists 0%nat, label. split; [reflexivity|].
           now rewrite Nat.add_0_r.
        -- exists (S j), l. split; [exact H1|].
           rewrite <- H2. f_equal. lia.
      * intros (j & l & H1 & H2). destruct j as [|j].
        -- left. rewrite Nat.add_0_r in H2. congruence.
        -- right. exists j, l. split; [exact H1|].
           rewrite <- H2. f_equal. lia.
    + destruct (IH (S i) zone_ids ignored_ids) as (out & E & Hout); [lia|].
      exists out. split; [exact E|].
      intros zone_id. apply Hshift; [apply Hout|reflexivity].
Qed.

(** X15: the check list and the ids stay aligned.  After
    [update_zone_list], however the user sets the check marks of the rows,
    collecting the ignored ids raises no [IndexError], and the ids collected
    are those beside the checked rows, each the id of a filled zone of the
    board whose net name differs from the selected one. *)
Theorem checked_zones_are_collected (board : Items) (d : Dialog.t)
  (rows : list (string * bool)) :
  map fst rows = map fst (Dialog.zone_list (update_zone_list board d)) ->
  exists ignored_ids,
    collect_ignored 0 rows (Dialog.zone_ids (update_zone_list board d)) []
    = Ok ignored_ids
    /\ (forall zone_id,
          In zone_id ignored_ids
          <-> exists j label,
                nth_error rows j = Some (label, true)
                /\ nth_error (Dialog.zone_ids (update_zone_list board d)) j
                   = Some zone_id)
    /\ (forall zone_id,
          In zone_id ignored_ids ->
          exists zone,
            In zone (get_zones board)
            /\ zone_id_key zone = zone_id
            /\ Zone.filled zone = true
            /\ zone_net_name zone <> Dialog.net_choice d).
Proof.
  intros Hrows.
  assert (Hlen : (0 + length rows
                  <= length (Dialog.zone_ids (update_zone_list board d)))%nat).
  { rewrite <- (length_map fst rows), Hrows. simpl. rewrite !length_map. lia. }
  destruct (collect_ignored_ok rows 0 _ [] Hlen) as (out & E & Hout).
  exists out. split; [exact E|]. split; [exact Hout|].
  intros zone_id Hin. apply Hout in Hin. destruct Hin as (j & l & _ & Hj).
  apply nth_error_In in Hj. simpl in Hj. unfold get_other_zones in Hj.
  rewrite get_other_zones_spec in Hj. simpl in Hj.
  rewrite map_map in Hj. apply in_map_iff in Hj.
  destruct Hj as (zone & <- & Hz). apply filter_In in Hz.
  destruct Hz as (Hz & Hf). apply andb_true_iff in Hf. destruct Hf as (Hn & Hf).
  exists zone. repeat split; trivial.
  intros Heq. apply (proj2 (String.eqb_eq _ _)) in Heq. now rewrite Heq in Hn.
Qed.

Lemma checked_zones_are_collected_witness :
  exists ignored_ids,
    collect_ignored 0 [("Net: VCC (Layers: 0)"%string, true)]
      (Dialog.zone_ids (update_zone_list busy_items default_dialog)) []
    = Ok ignored_ids
    /\ ignored_ids = ["b"%string].
Proof.
  destruct (checked_zones_are_collected busy_items default_dialog
              [("Net: VCC (Layers: 0)"%string, true)] eq_refl)
    as (ids & E & _).
  exists ids. split; [exact E|].
  vm_compute in E. now injection E as <-.
Defined.

(** ** The candidates are distinct *)

Lemma StronglySorted_snoc {A} (R : A -> A -> Prop) (l : list A) (b : A) :
  StronglySorted R l -> (forall a, In a l -> R a b) ->
  StronglySorted R (l ++ [b]).
Proof.
  induction 1 as [|a l Hl IH Ha]; intros Hb; simpl.
  - constructor; constructor.
  - constructor.
    + apply IH. intros c Hc. apply Hb. now right.
    + apply Forall_app. split; [exact Ha|].
      constructor; [|constructor]. apply Hb. now left.
Qed.

Lemma column_major_NoDup (l : list Vector2) :
  StronglySorted column_major l -> NoDup l.
Proof.
  induction 1 as [|a l Hl IH Ha]; constructor; [|exact IH].
  intros Hin. rewrite Forall_forall in Ha. specialize (Ha a Hin).
  unfold column_major in Ha. lia.
Qed.

Section SamplerOrder.
Variables (number : Type) (int_times : number -> Z -> Z).
Variables (V : ndarray) (overall_bbox : Box2).
Variables (target_net : Net) (via_diameter via_drill : number).
Variables (end_x end_y gx gy : Z) (stagger cb : bool) (total_points : Z).
Hypotheses (Hgx : 0 < gx) (Hgy : 0 < gy).

Lemma sample_column_ordered (fuel : nat) :
  forall x y vias pc r pc',
    sample_column number int_times V overall_bbox target_net via_diameter
      via_drill end_y gy fuel x y vias pc = Ok (r, pc') ->
    StronglySorted column_major (map Via.position vias) ->
    (forall v, In v vias ->
       column_major (Via.position v) {| vx := x; vy := y |}) ->
    StronglySorted column_major (map Via.position r)
    /\ forall v, In v r -> vx (Via.position v) <= x.
Proof.
  induction fuel as [|fuel IH]; intros x y vias pc r pc'; [discriminate|].
  cbn [sample_column]. destruct (y <=? end_y) eqn:Ey.
  - rewrite !int_truediv_ok by (unfold RESOLUTION; lia). cbn [bind].
    intros H Hs Hb. apply (IH _ _ _ _ _ _ H).
    + destruct (valid_at V _ _); [|exact Hs].
      rewrite map_app. apply StronglySorted_snoc; [exact Hs|].
      intros p Hp. apply in_map_iff in Hp. destruct Hp as (v & <- & Hv).
      now apply Hb.
    + intros v Hv.
      assert (Hcase : In v vias
                      \/ v = new_via number int_times target_net via_diameter
                               via_drill x y).
      { destruct (valid_at V _ _); [|now left].
        apply in_app_or in Hv. destruct Hv as [Hv|[<-|[]]]; auto. }
      destruct Hcase as [Hin| ->].
      * specialize (Hb v Hin). unfold column_major in *. simpl in *. lia.
      * unfold column_major. simpl. lia.
  - unfold ret. intros [= <- <-] Hs Hb. split; [exact Hs|].
    intros v Hv. specialize (Hb v Hv). unfold column_major in Hb.
    simpl in Hb. lia.
Qed.

Lemma sample_grid_ordered (budget fuel : nat) :
  forall x row vias pc log log' r,
    sample_grid number int_times V overall_bbox target_net via_diameter
      via_drill end_x end_y gx gy stagger cb total_points budget fuel x row
      vias pc log = (log', Ok r) ->
    StronglySorted column_major (map Via.position vias) ->
    (forall v, In v vias -> vx (Via.position v) < x) ->
    StronglySorted column_major (map Via.position r).
Proof.
  induction fuel as [|fuel IH]; intros x row vias pc log log' r;
    [discriminate|].
  cbn [sample_grid]. destruct (x <=? end_x) eqn:Ex.
  - unfold bindM at 1. unfold lift at 1.
    destruct (sample_column number int_times V _ _ _ _ _ _ budget x _ vias pc)
      as [[c1 pc1]| |] eqn:E1; try discriminate.
    unfold bindM at 1.
    destruct (if total_points >? 0
              then progress cb (grid_progress total_points pc1)
                     (grid_status total_points pc1)
              else retM tt) as [l [[]| |]]; try discriminate.
    intros H Hs Hb.
    destruct (sample_column_ordered budget _ _ _ _ _ _ E1 Hs) as [Hs1 Hb1].
    { intros v Hv. left. simpl. now apply Hb. }
    apply (IH _ _ _ _ _ _ _ H Hs1).
    intros v Hv. specialize (Hb1 v Hv). lia.
  - unfold retM. intros [= <- <-] Hs _. exact Hs.
Qed.
End SamplerOrder.

(** X16: the grid walk never proposes two vias at one position: the
    positions of the vias come column by column from the left and from the
    top down within a column, each strictly after the one before, so they
    are pairwise distinct. *)
Theorem candidates_are_distinct :
  forall (number : Type) (int_times : number -> Z -> Z) (fuel : nat)
    (board : Board) (net_name : string) (target_net : Net)
    (zones : list Zone.t) (overall_bbox : Box2)
    (via_diameter via_drill grid_x grid_y : number) (stagger : bool)
    (ignored_zone_ids : list string) (progress_callback : bool)
    (log log' : list event) (vias_to_add : list Via.t),
    candidates number int_times fuel board net_name target_net zones
      overall_bbox via_diameter via_drill grid_x grid_y stagger
      ignored_zone_ids progress_callback log
    = (log', Ok vias_to_add) ->
    StronglySorted column_major (map Via.position vias_to_add)
    /\ NoDup (map Via.position vias_to_add).
Proof.
  intros number int_times fuel board net_name target zones bbox vd vdr
    grid_x grid_y stagger ign cb log log' vias H.
  destruct (candidates_inv _ _ _ _ _ _ _ _ _ _ _ _ _ _ _ _ _ _ H)
    as (zb & ob & tp & log0 & _ & _ & Hgrid).
  assert (Hs : StronglySorted column_major (map Via.position vias)).
  { refine (sample_grid_ordered _ _ _ _ _ _ _ _ _ _ _ _ _ _
              (clamp_spacing_pos _) (clamp_spacing_pos _) _ _ _ _ _ _ _ _ _
              Hgrid _ _).
    - constructor.
    - intros v []. }
  split; [exact Hs|]. now apply column_major_NoDup.
Qed.

Lemma candidates_are_distinct_witness :
  exists log' vias_to_add,
    candidates Z (fun v k => Z.quot (v * k) 10) 10 gnd_board "GND" GND
      [gnd_zone] (box 2000000) 6 3 5 5 false [] false []
    = (log', Ok vias_to_add)
    /\ length vias_to_add = 9%nat
    /\ NoDup (map Via.position vias_to_add).
Proof.
  destruct (candidates Z (fun v k => Z.quot (v * k) 10) 10 gnd_board "GND" GND
              [gnd_zone] (box 2000000) 6 3 5 5 false [] false [])
    as [log' [vias| |]] eqn:E; [|vm_compute in E; discriminate..].
  exists log', vias. split; [reflexivity|]. split.
  - vm_compute in E. now injection E as <- <-.
  - now destruct (candidates_are_distinct _ _ _ _ _ _ _ _ _ _ _ _ _ _ _ _ _ _
                    E).
Defined.

(** * The spacing clamp in [stitch] *)

(** ** Every stage of a run ends *)

Lemma settled_ok {A} (r : res A) (a : A) : r = Ok a -> settled r.
Proof. now intros ->. Qed.

Lemma bind_settled {A B} (m : res A) (k : A -> res B) :
  settled m -> (forall a, m = Ok a -> settled (k a)) -> settled (bind m k).
Proof. destruct m as [a|e|]; simpl; [auto|tauto..]. Qed.

Lemma for_each_settled {A B} (body : A -> B -> res A) (xs : list B) :
  (forall a b, In b xs -> settled (body a b)) ->
  forall acc, settled (for_each body xs acc).
Proof.
  induction xs as [|b xs IH]; intros H acc; simpl; [exact I|].
  apply bind_settled; [apply H; now left|].
  intros a _. apply IH. intros a' b' Hb'. apply H. now right.
Qed.

Lemma np_zeros_settled (d : dtype) (h w : Z) : settled (np_zeros d h w).
Proof. unfold np_zeros. now destruct (_ || _). Qed.

Lemma rasterize_polygon_settled (bitmap : ndarray)
  (nodes : list PolyLineNode) (bbox : Box2) :
  settled (rasterize_polygon bitmap nodes bbox RESOLUTION 1).
Proof.
  destruct (rasterize_polygon_ok bitmap nodes bbox RESOLUTION) as [b E];
    [discriminate|]. now rewrite E.
Qed.

Lemma rasterize_zones_by_layer_settled (zones : list Zone.t) (bbox : Box2) :
  settled (rasterize_zones_by_layer zones bbox RESOLUTION).
Proof.
  unfold rasterize_zones_by_layer.
  rewrite !int_truediv_ok by discriminate. cbn [bind].
  apply bind_settled; [apply np_zeros_settled|]. intros bitmap _.
  apply bind_settled; [|now intros].
  apply for_each_settled. intros layer_maps zone _. unfold rasterize_zone.
  destruct (Zone.filled_polygons zone) as [polys_dict|]; [|exact I].
  apply for_each_settled. intros maps [layer_id poly_list] _.
  unfold rasterize_zone_layer. destruct poly_list as [|poly polys]; [exact I|].
  apply bind_settled.
  { destruct (dict_get maps layer_id); [exact I|apply np_zeros_settled]. }
  intros layer_map _. apply bind_settled; [|now intros].
  apply for_each_settled. intros m p _. unfold rasterize_zone_poly.
  destruct (outline p) as [nodes|]; [|exact I].
  apply bind_settled; [apply rasterize_polygon_settled|]. intros m' _.
  destruct (holes p) as [hs|]; [|exact I].
  apply for_each_settled. intros m'' hole _. unfold subtract_hole.
  destruct hole as [hole_nodes|]; [|exact I].
  apply bind_settled; [apply np_zeros_settled|]. intros temp _.
  apply bind_settled; [apply rasterize_polygon_settled|]. now intros.
Qed.

Lemma to_pixel_ok (bbox : Box2) (p : Vector2) :
  to_pixel bbox RESOLUTION p = Ok (pixel_x bbox p, pixel_y bbox p).
Proof. unfold to_pixel. now rewrite !int_truediv_ok by discriminate. Qed.

Lemma rasterize_obstacles_settled (fuel : nat) (board : Items)
  (net_name : string) (bbox : Box2) (ignored : list string) :
  (forall t, In t (get_tracks board) -> (track_steps bbox t < fuel)%nat) ->
  settled (rasterize_obstacles fuel board net_name bbox RESOLUTION
             (Some ignored)).
Proof.
  intros Hfuel. unfold rasterize_obstacles.
  rewrite !int_truediv_ok by discriminate. cbn [bind].
  apply bind_settled; [apply np_zeros_settled|]. intros b0 _.
  apply bind_settled.
  { apply for_each_settled. intros a p _. unfold stamp_pad.
    destruct (on_net _ _); [exact I|]. rewrite to_pixel_ok. cbn [bind].
    unfold int_truediv_half. exact I. }
  intros b1 _. apply bind_settled.
  { apply for_each_settled. intros a v _. unfold stamp_via.
    destruct (on_net _ _); [exact I|]. rewrite to_pixel_ok. cbn [bind].
    unfold int_truediv_half. exact I. }
  intros b2 _. apply bind_settled.
  { apply for_each_settled. intros a t Ht. unfold stamp_track.
    destruct (on_net _ _); [exact I|]. rewrite !to_pixel_ok. cbn [bind].
    rewrite int_truediv_ok by discriminate. cbn [bind].
    destruct (draw_line_terminates a (pixel_x bbox (Track.start t))
                (pixel_y bbox (Track.start t)) (pixel_x bbox (Track.end_ t))
                (pixel_y bbox (Track.end_ t))
                (Z.quot (Track.width t) RESOLUTION) fuel (Hfuel t Ht))
      as (a' & E & _).
    now rewrite E. }
  intros b3 _. rewrite stamp_zones_outlines.
  apply for_each_settled. intros a nodes _. apply rasterize_polygon_settled.
Qed.

Lemma tracks_bound (bbox : Box2) (tracks : list Track.t) :
  exists bound : nat,
    forall t, In t tracks -> (track_steps bbox t < bound)%nat.
Proof.
  induction tracks as [|t tracks [bound IH]].
  - exists 0%nat. intros t [].
  - exists (S (track_steps bbox t + bound)). intros t' [<-|Hin]; [lia|].
    specialize (IH t' Hin). lia.
Qed.

(** ** The run in the monad of effects *)

Lemma bindM_settled {A B} (m : M A) (k : A -> M B) (log : list event) :
  settled (snd (m log)) ->
  (forall a log', m log = (log', Ok a) -> settled (snd (k a log'))) ->
  settled (snd (bindM m k log)).
Proof.
  unfold bindM. destruct (m log) as [log' [a|e|]]; simpl; [|tauto..].
  intros _ H. now apply H.
Qed.

Lemma board_call_settled (board : Board) (c : call) (log : list event) :
  settled (snd (board_call board c log)).
Proof. unfold board_call. now destruct (raises board log c). Qed.

Lemma progress_settled (cb : bool) (percent : Q) (status : string)
  (log : list event) :
  settled (snd (progress cb percent status log)).
Proof. now rewrite progress_eq. Qed.

Lemma for_eachM_settled {B} (body : B -> M unit) (xs : list B) :
  (forall b log, settled (snd (body b log))) ->
  forall log, settled (snd (for_eachM body xs log)).
Proof.
  intros H. induction xs as [|b xs IH]; intros log; simpl; [exact I|].
  apply bindM_settled; [apply H|]. intros _ log' _. apply IH.
Qed.

Lemma commit_settled (board : Board) (refill_after cb : bool)
  (vias : list Via.t) (log : list event) :
  settled (snd (commit board refill_after cb vias log)).
Proof.
  unfold commit.
  apply bindM_settled; [apply progress_settled|]. intros _ l1 _.
  apply bindM_settled.
  { destruct vias as [|v vias]; [exact I|].
    unfold try_except.
    assert (Hbody : settled (snd (commit_and_select board cb (v :: vias) l1))).
    { unfold commit_and_select.
      repeat (apply bindM_settled;
              [first [apply board_call_settled|apply progress_settled]|];
              intros _ ? _).
      apply for_eachM_settled. intros b l. apply board_call_settled. }
    destruct (commit_and_select board cb (v :: vias) l1) as [l2 [[]|e|]];
      simpl in *; [exact I|exact I|exact Hbody]. }
  intros _ l2 _. apply bindM_settled; [|now intros].
  destruct refill_after; [|exact I].
  apply bindM_settled; [apply progress_settled|]. intros _ l3 _.
  apply board_call_settled.
Qed.

Lemma candidates_settled (number : Type) (int_times : number -> Z -> Z)
  (fuel : nat) (board : Board) (net_name : string) (target_net : Net)
  (zones : list Zone.t) (overall_bbox : Box2)
  (via_diameter via_drill grid_x grid_y : number) (stagger : bool)
  (ignored : list string) (cb : bool) (log : list event) :
  (forall t, In t (get_tracks (items board)) ->
     (track_steps overall_bbox t < fuel)%nat) ->
  (Z.to_nat (vx (size overall_bbox) + 1) < fuel)%nat ->
  (Z.to_nat (vy (size overall_bbox) + 1) < fuel)%nat ->
  settled (snd (candidates number int_times fuel board net_name target_net
                  zones overall_bbox via_diameter via_drill grid_x grid_y
                  stagger ignored cb log)).
Proof.
  intros Htracks Hx Hy. unfold candidates.
  apply bindM_settled; [apply progress_settled|]. intros _ l1 _.
  apply bindM_settled; [apply rasterize_zones_by_layer_settled|].
  intros zone_bitmap l2 _.
  apply bindM_settled; [apply progress_settled|]. intros _ l3 _.
  apply bindM_settled; [now apply rasterize_obstacles_settled|].
  intros obstacle_bitmap l4 _.
  apply bindM_settled; [apply progress_settled|]. intros _ l5 _.
  apply bindM_settled; [apply progress_settled|]. intros _ l6 _.
  apply bindM_settled; [exact I|]. intros valid_bitmap l7 _.
  apply bindM_settled; [apply progress_settled|]. intros _ l8 _.
  pose proof (clamp_spacing_pos (int_times grid_x SCALE)) as Hgx.
  pose proof (clamp_spacing_pos (int_times grid_y SCALE)) as Hgy.
  cbv zeta. unfold lift at 1 2.
  apply bindM_settled; [simpl; rewrite int_truediv_ok by lia; exact I|].
  intros cols l9 _.
  apply bindM_settled; [simpl; rewrite int_truediv_ok by lia; exact I|].
  intros rows l10 _.
  destruct (sample_grid_terminates number int_times valid_bitmap overall_bbox
              target_net via_diameter via_drill
              (vx (pos overall_bbox) + vx (size overall_bbox))
              (vy (pos overall_bbox) + vy (size overall_bbox))
              (clamp_spacing (int_times grid_x SCALE))
              (clamp_spacing (int_times grid_y SCALE))
              stagger cb ((cols + 1) * (rows + 1)) fuel fuel Hgx Hgy)
    with (x := vx (pos overall_bbox)) (row := 0) (vias := @nil Via.t)
         (pc := 0) (log := l10)
    as (l11 & vias & E); [lia|lia|].
  now rewrite E.
Qed.

(** ** The clamp *)

Lemma candidates_clamp (number : Type) (int_times : number -> Z -> Z)
  (fuel : nat) (board : Board) (net_name : string) (target_net : Net)
  (zones : list Zone.t) (overall_bbox : Box2)
  (via_diameter via_drill grid_x grid_y grid_x' grid_y' : number)
  (stagger : bool) (ignored : list string) (cb : bool) :
  clamp_spacing (int_times grid_x SCALE)
  = clamp_spacing (int_times grid_x' SCALE) ->
  clamp_spacing (int_times grid_y SCALE)
  = clamp_spacing (int_times grid_y' SCALE) ->
  candidates number int_times fuel board net_name target_net zones
    overall_bbox via_diameter via_drill grid_x grid_y stagger ignored cb
  = candidates number int_times fuel board net_name target_net zones
      overall_bbox via_diameter via_drill grid_x' grid_y' stagger ignored cb.
Proof. intros Hx Hy. unfold candidates. cbv zeta. now rewrite Hx, Hy. Qed.

Lemma stitch_clamp (number : Type) (int_times : number -> Z -> Z)
  (fuel : nat) (board : Board) (net_name : string)
  (via_diameter via_drill grid_x grid_y grid_x' grid_y' : number)
  (stagger : bool) (ignored_zone_ids : option (list string))
  (refill_after cb : bool) :
  clamp_spacing (int_times grid_x SCALE)
  = clamp_spacing (int_times grid_x' SCALE) ->
  clamp_spacing (int_times grid_y SCALE)
  = clamp_spacing (int_times grid_y' SCALE) ->
  stitch number int_times fuel board net_name via_diameter via_drill grid_x
    grid_y stagger ignored_zone_ids refill_after cb
  = stitch number int_times fuel board net_name via_diameter via_drill
      grid_x' grid_y' stagger ignored_zone_ids refill_after cb.
Proof.
  intros Hx Hy. unfold stitch.
  destruct (find _ (get_nets (items board))) as [target_net|]; [|reflexivity].
  destruct (filter _ (get_zones (items board))) as [|z zs]; [reflexivity|].
  destruct (overall_bounding_box (z :: zs)) as [bbox|]; [|reflexivity].
  now rewrite (candidates_clamp number int_times fuel board net_name
                 target_net (z :: zs) bbox via_diameter via_drill grid_x
                 grid_y grid_x' grid_y' stagger _ cb Hx Hy).
Qed.

Lemma clamp_spacing_nonpositive (g g' : Z) :
  g <= 0 -> g' = 1000000 -> clamp_spacing g = clamp_spacing g'.
Proof.
  intros H ->. unfold clamp_spacing, SCALE.
  now rewrite (proj2 (Z.leb_le g 0) H).
Qed.

Lemma stitch_settled (number : Type) (int_times : number -> Z -> Z)
  (board : Board) (net_name : string)
  (via_diameter via_drill grid_x grid_y : number) (stagger : bool)
  (ignored_zone_ids : option (list string)) (refill_after cb : bool) :
  exists bound : nat,
    forall fuel, (bound <= fuel)%nat ->
      settled (snd (stitch number int_times fuel board net_name via_diameter
                      via_drill grid_x grid_y stagger ignored_zone_ids
                      refill_after cb [])).
Proof.
  destruct (target_net_of board net_name) as [target_net|] eqn:Enet.
  2:{ exists 0%nat. intros fuel _.
      destruct (stitch_returns_zero number int_times fuel board net_name
                  via_diameter via_drill grid_x grid_y stagger
                  ignored_zone_ids refill_after cb (or_introl Enet))
        as (trace & E & _).
      now rewrite E. }
  destruct (overall_bounding_box (target_zones board net_name)) as [bbox|]
    eqn:Ebox.
  2:{ exists 0%nat. intros fuel _.
      destruct (stitch_returns_zero number int_times fuel board net_name
                  via_diameter via_drill grid_x grid_y stagger
                  ignored_zone_ids refill_after cb
                  (or_intror (overall_bounding_box_none _ Ebox)))
        as (trace & E & _).
      now rewrite E. }
  destruct (tracks_bound bbox (get_tracks (items board))) as [tb Htb].
  exists (tb + S (Z.to_nat (vx (size bbox) + 1))
          + S (Z.to_nat (vy (size bbox) + 1)))%nat.
  intros fuel Hfuel.
  rewrite (stitch_found_run _ _ _ _ _ _ _ _ _ _ _ _ _ _ _ Enet Ebox).
  pose proof (candidates_settled number int_times fuel board net_name
                target_net (target_zones board net_name) bbox via_diameter
                via_drill grid_x grid_y stagger
                (match ignored_zone_ids with None => [] | Some ids => ids end)
                cb (after_progress cb 10 "Found zones for net" [])) as Hc.
  destruct (candidates _ _ _ _ _ _ _ _ _ _ _ _ _ _ _ _) as [log1 [vias|e|]].
  - apply commit_settled.
  - apply Hc; [intros t Ht; specialize (Htb t Ht)|..]; lia.
  - apply Hc; [intros t Ht; specialize (Htb t Ht)|..]; lia.
Qed.

(** C3, amended: in every call to [stitch], a grid spacing that resolves to
    0 or less after the unit conversion is replaced by one millimetre, that
    is [SCALE] = 1,000,000 board length units (not by one board length
    unit): the run is the run of a spacing that resolves to 1,000,000.  With
    the spacings so clamped the loops terminate: from some fuel on, whatever
    the spacings, the run of [stitch] neither runs on for ever nor divides
    by zero; it returns or raises another exception. *)
Theorem spacing_clamp_terminates :
  forall (number : Type) (int_times : number -> Z -> Z) (board : Board)
    (net_name : string) (via_diameter via_drill grid_x grid_y : number)
    (stagger : bool) (ignored_zone_ids : option (list string))
    (refill_after progress_callback : bool),
    (forall (one_mm : number) (fuel : nat),
        int_times grid_x SCALE <= 0 ->
        int_times one_mm SCALE = 1000000 ->
        stitch number int_times fuel board net_name via_diameter via_drill
          grid_x grid_y stagger ignored_zone_ids refill_after
          progress_callback
        = stitch number int_times fuel board net_name via_diameter via_drill
            one_mm grid_y stagger ignored_zone_ids refill_after
            progress_callback)
    /\ (forall (one_mm : number) (fuel : nat),
          int_times grid_y SCALE <= 0 ->
          int_times one_mm SCALE = 1000000 ->
          stitch number int_times fuel board net_name via_diameter via_drill
            grid_x grid_y stagger ignored_zone_ids refill_after
            progress_callback
          = stitch number int_times fuel board net_name via_diameter
              via_drill grid_x one_mm stagger ignored_zone_ids refill_after
              progress_callback)
    /\ exists bound : nat,
         forall fuel, (bound <= fuel)%nat ->
           let result :=
             snd (stitch number int_times fuel board net_name via_diameter
                    via_drill grid_x grid_y stagger ignored_zone_ids
                    refill_after progress_callback []) in
           result <> Diverge /\ result <> Raise ZeroDivisionError.
Proof.
  intros number int_times board net_name vd vdr grid_x grid_y stagger ign rf
    cb.
  split; [|split].
  - intros one_mm fuel Hle Hone. apply stitch_clamp; [|reflexivity].
    now apply clamp_spacing_nonpositive.
  - intros one_mm fuel Hle Hone. apply stitch_clamp; [reflexivity|].
    now apply clamp_spacing_nonpositive.
  - destruct (stitch_settled number int_times board net_name vd vdr grid_x
                grid_y stagger ign rf cb) as [bound H].
    exists bound. intros fuel Hfuel. specialize (H fuel Hfuel). cbv zeta.
    destruct (snd (stitch _ _ _ _ _ _ _ _ _ _ _ _ _ [])) as [n|[]|];
      simpl in H; try tauto; split; discriminate.
Qed.

Lemma spacing_clamp_terminates_witness :
  stitch Z int_times_Z 10 gnd_board "GND" 1 1 0 0 false None true true []
  = stitch Z int_times_Z 10 gnd_board "GND" 1 1 1 0 false None true true []
  /\ snd (stitch Z int_times_Z 10 gnd_board "GND" 1 1 0 0 false None true
            true [])
     = Ok 1.
Proof.
  split.
  - rewrite (proj1 (spacing_clamp_terminates Z int_times_Z gnd_board "GND"
                      1 1 0 0 false None true true) 1 10%nat);
      [reflexivity|unfold int_times_Z, SCALE; lia|reflexivity].
  - vm_compute. reflexivity.
Defined.

(** C3 as stated fails: on the 2 mm board the run of the grid walk with
    both spacings 0 proposes the one via of the 1 mm lattice, at
    (1 mm, 1 mm), and its progress reports count 3 grid points per column of
    9 in all.  With a spacing of one board length unit the lattice would
    hold every point of the box, among them (200000, 200000), whose pixel
    (2, 2) is valid and which the run does not propose. *)
Lemma zero_spacing_clamped_to_one_millimetre :
  snd (candidates Z int_times_Z 10 gnd_board "GND" GND [gnd_zone]
         (box 2000000) 1 1 0 0 false [] true [])
  = Ok [new_via Z int_times_Z GND 1 1 1000000 1000000]
  /\ In (Progress (grid_progress 9 3) (grid_status 9 3))
       (fst (candidates Z int_times_Z 10 gnd_board "GND" GND [gnd_zone]
               (box 2000000) 1 1 0 0 false [] true []))
  /\ match rasterize_zones_by_layer [gnd_zone] (box 2000000) RESOLUTION,
           rasterize_obstacles 10 (items gnd_board) "GND" (box 2000000)
             RESOLUTION (Some []) with
     | Ok zone_bitmap, Ok obstacle_bitmap =>
         valid_at (binary_erosion (valid_area zone_bitmap obstacle_bitmap) 2)
           (pixel_x (box 2000000) {| vx := 200000; vy := 200000 |})
           (pixel_y (box 2000000) {| vx := 200000; vy := 200000 |})
     | _, _ => false
     end = true
  /\ clamp_spacing (int_times_Z 0 SCALE) <> 1.
Proof.
  split; [vm_compute; reflexivity|].
  split; [vm_compute; tauto|].
  split; [vm_compute; reflexivity|discriminate].
Qed.
